(** * TwitterSpaceClient: a shallow embedding of
      packages/plugin-twitter/src/spaces.ts

    The class [TwitterSpaceClient] hosts or joins one live audio room at a
    time.  Its fields become the record [TwitterSpaceClient]; its methods
    become computations in a small monad [M] that threads the record,
    records every call made to an external collaborator (room handle,
    participant handle, scraper, filler helper) and carries a thrown
    exception.

    Collaborators.  What a collaborator answers is not decided here: every
    method takes the answers of the calls it awaits, and the values of
    [Date.now()] it reads, as arguments; a loop takes one answer per turn.
    An awaited remote call settles: it either resolves or rejects; a call
    that never settles is not modelled.  Registrations ([use], [on],
    [off]) and logging return without failing.

    Numbers.  JavaScript numbers are modelled as [Z] (timestamps and
    durations in milliseconds, counts, integer settings); the one division
    of the source, [elapsedMinutes], is the exact quotient in [Q], and so
    is the value of [Math.random()].

    Scheduling.  A method of [M] is one invocation, run from its call to
    its return with nothing else in between.  What happens when
    invocations give way to one another at their awaits is modelled for
    the methods that write the speaker lists, by the transition system
    [engineStep] below; an invocation that runs alone there agrees with
    the method of [M].  The timer that re-arms the periodic routine is
    not part of the state. *)

From Stdlib Require Import ZArith QArith Qround Bool List String Lia.
Import ListNotations.
Open Scope Z_scope.

Set Implicit Arguments.

(** ** JavaScript helpers *)

Module Js.

(** [a ?? d]: the default only for [undefined]/[null]. *)
Definition nullish {A : Type} (a : option A) (d : A) : A :=
  match a with
  | Some v => v
  | None => d
  end.

(** Truthiness of a number (no NaN in [Z]) and of a string. *)
Definition truthy_number (n : Z) : bool := negb (n =? 0).

Definition truthy_string (s : string) : bool :=
  match s with
  | EmptyString => false
  | String _ _ => true
  end.

(** Truthiness of an optional field: [undefined] is falsy. *)
Definition truthy_opt {A : Type} (t : A -> bool) (a : option A) : bool :=
  match a with
  | Some v => t v
  | None => false
  end.

Definition defined {A : Type} (a : option A) : bool :=
  match a with
  | Some _ => true
  | None => false
  end.

(** [arr.length] as a number. *)
Definition len {A : Type} (l : list A) : Z := Z.of_nat (List.length l).

(** [arr.slice(start)]: a negative [start] counts from the end. *)
Definition slice_from {A : Type} (start : Z) (l : list A) : list A :=
  if start <? 0
  then skipn (Z.to_nat (Z.max (len l + start) 0)) l
  else skipn (Z.to_nat start) l.

(** [arr.splice(i, 1)] for an index [i >= 0]. *)
Definition splice1 {A : Type} (i : nat) (l : list A) : list A :=
  firstn i l ++ skipn (S i) l.

(** [arr.findIndex(p)]: [None] stands for -1. *)
Fixpoint findIndex {A : Type} (p : A -> bool) (l : list A) : option nat :=
  match l with
  | [] => None
  | x :: r => if p x then Some 0%nat
              else match findIndex p r with
                   | Some i => Some (S i)
                   | None => None
                   end
  end.

(** [s.replace(pat, rep)] with a string pattern: the first occurrence. *)
Fixpoint replace (pat rep s : string) : string :=
  if String.prefix pat s
  then rep ++ String.substring (String.length pat)
                (String.length s - String.length pat) s
  else match s with
       | EmptyString => EmptyString
       | String ch r => String ch (replace pat rep r)
       end.

(** [a < b] on the quotients of the source. *)
Definition Qltb (a b : Q) : bool := negb (Qle_bool b a).

(** [arr[i]] for a number [i] that is an integer: [undefined] outside
    the array. *)
Definition item {A : Type} (l : list A) (i : Z) : option A :=
  if i <? 0 then None else nth_error l (Z.to_nat i).

(** [Math.floor] *)
Definition floor (x : Q) : Z := Qfloor x.

End Js.

(** ** Data model (lines 18-40) *)

Record TwitterSpaceDecisionOptions : Type := {
  maxSpeakers : option Z;
  typicalDurationMinutes : option Z;
  idleKickTimeoutMs : option Z;
  minIntervalBetweenSpacesMinutes : option Z;
  enableIdleMonitor : option bool;
  enableSpaceHosting : bool;
  enableRecording : option bool;
  speakerMaxDurationMs : option Z
}.

Record CurrentSpeakerState : Type := {
  userId : string;
  sessionUUID : string;
  username : string;
  startTime : Z
}.

(** [SpeakerRequest] of the client library: the three fields the class
    reads. *)
Record SpeakerRequest : Type := {
  req_userId : string;
  req_sessionUUID : string;
  req_username : string
}.

Inductive SpaceActivity : Type :=
| HOSTING
| PARTICIPATING
| IDLE.

Definition SpaceActivity_eqb (a b : SpaceActivity) : bool :=
  match a, b with
  | HOSTING, HOSTING => true
  | PARTICIPATING, PARTICIPATING => true
  | IDLE, IDLE => true
  | _, _ => false
  end.

(** The room handle and the participant handle are opaque objects. *)
Inductive Space : Type := NewSpace.
Inductive SpaceParticipant : Type := NewSpaceParticipant.
Inductive SttTtsPlugin : Type := NewSttTtsPlugin.

(** Fields of the class (lines 46-64); [runtime], [client], [scraper] and
    [checkInterval] carry no state the methods below read. *)
Record TwitterSpaceClient : Type := {
  currentSpace : option Space;
  spaceId : option string;
  startedAt : option Z;
  lastSpaceEndedAt : option Z;
  sttTtsPlugin : option SttTtsPlugin;
  spaceStatus : SpaceActivity;
  spaceParticipant : option SpaceParticipant;
  activeSpeakers : list CurrentSpeakerState;
  speakerQueue : list SpeakerRequest;
  decisionOptions : TwitterSpaceDecisionOptions
}.

(** ** Constructor (lines 66-84) *)

(** [runtime.character.settings?.twitter?.spaces]: every override is
    optional; [None] is an absent ([undefined] or [null]) value. *)
Record SpacesSettings : Type := {
  src_maxSpeakers : option Z;
  src_typicalDurationMinutes : option Z;
  src_idleKickTimeoutMs : option Z;
  src_minIntervalBetweenSpacesMinutes : option Z;
  src_enableIdleMonitor : option bool;
  src_enableSpaceHosting : option bool;
  src_enableRecording : option bool;
  src_speakerMaxDurationMs : option Z
}.

Definition emptySettings : SpacesSettings :=
  {| src_maxSpeakers := None;
     src_typicalDurationMinutes := None;
     src_idleKickTimeoutMs := None;
     src_minIntervalBetweenSpacesMinutes := None;
     src_enableIdleMonitor := None;
     src_enableSpaceHosting := None;
     src_enableRecording := None;
     src_speakerMaxDurationMs := None |}.

(** [x !== false] *)
Definition notStrictlyFalse (x : option bool) : bool :=
  match x with
  | Some false => false
  | _ => true
  end.

(** [x || false] *)
Definition orFalse (x : option bool) : bool :=
  match x with
  | Some true => true
  | _ => false
  end.

Definition resolveDecisionOptions (settings : option SpacesSettings)
  : TwitterSpaceDecisionOptions :=
  let charSpaces := Js.nullish settings emptySettings in
  {| maxSpeakers := Some (Js.nullish (src_maxSpeakers charSpaces) 1);
     typicalDurationMinutes :=
       Some (Js.nullish (src_typicalDurationMinutes charSpaces) 30);
     idleKickTimeoutMs :=
       Some (Js.nullish (src_idleKickTimeoutMs charSpaces) (5 * 60000));
     minIntervalBetweenSpacesMinutes :=
       Some (Js.nullish (src_minIntervalBetweenSpacesMinutes charSpaces) 60);
     enableIdleMonitor :=
       Some (notStrictlyFalse (src_enableIdleMonitor charSpaces));
     enableRecording :=
       Some (notStrictlyFalse (src_enableRecording charSpaces));
     enableSpaceHosting := orFalse (src_enableSpaceHosting charSpaces);
     speakerMaxDurationMs :=
       Some (Js.nullish (src_speakerMaxDurationMs charSpaces) (4 * 60000)) |}.

Definition newTwitterSpaceClient (settings : option SpacesSettings)
  : TwitterSpaceClient :=
  {| currentSpace := None;
     spaceId := None;
     startedAt := None;
     lastSpaceEndedAt := None;
     sttTtsPlugin := None;
     spaceStatus := IDLE;
     spaceParticipant := None;
     activeSpeakers := [];
     speakerQueue := [];
     decisionOptions := resolveDecisionOptions settings |}.

(** The settings as the methods read them, with their [??] fallbacks. *)
Definition maxSpeakersOf (c : TwitterSpaceClient) : Z :=
  Js.nullish (maxSpeakers (decisionOptions c)) 1.

Definition typicalDurationMinutesOf (c : TwitterSpaceClient) : Z :=
  Js.nullish (typicalDurationMinutes (decisionOptions c)) 30.

Definition speakerMaxDurationMsOf (c : TwitterSpaceClient) : Z :=
  Js.nullish (speakerMaxDurationMs (decisionOptions c)) 240000.

Definition minIntervalBetweenSpacesMinutesOf (c : TwitterSpaceClient) : Z :=
  Js.nullish (minIntervalBetweenSpacesMinutes (decisionOptions c)) 60.

(** ** External collaborators *)

Inductive FillerKind : Type :=
| WELCOME
| IDLE_ENDING
| CLOSING
| SPEAKER_LEFT
| PRE_ACCEPT.

Record SpaceConfig : Type := {
  record : option bool;
  mode : string;
  title : option string;
  description : string;
  languages : list string
}.

(** Every call the class makes on a collaborator, in the order made. *)
Inductive Call : Type :=
| GetAudioSpaceById (id : string)
| SpeakFiller (kind : FillerKind) (delayMs : option Z)
| GenerateTopicsIfEmpty
| SpaceInitialize (config : SpaceConfig)
| SpaceUseSttTts
| SpaceUseIdleMonitor (idleTimeoutMs checkEveryMs : Z)
| SpaceOn (event : string)
| ProcessOn (signal : string)
| SendTweet (text : string)
| ApproveSpeaker (user session : string)
| RemoveSpeaker (user : string)
| SpaceStop
| JoinAsListener (space : string)
| RequestSpeaker
| CancelSpeakerRequest
| BecomeSpeaker
| ParticipantOn (event : string)
| ParticipantOff (event : string)
| ParticipantUseSttTts.

Inductive Exn : Type :=
| CallFailed (c : Call)
| TypeError
| ApprovalTimeout (timeoutMs : Z).

(** What an awaited call answers. *)
Inductive Answer (A : Type) : Type :=
| Rejects
| Resolves (a : A).
Arguments Rejects {A}.
Arguments Resolves {A} a.

(** [scraper.getAudioSpaceById]: the class reads it through [?.], so each
    level may be absent. *)
Record RoomUser : Type := { user_id : string }.

Record Participants : Type := {
  speakers : option (list RoomUser);
  listeners : option (list RoomUser)
}.

Record AudioSpace : Type := { participants : option Participants }.

Record BroadcastInfo : Type := { room_id : string; share_url : string }.

(** ** The method monad: state, call trace, exception *)

(** How a method ends: it returns, it throws, or it waits for ever on a
    promise that never settles. *)
Inductive Completion (A : Type) : Type :=
| Normal (a : A)
| Thrown (e : Exn)
| Pending.
Arguments Normal {A} a.
Arguments Thrown {A} e.
Arguments Pending {A}.

Record Outcome (A : Type) : Type := {
  calls : list Call;
  final : TwitterSpaceClient;
  completion : Completion A
}.

Definition M (A : Type) : Type := TwitterSpaceClient -> Outcome A.

Definition ret {A : Type} (a : A) : M A :=
  fun c => {| calls := []; final := c; completion := Normal a |}.

Definition bind {A B : Type} (m : M A) (k : A -> M B) : M B :=
  fun c =>
    match m c with
    | {| calls := t; final := c'; completion := r |} =>
        match r with
        | Normal a =>
            match k a c' with
            | {| calls := t'; final := c''; completion := r' |} =>
                {| calls := t ++ t'; final := c''; completion := r' |}
            end
        | Thrown e => {| calls := t; final := c'; completion := Thrown e |}
        | Pending => {| calls := t; final := c'; completion := Pending |}
        end
    end.

Declare Scope m_scope.
Delimit Scope m_scope with m.
Notation "x <- m ;; k" := (bind m (fun x => k))
  (at level 61, m at next level, right associativity) : m_scope.
Notation "m ;; k" := (bind m (fun _ => k))
  (at level 61, right associativity) : m_scope.
Open Scope m_scope.

Definition this : M TwitterSpaceClient :=
  fun c => {| calls := []; final := c; completion := Normal c |}.

Definition assign (f : TwitterSpaceClient -> TwitterSpaceClient) : M unit :=
  fun c => {| calls := []; final := f c; completion := Normal tt |}.

Definition throw {A : Type} (e : Exn) : M A :=
  fun c => {| calls := []; final := c; completion := Thrown e |}.

(** A call that cannot fail. *)
Definition invoke (what : Call) : M unit :=
  fun c => {| calls := [what]; final := c; completion := Normal tt |}.

(** [await] of a call whose answer is [ans]. *)
Definition await {A : Type} (what : Call) (ans : Answer A) : M A :=
  fun c =>
    {| calls := [what];
       final := c;
       completion := match ans with
                     | Resolves a => Normal a
                     | Rejects => Thrown (CallFailed what)
                     end |}.

(** [try { m } catch (e) { h e }] *)
Definition tryCatch {A : Type} (m : M A) (h : Exn -> M A) : M A :=
  fun c =>
    match m c with
    | {| calls := t; final := c'; completion := r |} =>
        match r with
        | Thrown e =>
            match h e c' with
            | {| calls := t'; final := c''; completion := r' |} =>
                {| calls := t ++ t'; final := c''; completion := r' |}
            end
        | Normal _ | Pending =>
            {| calls := t; final := c'; completion := r |}
        end
    end.

(** [try { m } finally { f }] *)
Definition tryFinally {A : Type} (m : M A) (f : M unit) : M A :=
  fun c =>
    match m c with
    | {| calls := t; final := c'; completion := r |} =>
        match r with
        | Pending => {| calls := t; final := c'; completion := Pending |}
        | Normal _ | Thrown _ =>
            match f c' with
            | {| calls := t'; final := c''; completion := r' |} =>
                {| calls := t ++ t';
                   final := c'';
                   completion := match r' with
                                 | Normal _ => r
                                 | Thrown e => Thrown e
                                 | Pending => Pending
                                 end |}
            end
        end
    end.

(** [logger.log], [logger.error], [console.log]: no state, no failure. *)
Definition logged : M unit := ret tt.

(** ** Field assignments *)

Definition set_currentSpace (v : option Space) (c : TwitterSpaceClient) :=
  {| currentSpace := v; spaceId := spaceId c; startedAt := startedAt c;
     lastSpaceEndedAt := lastSpaceEndedAt c; sttTtsPlugin := sttTtsPlugin c;
     spaceStatus := spaceStatus c; spaceParticipant := spaceParticipant c;
     activeSpeakers := activeSpeakers c; speakerQueue := speakerQueue c;
     decisionOptions := decisionOptions c |}.

Definition set_spaceId (v : option string) (c : TwitterSpaceClient) :=
  {| currentSpace := currentSpace c; spaceId := v; startedAt := startedAt c;
     lastSpaceEndedAt := lastSpaceEndedAt c; sttTtsPlugin := sttTtsPlugin c;
     spaceStatus := spaceStatus c; spaceParticipant := spaceParticipant c;
     activeSpeakers := activeSpeakers c; speakerQueue := speakerQueue c;
     decisionOptions := decisionOptions c |}.

Definition set_startedAt (v : option Z) (c : TwitterSpaceClient) :=
  {| currentSpace := currentSpace c; spaceId := spaceId c; startedAt := v;
     lastSpaceEndedAt := lastSpaceEndedAt c; sttTtsPlugin := sttTtsPlugin c;
     spaceStatus := spaceStatus c; spaceParticipant := spaceParticipant c;
     activeSpeakers := activeSpeakers c; speakerQueue := speakerQueue c;
     decisionOptions := decisionOptions c |}.

Definition set_lastSpaceEndedAt (v : option Z) (c : TwitterSpaceClient) :=
  {| currentSpace := currentSpace c; spaceId := spaceId c;
     startedAt := startedAt c;
     lastSpaceEndedAt := v; sttTtsPlugin := sttTtsPlugin c;
     spaceStatus := spaceStatus c; spaceParticipant := spaceParticipant c;
     activeSpeakers := activeSpeakers c; speakerQueue := speakerQueue c;
     decisionOptions := decisionOptions c |}.

Definition set_sttTtsPlugin (v : option SttTtsPlugin)
  (c : TwitterSpaceClient) :=
  {| currentSpace := currentSpace c; spaceId := spaceId c;
     startedAt := startedAt c;
     lastSpaceEndedAt := lastSpaceEndedAt c; sttTtsPlugin := v;
     spaceStatus := spaceStatus c; spaceParticipant := spaceParticipant c;
     activeSpeakers := activeSpeakers c; speakerQueue := speakerQueue c;
     decisionOptions := decisionOptions c |}.

Definition set_spaceStatus (v : SpaceActivity) (c : TwitterSpaceClient) :=
  {| currentSpace := currentSpace c; spaceId := spaceId c;
     startedAt := startedAt c;
     lastSpaceEndedAt := lastSpaceEndedAt c; sttTtsPlugin := sttTtsPlugin c;
     spaceStatus := v; spaceParticipant := spaceParticipant c;
     activeSpeakers := activeSpeakers c; speakerQueue := speakerQueue c;
     decisionOptions := decisionOptions c |}.

Definition set_spaceParticipant (v : option SpaceParticipant)
  (c : TwitterSpaceClient) :=
  {| currentSpace := currentSpace c; spaceId := spaceId c;
     startedAt := startedAt c;
     lastSpaceEndedAt := lastSpaceEndedAt c; sttTtsPlugin := sttTtsPlugin c;
     spaceStatus := spaceStatus c; spaceParticipant := v;
     activeSpeakers := activeSpeakers c; speakerQueue := speakerQueue c;
     decisionOptions := decisionOptions c |}.

Definition set_activeSpeakers (v : list CurrentSpeakerState)
  (c : TwitterSpaceClient) :=
  {| currentSpace := currentSpace c; spaceId := spaceId c;
     startedAt := startedAt c;
     lastSpaceEndedAt := lastSpaceEndedAt c; sttTtsPlugin := sttTtsPlugin c;
     spaceStatus := spaceStatus c; spaceParticipant := spaceParticipant c;
     activeSpeakers := v; speakerQueue := speakerQueue c;
     decisionOptions := decisionOptions c |}.

Definition set_speakerQueue (v : list SpeakerRequest)
  (c : TwitterSpaceClient) :=
  {| currentSpace := currentSpace c; spaceId := spaceId c;
     startedAt := startedAt c;
     lastSpaceEndedAt := lastSpaceEndedAt c; sttTtsPlugin := sttTtsPlugin c;
     spaceStatus := spaceStatus c; spaceParticipant := spaceParticipant c;
     activeSpeakers := activeSpeakers c; speakerQueue := v;
     decisionOptions := decisionOptions c |}.

(** ** Methods of the class *)

(** Modelled from the spec: [speakFiller] of utils.ts, which is not among
    the sources.  Filler speech "never blocks or fails the governing
    operation": it is a call that returns and leaves the client alone. *)
Definition speakFiller (kind : FillerKind) (delayMs : option Z) : M unit :=
  invoke (SpeakFiller kind delayMs).

(** *** shouldLaunchSpace (lines 145-160); [now] is [Date.now()] *)
Definition shouldLaunchSpace (now : Z) : M bool :=
  c <- this;;
  match lastSpaceEndedAt c with
  | Some ended =>
      if Js.truthy_number ended then
        let minIntervalMs := minIntervalBetweenSpacesMinutesOf c * 60000 in
        if now - ended <? minIntervalMs
        then logged;; ret false
        else logged;; ret true
      else logged;; ret true
  | None => logged;; ret true
  end.

(** *** generateSpaceConfig (lines 162-185) *)
Record ConfigEnv : Type := {
  cfg_topics : list string;              (* runtime.character.topics || [] *)
  cfg_generated : Answer (list string);  (* generateTopicsIfEmpty *)
  cfg_random : Q                         (* Math.random() *)
}.

Definition generateSpaceConfig (env : ConfigEnv) : M SpaceConfig :=
  topics <- (if (List.length (cfg_topics env) =? 0)%nat
             then await GenerateTopicsIfEmpty (cfg_generated env)
             else ret (cfg_topics env));;
  let chosenTopic :=
    Js.item topics
      (Js.floor (cfg_random env * inject_Z (Js.len topics))) in
  c <- this;;
  ret {| record := enableRecording (decisionOptions c);
         mode := "INTERACTIVE";
         title := chosenTopic;
         description :=
           ("Discussion about " ++ Js.nullish chosenTopic "undefined")%string;
         languages := ["en"%string] |}.

(** *** startSpace (lines 187-288) *)
Record StartEnv : Type := {
  start_now : Z;                            (* Date.now() *)
  start_initialize : Answer BroadcastInfo;  (* currentSpace.initialize *)
  start_textToSpeech : bool;                (* runtime.getModel(...) *)
  start_transcription : bool;
  start_sendTweet : Answer unit             (* scraper.sendTweet *)
}.

Definition startSpace (config : SpaceConfig) (env : StartEnv) : M unit :=
  logged;;
  tryCatch
    (assign (set_currentSpace (Some NewSpace));;
     assign (set_spaceStatus IDLE);;
     assign (set_spaceId None);;
     assign (set_startedAt (Some (start_now env)));;
     assign (set_activeSpeakers []);;
     assign (set_speakerQueue []);;
     broadcastInfo <- await (SpaceInitialize config) (start_initialize env);;
     assign (set_spaceId (Some (room_id broadcastInfo)));;
     (if start_textToSpeech env && start_transcription env
      then logged;;
           assign (set_sttTtsPlugin (Some NewSttTtsPlugin));;
           invoke SpaceUseSttTts
      else ret tt);;
     c <- this;;
     (if Js.truthy_opt (fun b : bool => b)
           (enableIdleMonitor (decisionOptions c))
      then logged;;
           invoke (SpaceUseIdleMonitor
                     (Js.nullish (idleKickTimeoutMs (decisionOptions c)) 60000)
                     10000)
      else ret tt);;
     assign (set_spaceStatus HOSTING);;
     await (SendTweet
              (Js.replace "broadcasts" "spaces" (share_url broadcastInfo)))
           (start_sendTweet env);;
     logged;;
     speakFiller WELCOME None;;
     invoke (SpaceOn "occupancyUpdate");;
     invoke (SpaceOn "speakerRequest");;
     invoke (SpaceOn "idleTimeout");;
     invoke (ProcessOn "SIGINT"))
    (fun error =>
       logged;;
       assign (set_spaceStatus IDLE);;
       throw error).

(** *** acceptSpeaker (lines 407-424) *)
Record Admission : Type := {
  approveSpeaker : Answer unit;  (* currentSpace.approveSpeaker *)
  admittedAt : Z                 (* Date.now() read after the approval *)
}.

Definition acceptSpeaker (req : SpeakerRequest) (env : Admission) : M unit :=
  c <- this;;
  if negb (Js.defined (currentSpace c)) then ret tt
  else
    tryCatch
      (await (ApproveSpeaker (req_userId req) (req_sessionUUID req))
             (approveSpeaker env);;
       assign (fun c =>
                 set_activeSpeakers
                   (activeSpeakers c ++
                      [{| userId := req_userId req;
                          sessionUUID := req_sessionUUID req;
                          username := req_username req;
                          startTime := admittedAt env |}]) c);;
       logged)
      (fun err => logged).

(** *** removeSpeaker (lines 426-437) *)
Definition removeSpeaker (user : string) (answer : Answer unit) : M unit :=
  c <- this;;
  if negb (Js.defined (currentSpace c)) then ret tt
  else
    tryCatch
      (await (RemoveSpeaker user) answer;;
       logged)
      (fun error => logged).

(** The answers to the successive calls of a loop, by call number. *)
Definition next {A : Type} (answers : nat -> A) : nat -> A :=
  fun n => answers (S n).

(** *** acceptSpeakersFromQueueIfNeeded (lines 365-382)

    The [while] loop runs at most once per queued request: every turn
    shifts one.  [acceptLoop] is the loop with that bound as its fuel. *)
Fixpoint acceptLoop (fuel : nat) (ms : Z) (env : nat -> Admission)
  : M unit :=
  match fuel with
  | O => ret tt
  | S fuel' =>
      c <- this;;
      if (0 <? Js.len (speakerQueue c))
         && (Js.len (activeSpeakers c) <? ms)
      then
        match speakerQueue c with
        | nextReq :: rest =>
            assign (set_speakerQueue rest);;
            speakFiller PRE_ACCEPT None;;
            acceptSpeaker nextReq (env 0%nat);;
            acceptLoop fuel' ms (next env)
        | [] => acceptLoop fuel' ms env
        end
      else ret tt
  end.

Definition acceptSpeakersFromQueueIfNeeded (env : nat -> Admission)
  : M unit :=
  c <- this;;
  let ms := maxSpeakersOf c in
  acceptLoop (List.length (speakerQueue c)) ms env.

(** *** handleSpeakerRequest (lines 384-405) *)
Record RequestEnv : Type := {
  request_audioSpace : Answer (option AudioSpace); (* getAudioSpaceById *)
  request_admission : Admission
}.

(** [audioSpace?.participants?.speakers || []] *)
Definition janusSpeakersOf (audioSpace : option AudioSpace)
  : list RoomUser :=
  match audioSpace with
  | Some a =>
      match participants a with
      | Some p => Js.nullish (speakers p) []
      | None => []
      end
  | None => []
  end.

Definition handleSpeakerRequest (req : SpeakerRequest) (env : RequestEnv)
  : M unit :=
  c <- this;;
  if negb (Js.truthy_opt Js.truthy_string (spaceId c))
     || negb (Js.defined (currentSpace c))
  then ret tt
  else
    audioSpace <- await (GetAudioSpaceById (Js.nullish (spaceId c) EmptyString))
                        (request_audioSpace env);;
    let janusSpeakers := janusSpeakersOf audioSpace in
    if Js.len janusSpeakers <? maxSpeakersOf c
    then logged;;
         speakFiller PRE_ACCEPT None;;
         acceptSpeaker req (request_admission env)
    else logged;;
         assign (fun c => set_speakerQueue (speakerQueue c ++ [req]) c).

(** *** kickExtraSpeakers (lines 443-463) *)
Fixpoint kickLoop (extras : list RoomUser) (answers : nat -> Answer unit)
  : M unit :=
  match extras with
  | [] => ret tt
  | sp :: more =>
      logged;;
      removeSpeaker (user_id sp) (answers 0%nat);;
      c <- this;;
      (match Js.findIndex (fun s => String.eqb (userId s) (user_id sp))
               (activeSpeakers c) with
       | Some idx => assign (set_activeSpeakers
                               (Js.splice1 idx (activeSpeakers c)))
       | None => ret tt
       end);;
      kickLoop more (next answers)
  end.

(** [speakers.slice] on [undefined] is a TypeError. *)
Definition kickExtraSpeakers (roomSpeakers : option (list RoomUser))
  (answers : nat -> Answer unit) : M unit :=
  c <- this;;
  if negb (Js.defined (currentSpace c)) then ret tt
  else
    let ms := maxSpeakersOf c in
    match roomSpeakers with
    | None => throw TypeError
    | Some l => kickLoop (Js.slice_from ms l) answers
    end.

(** *** stopSpace (lines 465-481) *)
Record StopEnv : Type := {
  stop_close : Answer unit;  (* currentSpace.stop *)
  stop_now : Z               (* Date.now() in the finally block *)
}.

Definition stopSpace (env : StopEnv) : M unit :=
  c <- this;;
  if negb (Js.defined (currentSpace c))
     || SpaceActivity_eqb (spaceStatus c) IDLE
  then ret tt
  else
    tryFinally
      (tryCatch
         (logged;;
          await SpaceStop (stop_close env))
         (fun err => logged))
      (assign (set_spaceStatus IDLE);;
       assign (set_spaceId None);;
       assign (set_currentSpace None);;
       assign (set_startedAt None);;
       assign (set_lastSpaceEndedAt (Some (stop_now env)));;
       assign (set_activeSpeakers []);;
       assign (set_speakerQueue [])).

(** *** manageCurrentSpace (lines 293-360) *)
Record ManageEnv : Type := {
  manage_audioSpace : Answer (option AudioSpace); (* getAudioSpaceById *)
  manage_now : Z;                                 (* Date.now() *)
  manage_evictions : nat -> Answer unit;   (* removeSpeaker, step 1 *)
  manage_admissions : nat -> Admission;    (* approveSpeaker, step 2 *)
  manage_kicks : nat -> Answer unit;       (* removeSpeaker, step 3 *)
  manage_stop : StopEnv                    (* step 4 *)
}.

(** Step 1, lines 307-324: [for (i = length - 1; i >= 0; i--)].  The
    counter [n] is [i + 1]; reading past the end of the array and then a
    field of the result is a TypeError. *)
Fixpoint evictLoop (n : nat) (maxDur now : Z) (answers : nat -> Answer unit)
  : M unit :=
  match n with
  | O => ret tt
  | S i =>
      c <- this;;
      match nth_error (activeSpeakers c) i with
      | None => throw TypeError
      | Some speaker =>
          let elapsed := now - startTime speaker in
          if maxDur <? elapsed
          then logged;;
               removeSpeaker (userId speaker) (answers 0%nat);;
               assign (fun c => set_activeSpeakers
                                  (Js.splice1 i (activeSpeakers c)) c);;
               speakFiller SPEAKER_LEFT None;;
               evictLoop i maxDur now (next answers)
          else evictLoop i maxDur now answers
      end
  end.

Definition evictExpiredSpeakers (now : Z) (answers : nat -> Answer unit)
  : M unit :=
  c <- this;;
  let maxDur := speakerMaxDurationMsOf c in
  evictLoop (List.length (activeSpeakers c)) maxDur now answers.

(** [arr?.length || 0] *)
Definition lengthOrZero {A : Type} (arr : option (list A)) : Z :=
  match arr with
  | Some l => Js.len l
  | None => 0
  end.

(** [(now - (this.startedAt || 0)) / 60000] *)
Definition elapsedMinutesAt (now : Z) (c : TwitterSpaceClient) : Q :=
  let started := match startedAt c with
                 | Some t => if Js.truthy_number t then t else 0
                 | None => 0
                 end in
  (inject_Z (now - started) / inject_Z 60000)%Q.

(** The condition of step 4, lines 339-345. *)
Definition closingCondition (elapsedMinutes : Q) (typical : Z)
  (numSpeakers totalListeners : Z) : bool :=
  Js.Qltb (inject_Z typical) elapsedMinutes
  || ((numSpeakers =? 0) && (totalListeners =? 0)
      && Js.Qltb (inject_Z 5) elapsedMinutes).

Definition manageCurrentSpace (env : ManageEnv) : M unit :=
  c <- this;;
  if negb (Js.truthy_opt Js.truthy_string (spaceId c))
     || negb (Js.defined (currentSpace c))
  then ret tt
  else
    tryCatch
      (audioSpace <- await (GetAudioSpaceById
                              (Js.nullish (spaceId c) EmptyString))
                           (manage_audioSpace env);;
       match audioSpace with
       | None => throw TypeError
       | Some a =>
           match participants a with
           | None => throw TypeError
           | Some parts =>
               let numSpeakers := lengthOrZero (speakers parts) in
               let totalListeners := lengthOrZero (listeners parts) in
               let now := manage_now env in
               evictExpiredSpeakers now (manage_evictions env);;
               acceptSpeakersFromQueueIfNeeded (manage_admissions env);;
               c <- this;;
               (if maxSpeakersOf c <? numSpeakers
                then logged;;
                     kickExtraSpeakers (speakers parts) (manage_kicks env)
                else ret tt);;
               c <- this;;
               let elapsedMinutes := elapsedMinutesAt now c in
               if closingCondition elapsedMinutes
                    (typicalDurationMinutesOf c) numSpeakers totalListeners
               then logged;;
                    speakFiller CLOSING (Some 4000);;
                    stopSpace (manage_stop env)
               else ret tt
           end
       end)
      (fun error => logged).

(** The [idleTimeout] handler installed by startSpace (lines 261-271). *)
Definition onIdleTimeout (env : StopEnv) : M unit :=
  logged;;
  speakFiller IDLE_ENDING None;;
  stopSpace env.

(** *** waitForApproval (lines 540-577)

    The promise is settled by one of two callbacks: the
    [newSpeakerAccepted] handler and the timer.  [Wait] is what the
    closure holds: the flag [resolved], whether [handler] is still
    registered on the participant, how the promise was settled, and the
    calls made on the participant so far. *)
Inductive Settlement : Type :=
| Fulfilled
| RejectedWith (e : Exn).

Record Wait : Type := {
  resolved : bool;
  registered : bool;
  settlement : option Settlement;
  wait_calls : list Call
}.

(** [resolve()] / [reject(e)]: only the first one settles a promise. *)
Definition settle (how : Settlement) (w : Wait) : Wait :=
  match settlement w with
  | Some _ => w
  | None => {| resolved := resolved w; registered := registered w;
               settlement := Some how; wait_calls := wait_calls w |}
  end.

Definition newSpeakerAccepted : string := "newSpeakerAccepted".

(** [handler(evt)], with the answer of [participant.becomeSpeaker()]. *)
Definition handler (session : string) (becomeSpeaker : Answer unit)
  (evt_sessionUUID : string) (w : Wait) : Wait :=
  if String.eqb evt_sessionUUID session then
    let w' := {| resolved := true;
                 registered := false;
                 settlement := settlement w;
                 wait_calls := wait_calls w ++
                   [ParticipantOff newSpeakerAccepted; BecomeSpeaker] |} in
    match becomeSpeaker with
    | Resolves _ => settle Fulfilled w'
    | Rejects => settle (RejectedWith (CallFailed BecomeSpeaker)) w'
    end
  else w.

(** The participant emits an event: only a registered handler runs. *)
Definition emit (session : string) (becomeSpeaker : Answer unit)
  (w : Wait) (evt_sessionUUID : string) : Wait :=
  if registered w then handler session becomeSpeaker evt_sessionUUID w
  else w.

(** The [setTimeout] callback. *)
Definition onTimer (timeoutMs : Z) (w : Wait) : Wait :=
  if negb (resolved w) then
    settle (RejectedWith (ApprovalTimeout timeoutMs))
      {| resolved := resolved w;
         registered := false;
         settlement := settlement w;
         wait_calls := wait_calls w ++ [ParticipantOff newSpeakerAccepted] |}
  else w.

(** What the participant does while the promise is awaited: the events
    emitted before the timer fires, and those emitted after it. *)
Record WaitEnv : Type := {
  wait_before : list string;   (* evt.sessionUUID of each event *)
  wait_after : list string;
  wait_becomeSpeaker : Answer unit
}.

Definition waiting (session : string) (timeoutMs : Z) (env : WaitEnv)
  : Wait :=
  let start := {| resolved := false;
                  registered := true;
                  settlement := None;
                  wait_calls := [ParticipantOn newSpeakerAccepted] |} in
  let emitAll := fold_left (emit session (wait_becomeSpeaker env)) in
  emitAll (wait_after env)
    (onTimer timeoutMs (emitAll (wait_before env) start)).

Definition waitForApproval (session : string) (timeoutMs : Z)
  (env : WaitEnv) : M unit :=
  fun c =>
    let w := waiting session timeoutMs env in
    {| calls := wait_calls w;
       final := c;
       completion := match settlement w with
                     | Some Fulfilled => Normal tt
                     | Some (RejectedWith e) => Thrown e
                     | None => Pending
                     end |}.

(** *** joinSpace (lines 483-534) *)
Inductive JoinResult : Type :=
| ReturnsNull
| ReturnsUndefined
| ReturnsSpaceId (id : string).

Record JoinEnv : Type := {
  join_joinAsListener : Answer unit;
  join_requestSpeaker : Answer string;  (* the sessionUUID *)
  join_wait : WaitEnv;
  join_cancelSpeakerRequest : Answer unit
}.

Definition joinSpace (id : string) (env : JoinEnv) : M JoinResult :=
  c <- this;;
  if negb (SpaceActivity_eqb (spaceStatus c) IDLE)
  then logged;; ret ReturnsNull
  else
    (if negb (Js.defined (spaceParticipant c))
     then assign (set_spaceParticipant (Some NewSpaceParticipant))
     else ret tt);;
    c <- this;;
    if Js.defined (spaceParticipant c) then
      tryCatch
        (await (JoinAsListener id) (join_joinAsListener env);;
         assign (set_spaceStatus PARTICIPATING);;
         session <- await RequestSpeaker (join_requestSpeaker env);;
         logged;;
         tryCatch
           (waitForApproval session 15000 (join_wait env);;
            logged;;
            assign (set_sttTtsPlugin (Some NewSttTtsPlugin));;
            invoke ParticipantUseSttTts)
           (fun err =>
              logged;;
              tryCatch
                (await CancelSpeakerRequest (join_cancelSpeakerRequest env);;
                 logged)
                (fun cancelErr => logged));;
         ret (ReturnsSpaceId id))
        (fun error => logged;; ret ReturnsNull)
    else ret ReturnsUndefined.

(** *** One turn of the periodic routine (lines 96-133); the timer that
    re-arms it is not part of the state. *)
Record RoutineEnv : Type := {
  routine_now : Z;
  routine_config : ConfigEnv;
  routine_start : StartEnv;
  routine_manage : ManageEnv
}.

Definition routine (env : RoutineEnv) : M unit :=
  tryCatch
    (c <- this;;
     if SpaceActivity_eqb (spaceStatus c) IDLE then
       if enableSpaceHosting (decisionOptions c) then
         launch <- shouldLaunchSpace (routine_now env);;
         if launch : bool then
           config <- generateSpaceConfig (routine_config env);;
           startSpace config (routine_start env)
         else ret tt
       else ret tt
     else
       if SpaceActivity_eqb (spaceStatus c) HOSTING
       then manageCurrentSpace (routine_manage env)
       else ret tt)
    (fun error => logged).

(** The client a method leaves. *)
Definition after {A : Type} (m : M A) (c : TwitterSpaceClient)
  : TwitterSpaceClient :=
  final (m c).

(** ** The admission engine at its awaits

    A method of [M] is one invocation, run from its call to its return.
    In the program an invocation gives way at every [await].  The
    emitter does not wait for the [speakerRequest] handler (lines
    251-259), so several handlers, the management tick and the
    [idleTimeout] handler can be suspended at once over the same client,
    each at one of its awaits.

    [Suspended] lists the awaits of the methods that write
    [activeSpeakers] or [speakerQueue]: handleSpeakerRequest,
    manageCurrentSpace with the methods it calls, the [idleTimeout]
    handler with stopSpace, and startSpace, each with the local
    variables that are live there.  [resume] runs an invocation from an
    await that has settled up to its next await, or to its end.  The
    calls made on the collaborators are those of the methods above and
    are not recorded again.  joinSpace, which writes neither list, and
    the SIGINT handler, which ends the process, are left out. *)

(** What settles an await and what the code reads before its next one:
    the answer of the call awaited, the value of [Date.now()], the two
    results of [runtime.getModel].  The answers of [removeSpeaker] and of
    [currentSpace.stop] are caught where they are awaited (lines 428-436
    and 467-472) and change nothing. *)
Record Settled : Type := {
  settled_room : Answer (option AudioSpace);   (* getAudioSpaceById *)
  settled_approval : Answer unit;              (* approveSpeaker *)
  settled_initialize : Answer BroadcastInfo;   (* currentSpace.initialize *)
  settled_sendTweet : Answer unit;             (* scraper.sendTweet *)
  settled_textToSpeech : bool;                 (* runtime.getModel(...) *)
  settled_transcription : bool;
  settled_now : Z                              (* Date.now() *)
}.

(** The local variables of manageCurrentSpace (lines 299-305). *)
Record TickFrame : Type := {
  tick_speakers : option (list RoomUser);  (* participants.speakers *)
  tick_numSpeakers : Z;
  tick_totalListeners : Z;
  tick_maxDur : Z;
  tick_now : Z
}.

Inductive Suspended : Type :=
(* handleSpeakerRequest *)
| RequestAwaitsRoom (req : SpeakerRequest)              (* line 387 *)
| RequestAwaitsFiller (req : SpeakerRequest)            (* line 393 *)
| RequestAwaitsApproval (req : SpeakerRequest)          (* line 410 *)
(* manageCurrentSpace *)
| TickAwaitsRoom                                        (* line 296 *)
| TickAwaitsRemoval (f : TickFrame) (i : nat)           (* line 314 *)
| TickAwaitsLeftFiller (f : TickFrame) (i : nat)        (* line 318 *)
| TickAwaitsDrain (f : TickFrame)                       (* line 327 *)
| TickAwaitsTrim (f : TickFrame)                        (* line 334 *)
| TickAwaitsClosingFiller                               (* line 349 *)
(* acceptSpeakersFromQueueIfNeeded, with [ms] of line 367 *)
| DrainAwaitsFiller (f : TickFrame) (ms : Z) (req : SpeakerRequest)
                                                        (* line 374 *)
| DrainAwaitsApproval (f : TickFrame) (ms : Z) (req : SpeakerRequest)
                                                        (* line 410 *)
| DrainAwaitsAccept (f : TickFrame) (ms : Z)            (* line 379 *)
(* kickExtraSpeakers, with the rest of [extras] *)
| TrimAwaitsRemoval (f : TickFrame) (sp : RoomUser) (more : list RoomUser)
                                                        (* line 453 *)
(* the idleTimeout handler and stopSpace *)
| IdleAwaitsFiller                                      (* line 265 *)
| StopAwaitsClose                                       (* line 469 *)
(* startSpace *)
| StartAwaitsInitialize                                 (* line 200 *)
| StartAwaitsTweet                                      (* line 227 *)
| StartAwaitsWelcome.                                   (* line 238 *)

(** The client a stretch of code leaves, and the await it stops at;
    [None] when the invocation is over (returned, or threw into the
    [catch] of line 357, or threw out of an event handler). *)
Definition Segment : Type := (TwitterSpaceClient * option Suspended)%type.

(** stopSpace up to line 469. *)
Definition stopSpaceStarts (c : TwitterSpaceClient) : Segment :=
  if negb (Js.defined (currentSpace c))
     || SpaceActivity_eqb (spaceStatus c) IDLE
  then (c, None)
  else (c, Some StopAwaitsClose).

(** The [finally] block of stopSpace, lines 473-479. *)
Definition stopSpaceEnds (now : Z) (c : TwitterSpaceClient)
  : TwitterSpaceClient :=
  set_speakerQueue []
    (set_activeSpeakers []
       (set_lastSpaceEndedAt (Some now)
          (set_startedAt None
             (set_currentSpace None
                (set_spaceId None
                   (set_spaceStatus IDLE c)))))).

(** Lines 411-416 after the approval, lines 418-423 after a refusal. *)
Definition approvalSettles (req : SpeakerRequest) (s : Settled)
  (c : TwitterSpaceClient) : TwitterSpaceClient :=
  match settled_approval s with
  | Resolves _ =>
      set_activeSpeakers
        (activeSpeakers c ++
           [{| userId := req_userId req;
               sessionUUID := req_sessionUUID req;
               username := req_username req;
               startTime := settled_now s |}]) c
  | Rejects => c
  end.

(** Step 4 of the tick, lines 338-349. *)
Definition closingStarts (f : TickFrame) (c : TwitterSpaceClient)
  : Segment :=
  if closingCondition (elapsedMinutesAt (tick_now f) c)
       (typicalDurationMinutesOf c)
       (tick_numSpeakers f) (tick_totalListeners f)
  then (c, Some TickAwaitsClosingFiller)
  else (c, None).

(** The [for] loop of kickExtraSpeakers, lines 449-453. *)
Definition kickFrom (f : TickFrame) (extras : list RoomUser)
  (c : TwitterSpaceClient) : Segment :=
  match extras with
  | [] => (c, Some (TickAwaitsTrim f))
  | sp :: more => (c, Some (TrimAwaitsRemoval f sp more))
  end.

(** Step 3 of the tick, lines 330-334, into kickExtraSpeakers, lines
    444-448. *)
Definition trimStarts (f : TickFrame) (c : TwitterSpaceClient) : Segment :=
  if maxSpeakersOf c <? tick_numSpeakers f
  then if negb (Js.defined (currentSpace c))
       then (c, Some (TickAwaitsTrim f))
       else match tick_speakers f with
            | None => (c, None)
            | Some l => kickFrom f (Js.slice_from (maxSpeakersOf c) l) c
            end
  else closingStarts f c.

(** The test of the [while] loop of the queue drain and its [shift],
    lines 368-374. *)
Definition drainTest (f : TickFrame) (ms : Z) (c : TwitterSpaceClient)
  : Segment :=
  match speakerQueue c with
  | nextReq :: rest =>
      if Js.len (activeSpeakers c) <? ms
      then (set_speakerQueue rest c, Some (DrainAwaitsFiller f ms nextReq))
      else (c, Some (TickAwaitsDrain f))
  | [] => (c, Some (TickAwaitsDrain f))
  end.

(** Step 2 of the tick, line 327, into the drain, lines 367-374. *)
Definition drainStarts (f : TickFrame) (c : TwitterSpaceClient) : Segment :=
  drainTest f (maxSpeakersOf c) c.

(** The [for] loop of step 1, lines 307-314, from the counter [n = i + 1]
    down, and on to step 2 when it is over. *)
Fixpoint evictFrom (f : TickFrame) (n : nat) (c : TwitterSpaceClient)
  : Segment :=
  match n with
  | O => drainStarts f c
  | S i =>
      match nth_error (activeSpeakers c) i with
      | None => (c, None)
      | Some speaker =>
          if tick_maxDur f <? tick_now f - startTime speaker
          then (c, Some (TickAwaitsRemoval f i))
          else evictFrom f i c
      end
  end.

(** The handler of [speakerRequest] up to line 387. *)
Definition requestStarts (req : SpeakerRequest) (c : TwitterSpaceClient)
  : Segment :=
  if negb (Js.truthy_opt Js.truthy_string (spaceId c))
     || negb (Js.defined (currentSpace c))
  then (c, None)
  else (c, Some (RequestAwaitsRoom req)).

(** manageCurrentSpace up to line 296. *)
Definition tickStarts (c : TwitterSpaceClient) : Segment :=
  if negb (Js.truthy_opt Js.truthy_string (spaceId c))
     || negb (Js.defined (currentSpace c))
  then (c, None)
  else (c, Some TickAwaitsRoom).

(** The handler of [idleTimeout] up to line 265. *)
Definition idleTimeoutStarts (c : TwitterSpaceClient) : Segment :=
  (c, Some IdleAwaitsFiller).

(** startSpace up to line 200; [now] is the [Date.now()] of line 194. *)
Definition startSpaceStarts (now : Z) (c : TwitterSpaceClient) : Segment :=
  (set_speakerQueue []
     (set_activeSpeakers []
        (set_startedAt (Some now)
           (set_spaceId None
              (set_spaceStatus IDLE
                 (set_currentSpace (Some NewSpace) c))))),
   Some StartAwaitsInitialize).

(** startSpace from line 201 to line 227. *)
Definition startSpaceInitialized (broadcastInfo : BroadcastInfo)
  (s : Settled) (c : TwitterSpaceClient) : TwitterSpaceClient :=
  let c1 := set_spaceId (Some (room_id broadcastInfo)) c in
  let c2 := if settled_textToSpeech s && settled_transcription s
            then set_sttTtsPlugin (Some NewSttTtsPlugin) c1
            else c1 in
  set_spaceStatus HOSTING c2.

Definition resume (p : Suspended) (s : Settled) (c : TwitterSpaceClient)
  : Segment :=
  match p with
  | RequestAwaitsRoom req =>
      match settled_room s with
      | Rejects => (c, None)
      | Resolves audioSpace =>
          if Js.len (janusSpeakersOf audioSpace) <? maxSpeakersOf c
          then (c, Some (RequestAwaitsFiller req))
          else (set_speakerQueue (speakerQueue c ++ [req]) c, None)
      end
  | RequestAwaitsFiller req =>
      if negb (Js.defined (currentSpace c))
      then (c, None)
      else (c, Some (RequestAwaitsApproval req))
  | RequestAwaitsApproval req => (approvalSettles req s c, None)
  | TickAwaitsRoom =>
      match settled_room s with
      | Resolves (Some a) =>
          match participants a with
          | Some parts =>
              let f := {| tick_speakers := speakers parts;
                          tick_numSpeakers := lengthOrZero (speakers parts);
                          tick_totalListeners :=
                            lengthOrZero (listeners parts);
                          tick_maxDur := speakerMaxDurationMsOf c;
                          tick_now := settled_now s |} in
              evictFrom f (List.length (activeSpeakers c)) c
          | None => (c, None)
          end
      | Resolves None => (c, None)
      | Rejects => (c, None)
      end
  | TickAwaitsRemoval f i =>
      (set_activeSpeakers (Js.splice1 i (activeSpeakers c)) c,
       Some (TickAwaitsLeftFiller f i))
  | TickAwaitsLeftFiller f i => evictFrom f i c
  | TickAwaitsDrain f => trimStarts f c
  | TickAwaitsTrim f => closingStarts f c
  | TickAwaitsClosingFiller => stopSpaceStarts c
  | DrainAwaitsFiller f ms req =>
      if negb (Js.defined (currentSpace c))
      then (c, Some (DrainAwaitsAccept f ms))
      else (c, Some (DrainAwaitsApproval f ms req))
  | DrainAwaitsApproval f ms req =>
      (approvalSettles req s c, Some (DrainAwaitsAccept f ms))
  | DrainAwaitsAccept f ms => drainTest f ms c
  | TrimAwaitsRemoval f sp more =>
      kickFrom f more
        (match Js.findIndex (fun s => String.eqb (userId s) (user_id sp))
                 (activeSpeakers c) with
         | Some idx =>
             set_activeSpeakers (Js.splice1 idx (activeSpeakers c)) c
         | None => c
         end)
  | IdleAwaitsFiller => stopSpaceStarts c
  | StopAwaitsClose => (stopSpaceEnds (settled_now s) c, None)
  | StartAwaitsInitialize =>
      match settled_initialize s with
      | Resolves broadcastInfo =>
          (startSpaceInitialized broadcastInfo s c, Some StartAwaitsTweet)
      | Rejects => (set_spaceStatus IDLE c, None)
      end
  | StartAwaitsTweet =>
      match settled_sendTweet s with
      | Resolves _ => (c, Some StartAwaitsWelcome)
      | Rejects => (set_spaceStatus IDLE c, None)
      end
  | StartAwaitsWelcome => (c, None)
  end.

(** The client and the invocations suspended over it, oldest first. *)
Record Engine : Type := {
  client : TwitterSpaceClient;
  suspended : list Suspended
}.

Definition idleEngine (c : TwitterSpaceClient) : Engine :=
  {| client := c; suspended := [] |}.

(** What happens next: the room emits an event, the routine calls the
    tick (line 117), startSpace is called at time [now], or the await of
    the [i]-th suspended invocation settles. *)
Inductive Event : Type :=
| SpeakerRequestEmitted (req : SpeakerRequest)
| TickCalled
| IdleTimeoutEmitted
| StartSpaceCalled (now : Z)
| AwaitSettles (i : nat) (s : Settled).

Definition stillSuspended (p : option Suspended) : list Suspended :=
  match p with
  | Some p' => [p']
  | None => []
  end.

(** A new invocation runs at once up to its first await. *)
Definition called (seg : Segment) (e : Engine) : Engine :=
  match seg with
  | (c', p) => {| client := c'; suspended := suspended e ++ stillSuspended p |}
  end.

Definition engineStep (ev : Event) (e : Engine) : Engine :=
  match ev with
  | SpeakerRequestEmitted req => called (requestStarts req (client e)) e
  | TickCalled => called (tickStarts (client e)) e
  | IdleTimeoutEmitted => called (idleTimeoutStarts (client e)) e
  | StartSpaceCalled now => called (startSpaceStarts now (client e)) e
  | AwaitSettles i s =>
      match nth_error (suspended e) i with
      | None => e
      | Some p =>
          match resume p s (client e) with
          | (c', p') =>
              {| client := c';
                 suspended := firstn i (suspended e) ++ stillSuspended p'
                              ++ skipn (S i) (suspended e) |}
          end
      end
  end.

(** The engine after each event of a run, oldest first. *)
Fixpoint enginesAfter (evs : list Event) (e : Engine) : list Engine :=
  match evs with
  | [] => []
  | ev :: rest =>
      let e' := engineStep ev e in
      e' :: enginesAfter rest e'
  end.

(** The engine at the end of a run. *)
Definition engineAfter (evs : list Event) (e : Engine) : Engine :=
  fold_left (fun e' ev => engineStep ev e') evs e.

(** The engine with one invocation, where [seg] has left it. *)
Definition alone (seg : Segment) : Engine :=
  match seg with
  | (c, p) => {| client := c; suspended := stillSuspended p |}
  end.

(** Running alone, an invocation gets from [seg] to [seg'] as its awaits
    settle, with answers that satisfy [P]. *)
Definition reaches (P : Settled -> Prop) (seg seg' : Segment) : Prop :=
  exists answers : list Settled,
    Forall P answers /\
    engineAfter (map (AwaitSettles 0) answers) (alone seg) = alone seg'.

(** What settles an await of a tick run in the environment [env], with
    the decision of the room on a speaker and the clock. *)
Definition tickSettles (env : ManageEnv) (adm : Admission) (now : Z)
  : Settled :=
  {| settled_room := manage_audioSpace env;
     settled_approval := approveSpeaker adm;
     settled_initialize := Rejects;
     settled_sendTweet := Rejects;
     settled_textToSpeech := false;
     settled_transcription := false;
     settled_now := now |}.

(** Step 4 of the tick run on the client [c]: what it leaves. *)
Definition closesOrStays (env : ManageEnv) (parts : Participants)
  (c : TwitterSpaceClient) : TwitterSpaceClient :=
  if closingCondition (elapsedMinutesAt (manage_now env) c)
       (typicalDurationMinutesOf c)
       (lengthOrZero (speakers parts)) (lengthOrZero (listeners parts))
  then after (stopSpace (manage_stop env)) c
  else c.

(** The local variables of the tick run in [env] on the client [c]. *)
Definition frameOf (env : ManageEnv) (parts : Participants)
  (c : TwitterSpaceClient) : TickFrame :=
  {| tick_speakers := speakers parts;
     tick_numSpeakers := lengthOrZero (speakers parts);
     tick_totalListeners := lengthOrZero (listeners parts);
     tick_maxDur := speakerMaxDurationMsOf c;
     tick_now := manage_now env |}.

(** What one stretch of code can do to the pending queue: leave it,
    append a request at its tail, take the request at its head, or empty
    it. *)
Inductive queueMove (q : list SpeakerRequest) : list SpeakerRequest -> Prop :=
| queue_kept : queueMove q q
| queue_pushed : forall req : SpeakerRequest, queueMove q (q ++ [req])
| queue_shifted : forall (req : SpeakerRequest) (rest : list SpeakerRequest),
    q = req :: rest -> queueMove q rest
| queue_emptied : queueMove q [].

(** An admission is in flight from the capacity test that lets the
    request through (line 391 or line 370) until [approveSpeaker] has
    settled (line 410). *)
Definition inFlight (p : Suspended) : bool :=
  match p with
  | RequestAwaitsFiller _ => true
  | RequestAwaitsApproval _ => true
  | DrainAwaitsFiller _ _ _ => true
  | DrainAwaitsApproval _ _ _ => true
  | _ => false
  end.

Definition admissionsInFlight (e : Engine) : Z :=
  Z.of_nat (List.length (filter inFlight (suspended e))).

(** The number of speakers the room reports in an answer: none when
    the answer has no list of speakers. *)
Definition speakersReported (audioSpace : option AudioSpace) : Z :=
  match audioSpace with
  | Some a =>
      match participants a with
      | Some parts =>
          match speakers parts with
          | Some l => Z.of_nat (List.length l)
          | None => 0
          end
      | None => 0
      end
  | None => 0
  end.

(** The count a stretch of code compares with [maxSpeakers]: the
    speakers the room reports for a speaker request (line 391), the
    length of [activeSpeakers] for the queue (line 370). *)
Definition countRead (p : Suspended) (s : Settled) (c : TwitterSpaceClient)
  : Z :=
  match p, settled_room s with
  | RequestAwaitsRoom _, Resolves audioSpace => speakersReported audioSpace
  | _, _ => Z.of_nat (List.length (activeSpeakers c))
  end.

Definition countTested (ev : Event) (e : Engine) : Z :=
  match ev with
  | AwaitSettles i s =>
      match nth_error (suspended e) i with
      | Some p => countRead p s (client e)
      | None => Z.of_nat (List.length (activeSpeakers (client e)))
      end
  | _ => Z.of_nat (List.length (activeSpeakers (client e)))
  end.

(** When the event lets a request through a capacity test, the count
    tested is at least the speakers recorded plus the admissions in
    flight. *)
Definition accounted (ev : Event) (e : Engine) : Prop :=
  admissionsInFlight e < admissionsInFlight (engineStep ev e) ->
  Z.of_nat (List.length (activeSpeakers (client e))) + admissionsInFlight e
  <= countTested ev e.

Fixpoint accountedAlong (evs : list Event) (e : Engine) : Prop :=
  match evs with
  | [] => True
  | ev :: rest => accounted ev e /\ accountedAlong rest (engineStep ev e)
  end.

(** A suspended drain holds the [ms] it read at line 367. *)
Definition carries (ms : Z) (p : Suspended) : Prop :=
  match p with
  | DrainAwaitsFiller _ ms' _ => ms' = ms
  | DrainAwaitsApproval _ ms' _ => ms' = ms
  | DrainAwaitsAccept _ ms' => ms' = ms
  | _ => True
  end.

(** 1 for an invocation suspended with an admission in flight. *)
Definition flying (p : option Suspended) : Z :=
  match p with
  | Some p' => if inFlight p' then 1 else 0
  | None => 0
  end.

(** What a stretch of code does to the capacity: run on the client [c]
    by an invocation that counted for [z] as in flight, it keeps the
    settings, and either it does not add to the speakers recorded and in
    flight, or it lets one request through after reading a count [t]
    below [maxSpeakers]. *)
Definition keepsCapacity (c : TwitterSpaceClient) (z t : Z) (seg : Segment)
  : Prop :=
  match seg with
  | (c', p') =>
      decisionOptions c' = decisionOptions c /\
      (forall q : Suspended, p' = Some q -> carries (maxSpeakersOf c) q) /\
      (Js.len (activeSpeakers c') + flying p'
       <= Js.len (activeSpeakers c) + z
       \/ (flying p' = 1 /\ z = 0 /\
           activeSpeakers c' = activeSpeakers c /\
           t < maxSpeakersOf c))
  end.

(** The invariant of the engine: the speakers recorded and the
    admissions in flight fit in [maxSpeakers]. *)
Definition capacityKept (e : Engine) : Prop :=
  Js.len (activeSpeakers (client e)) + admissionsInFlight e
  <= maxSpeakersOf (client e)
  /\ Forall (carries (maxSpeakersOf (client e))) (suspended e).

(** ** Runs of the client *)

(** [activeSpeakers.length <= maxSpeakers], on the setting the
    constructor has resolved. *)
Definition withinCapacity (c : TwitterSpaceClient) : Prop :=
  exists ms : Z,
    maxSpeakers (decisionOptions c) = Some ms /\
    Z.of_nat (List.length (activeSpeakers c)) <= ms.

(** What a caller or the event loop can do to a client. *)
Inductive ClientOp : Type :=
| Routine (env : RoutineEnv)
| StartSpace (config : SpaceConfig) (env : StartEnv)
| StopSpace (env : StopEnv)
| JoinSpace (id : string) (env : JoinEnv)
| OnSpeakerRequest (req : SpeakerRequest) (env : RequestEnv)
| OnIdleTimeout (env : StopEnv).

Definition clientStep (op : ClientOp) (c : TwitterSpaceClient)
  : TwitterSpaceClient :=
  match op with
  | Routine env => after (routine env) c
  | StartSpace config env => after (startSpace config env) c
  | StopSpace env => after (stopSpace env) c
  | JoinSpace id env => after (joinSpace id env) c
  | OnSpeakerRequest req env => after (handleSpeakerRequest req env) c
  | OnIdleTimeout env => after (onIdleTimeout env) c
  end.

Inductive reachable (settings : option SpacesSettings)
  : TwitterSpaceClient -> Prop :=
| reachable_new : reachable settings (newTwitterSpaceClient settings)
| reachable_step : forall op c,
    reachable settings c -> reachable settings (clientStep op c).

(** The value of [Date.now()] that an operation writes into
    [lastSpaceEndedAt] if it stops a Space (line 477, the one assignment
    of the field). *)
Definition stopClock (op : ClientOp) : option Z :=
  match op with
  | Routine env => Some (stop_now (manage_stop (routine_manage env)))
  | StopSpace env => Some (stop_now env)
  | OnIdleTimeout env => Some (stop_now env)
  | StartSpace _ _ => None
  | JoinSpace _ _ => None
  | OnSpeakerRequest _ _ => None
  end.

(** The clients reached while the clock shows a time after the epoch:
    [Date.now()] counts the milliseconds since 1970. *)
Inductive reachableOnClock (settings : option SpacesSettings)
  : TwitterSpaceClient -> Prop :=
| onClock_new : reachableOnClock settings (newTwitterSpaceClient settings)
| onClock_step : forall op c,
    reachableOnClock settings c ->
    (forall t : Z, stopClock op = Some t -> 0 < t) ->
    reachableOnClock settings (clientStep op c).

(** ** Vocabulary of the properties *)

(** The same answer at every turn of a loop. *)
Definition always {A : Type} (a : A) : nat -> A := fun _ => a.

(** The entry a request becomes when it is admitted at time [now]. *)
Definition admitted (req : SpeakerRequest) (now : Z) : CurrentSpeakerState :=
  {| userId := req_userId req;
     sessionUUID := req_sessionUUID req;
     username := req_username req;
     startTime := now |}.

(** The entries recorded for a run of requests submitted in order, the
    n-th with the n-th answer: one per approval that succeeds. *)
Fixpoint admittedOf (env : nat -> Admission) (reqs : list SpeakerRequest)
  : list CurrentSpeakerState :=
  match reqs with
  | [] => []
  | req :: rest =>
      match approveSpeaker (env 0%nat) with
      | Resolves _ => [admitted req (admittedAt (env 0%nat))]
      | Rejects => []
      end ++ admittedOf (next env) rest
  end.

Definition approvalOf (req : SpeakerRequest) : Call :=
  ApproveSpeaker (req_userId req) (req_sessionUUID req).

(** The client with another pair of speaker collections. *)
Definition withAdmission (act : list CurrentSpeakerState)
  (q : list SpeakerRequest) (c : TwitterSpaceClient) : TwitterSpaceClient :=
  set_speakerQueue q (set_activeSpeakers act c).

(** An outcome reached after the calls [t]. *)
Definition prepend {A : Type} (t : list Call) (o : Outcome A) : Outcome A :=
  {| calls := t ++ calls o; final := final o; completion := completion o |}.

(** The calls of a queue drain that takes the requests [taken]. *)
Definition drainCalls (hasSpace : bool) (taken : list SpeakerRequest)
  : list Call :=
  flat_map (fun req => SpeakFiller PRE_ACCEPT None ::
                       if hasSpace then [approvalOf req] else []) taken.

Definition isApprove (call : Call) : bool :=
  match call with
  | ApproveSpeaker _ _ => true
  | _ => false
  end.

Definition isSpaceStop (call : Call) : bool :=
  match call with
  | SpaceStop => true
  | _ => false
  end.

Definition isOff (call : Call) : bool :=
  match call with
  | ParticipantOff _ => true
  | _ => false
  end.

Definition isCancel (call : Call) : bool :=
  match call with
  | CancelSpeakerRequest => true
  | _ => false
  end.

(** No call of [t] closes the room. *)
Definition noStop (t : list Call) : Prop := existsb isSpaceStop t = false.

(** "Absent or falsy" for a number and for a flag. *)
Definition falsyNumber (x : option Z) : bool :=
  negb (Js.truthy_opt Js.truthy_number x).

Definition falsyFlag (x : option bool) : bool :=
  negb (Js.truthy_opt (fun b : bool => b) x).

(** A present source value is used, an absent one gives the default. *)
Definition presentWins {A : Type} (source : option A) (default : A)
  (resolved : option A) : Prop :=
  match source with
  | Some v => resolved = Some v
  | None => resolved = Some default
  end.

(** The cooldown of the last session is still running at [now]. *)
Definition tooSoon (now : Z) (c : TwitterSpaceClient) : Prop :=
  exists ended,
    lastSpaceEndedAt c = Some ended /\
    ended <> 0 /\
    now - ended < minIntervalBetweenSpacesMinutesOf c * 60000.

(** The cooldown in the words of the specification: the last session
    ended, and less than [interval] minutes ago. *)
Definition coolingDown (now interval : Z) (c : TwitterSpaceClient) : Prop :=
  exists ended : Z,
    lastSpaceEndedAt c = Some ended /\
    now - ended < interval * 60000.

(** The client as [stopSpace] leaves it when it does stop. *)
Definition stopped (now : Z) (c : TwitterSpaceClient) : TwitterSpaceClient :=
  {| currentSpace := None;
     spaceId := None;
     startedAt := None;
     lastSpaceEndedAt := Some now;
     sttTtsPlugin := sttTtsPlugin c;
     spaceStatus := IDLE;
     spaceParticipant := spaceParticipant c;
     activeSpeakers := [];
     speakerQueue := [];
     decisionOptions := decisionOptions c |}.

(** [stopSpace] returns at its first line. *)
Definition nothingToStop (c : TwitterSpaceClient) : bool :=
  negb (Js.defined (currentSpace c))
  || SpaceActivity_eqb (spaceStatus c) IDLE.

(** An event for [session] is among those emitted before the timer. *)
Definition acceptedInTime (session : string) (env : WaitEnv) : bool :=
  existsb (fun evt => String.eqb evt session) (wait_before env).

Definition becomeSpeakerResult (env : WaitEnv) : Settlement :=
  match wait_becomeSpeaker env with
  | Resolves _ => Fulfilled
  | Rejects => RejectedWith (CallFailed BecomeSpeaker)
  end.

(** A client that hosts: [startSpace] went through. *)
Definition hosting (c : TwitterSpaceClient) : Prop :=
  spaceStatus c = HOSTING /\
  currentSpace c <> None /\
  Js.truthy_opt Js.truthy_string (spaceId c) = true.

(** The room's answer as the tick reads it, when it can be read. *)
Definition reportedParticipants (env : ManageEnv) : option Participants :=
  match manage_audioSpace env with
  | Resolves (Some a) => participants a
  | _ => None
  end.

(** The tick gets as far as its step 4: it has a Space to manage, the
    room answered, and the capacity trim did not fail on an absent
    speaker list. *)
Definition reachesClosingStep (env : ManageEnv) (c : TwitterSpaceClient)
  : bool :=
  Js.truthy_opt Js.truthy_string (spaceId c)
  && Js.defined (currentSpace c)
  && match reportedParticipants env with
     | Some parts =>
         Js.defined (speakers parts) || (0 <=? maxSpeakersOf c)
     | None => false
     end.

(** The condition of step 4 on the room's answer. *)
Definition closingDue (env : ManageEnv) (c : TwitterSpaceClient) : bool :=
  match reportedParticipants env with
  | Some parts =>
      closingCondition (elapsedMinutesAt (manage_now env) c)
        (typicalDurationMinutesOf c)
        (lengthOrZero (speakers parts)) (lengthOrZero (listeners parts))
  | None => false
  end.

(** The auto-close rule in the words of the specification, for a session
    that is [age] milliseconds old: the session is older than [typical]
    minutes, or the room reports no speaker and no listener and the
    session is older than 5 minutes. *)
Definition reportsNobody (l : option (list RoomUser)) : Prop :=
  l = None \/ l = Some [].

Definition autoCloseDue (age typical : Z) (parts : Participants) : Prop :=
  typical * 60000 < age \/
  (reportsNobody (speakers parts) /\ reportsNobody (listeners parts) /\
   5 * 60000 < age).

(** The session markers of a client. *)
Definition markersDefined (c : TwitterSpaceClient) : Prop :=
  spaceId c <> None /\ startedAt c <> None.

Definition markersUndefined (c : TwitterSpaceClient) : Prop :=
  spaceId c = None /\ startedAt c = None.

(** A hosting client has its session markers. *)
Definition hostingHasMarkers (c : TwitterSpaceClient) : Prop :=
  spaceStatus c = HOSTING -> markersDefined c.

(** ** Concrete clients and answers *)

Definition zeroSpeakers : SpacesSettings :=
  {| src_maxSpeakers := Some 0;
     src_typicalDurationMinutes := None;
     src_idleKickTimeoutMs := None;
     src_minIntervalBetweenSpacesMinutes := None;
     src_enableIdleMonitor := Some false;
     src_enableSpaceHosting := None;
     src_enableRecording := None;
     src_speakerMaxDurationMs := None |}.

Definition approvedAt (now : Z) : Admission :=
  {| approveSpeaker := Resolves tt; admittedAt := now |}.

Definition emptyRoom : option AudioSpace :=
  Some {| participants :=
            Some {| speakers := Some []; listeners := Some [] |} |}.

Definition roomWith (sp ls : list RoomUser) : option AudioSpace :=
  Some {| participants :=
            Some {| speakers := Some sp; listeners := Some ls |} |}.

Definition listener : RoomUser := {| user_id := "9" |}.

Definition alice : SpeakerRequest :=
  {| req_userId := "1"; req_sessionUUID := "a"; req_username := "alice" |}.

Definition bob : SpeakerRequest :=
  {| req_userId := "2"; req_sessionUUID := "b"; req_username := "bob" |}.

Definition carol : SpeakerRequest :=
  {| req_userId := "3"; req_sessionUUID := "c"; req_username := "carol" |}.

Definition carolInRoom : list RoomUser := [{| user_id := "3" |}].

Definition someConfig : SpaceConfig :=
  {| record := Some true; mode := "INTERACTIVE"; title := Some "Chat"%string;
     description := "Discussion about Chat"; languages := ["en"%string] |}.

Definition startsWell (now : Z) : StartEnv :=
  {| start_now := now;
     start_initialize :=
       Resolves {| room_id := "room";
                   share_url := "https://x.com/i/broadcasts/room" |};
     start_textToSpeech := true;
     start_transcription := true;
     start_sendTweet := Resolves tt |}.

Definition initializeFails (now : Z) : StartEnv :=
  {| start_now := now;
     start_initialize := Rejects;
     start_textToSpeech := true;
     start_transcription := true;
     start_sendTweet := Resolves tt |}.

Definition tweetFails (now : Z) : StartEnv :=
  {| start_now := now;
     start_initialize :=
       Resolves {| room_id := "room";
                   share_url := "https://x.com/i/broadcasts/room" |};
     start_textToSpeech := true;
     start_transcription := true;
     start_sendTweet := Rejects |}.

Definition closesAt (now : Z) : StopEnv :=
  {| stop_close := Resolves tt; stop_now := now |}.

Definition closeFailsAt (now : Z) : StopEnv :=
  {| stop_close := Rejects; stop_now := now |}.

(** The room answers with [sp] speakers and [ls] listeners at time [now];
    every call on the room succeeds. *)
Definition tickAt (now : Z) (sp ls : list RoomUser) : ManageEnv :=
  {| manage_audioSpace := Resolves (roomWith sp ls);
     manage_now := now;
     manage_evictions := always (Resolves tt);
     manage_admissions := always (approvedAt now);
     manage_kicks := always (Resolves tt);
     manage_stop := closesAt now |}.

(** The same tick when the room query fails. *)
Definition unansweredTickAt (now : Z) : ManageEnv :=
  {| manage_audioSpace := Rejects;
     manage_now := now;
     manage_evictions := always (Resolves tt);
     manage_admissions := always (approvedAt now);
     manage_kicks := always (Resolves tt);
     manage_stop := closesAt now |}.


Definition requestInEmptyRoom (now : Z) : RequestEnv :=
  {| request_audioSpace := Resolves emptyRoom;
     request_admission := approvedAt now |}.


Definition joinsAndIsApproved : JoinEnv :=
  {| join_joinAsListener := Resolves tt;
     join_requestSpeaker := Resolves "s"%string;
     join_wait := {| wait_before := ["s"%string];
                     wait_after := [];
                     wait_becomeSpeaker := Resolves tt |};
     join_cancelSpeakerRequest := Resolves tt |}.

Definition joinsAndTimesOut : JoinEnv :=
  {| join_joinAsListener := Resolves tt;
     join_requestSpeaker := Resolves "s"%string;
     join_wait := {| wait_before := ["other"%string];
                     wait_after := ["s"%string];
                     wait_becomeSpeaker := Resolves tt |};
     join_cancelSpeakerRequest := Resolves tt |}.

(** A client that hosts a Space opened at time [now], default settings. *)
Definition hostingSince (now : Z) : TwitterSpaceClient :=
  clientStep (StartSpace someConfig (startsWell now))
    (newTwitterSpaceClient None).

(** A client that joined a Space as a participant. *)
Definition participating : TwitterSpaceClient :=
  clientStep (JoinSpace "room" joinsAndIsApproved)
    (newTwitterSpaceClient None).

(** A hosted Space, default settings, whose one slot carol holds. *)
Definition carolSpeaks : TwitterSpaceClient :=
  after (handleSpeakerRequest carol (requestInEmptyRoom 1)) (hostingSince 0).

(** What settles an await at time [now] in a room that reports the
    speakers [sp]; the room approves. *)
Definition roomReports (sp : list RoomUser) (now : Z) : Settled :=
  {| settled_room := Resolves (roomWith sp []);
     settled_approval := Resolves tt;
     settled_initialize :=
       Resolves {| room_id := "room";
                   share_url := "https://x.com/i/broadcasts/room" |};
     settled_sendTweet := Resolves tt;
     settled_textToSpeech := true;
     settled_transcription := true;
     settled_now := now |}.

(** An evening on a Space with one slot.  carol asks and is let through;
    alice asks while carol's approval is awaited and is queued, the room
    counting carol already; bob is queued after her.  Five minutes later
    a tick evicts carol and admits alice from the queue. *)
Definition eveningRun : list Event :=
  [SpeakerRequestEmitted carol;
   AwaitSettles 0 (roomReports [] 1);
   AwaitSettles 0 (roomReports [] 1);
   SpeakerRequestEmitted alice;
   AwaitSettles 1 (roomReports carolInRoom 2);
   AwaitSettles 0 (roomReports carolInRoom 2);
   SpeakerRequestEmitted bob;
   AwaitSettles 0 (roomReports carolInRoom 3);
   TickCalled;
   AwaitSettles 0 (roomReports carolInRoom 300000);
   AwaitSettles 0 (roomReports carolInRoom 300000);
   AwaitSettles 0 (roomReports carolInRoom 300000);
   AwaitSettles 0 (roomReports carolInRoom 300000);
   AwaitSettles 0 (roomReports carolInRoom 300000);
   AwaitSettles 0 (roomReports carolInRoom 300000);
   AwaitSettles 0 (roomReports carolInRoom 300000)].

(** Two requests whose handlers overlap: the room is asked twice before
    either request is approved, and reports no speaker both times. *)
Definition overlappingRun : list Event :=
  [SpeakerRequestEmitted alice;
   SpeakerRequestEmitted bob;
   AwaitSettles 0 (roomReports [] 1);
   AwaitSettles 1 (roomReports [] 1);
   AwaitSettles 0 (roomReports [] 1);
   AwaitSettles 1 (roomReports [] 1);
   AwaitSettles 0 (roomReports [] 2);
   AwaitSettles 0 (roomReports [] 3)].

(** ** Vocabulary of the further properties *)

(** The test of line 310: the speaker has held the floor for more than
    [maxDur] at [now]. *)
Definition expired (maxDur now : Z) (s : CurrentSpeakerState) : bool :=
  maxDur <? now - startTime s.

Definition isRemove (call : Call) : bool :=
  match call with
  | RemoveSpeaker _ => true
  | _ => false
  end.

(** The calls of an eviction pass that removes the speakers [gone], in
    the order of the list. *)
Definition evictionCalls (hasSpace : bool) (gone : list CurrentSpeakerState)
  : list Call :=
  flat_map (fun s => (if hasSpace then [RemoveSpeaker (userId s)] else [])
                     ++ [SpeakFiller SPEAKER_LEFT None]) gone.

(** The answer is a success. *)
Definition resolves {A : Type} (ans : Answer A) : bool :=
  match ans with
  | Resolves _ => true
  | Rejects => false
  end.

(** The room approves every speaker of a drain. *)
Definition allApproved (env : nat -> Admission) : Prop :=
  forall n : nat, approveSpeaker (env n) = Resolves tt.

(** The slots [maxSpeakers] leaves beside the recorded speakers. *)
Definition freeSlots (c : TwitterSpaceClient) : nat :=
  Z.to_nat (maxSpeakersOf c - Js.len (activeSpeakers c)).

(** The first line of handleSpeakerRequest and of manageCurrentSpace lets
    the method go on. *)
Definition hasSpaceToManage (c : TwitterSpaceClient) : bool :=
  Js.truthy_opt Js.truthy_string (spaceId c) && Js.defined (currentSpace c).

Definition queryOf (c : TwitterSpaceClient) : Call :=
  GetAudioSpaceById (Js.nullish (spaceId c) EmptyString).

(** [l] without its first element that satisfies [p]: what
    [findIndex] followed by [splice] leaves. *)
Fixpoint removeFirst {A : Type} (p : A -> bool) (l : list A) : list A :=
  match l with
  | [] => []
  | x :: r => if p x then r else x :: removeFirst p r
  end.

(** The test of line 457. *)
Definition sameUser (sp : RoomUser) (s : CurrentSpeakerState) : bool :=
  String.eqb (userId s) (user_id sp).

(** How many recorded speakers, and how many room speakers, have the
    user id [u]. *)
Definition recordedAs (u : string) (l : list CurrentSpeakerState) : nat :=
  List.length (filter (fun s => String.eqb (userId s) u) l).

Definition reportedAs (u : string) (l : list RoomUser) : nat :=
  List.length (filter (fun sp => String.eqb u (user_id sp)) l).

(** The recorded speaker is none of the room speakers [extras]. *)
Definition notAmong (extras : list RoomUser) (s : CurrentSpeakerState)
  : bool :=
  negb (existsb (fun sp => sameUser sp s) extras).

(** The plugins startSpace attaches to a new Space (lines 203-225). *)
Definition attachments (env : StartEnv) (c : TwitterSpaceClient)
  : list Call :=
  (if start_textToSpeech env && start_transcription env
   then [SpaceUseSttTts] else [])
  ++ (if Js.truthy_opt (fun b : bool => b)
            (enableIdleMonitor (decisionOptions c))
      then [SpaceUseIdleMonitor
              (Js.nullish (idleKickTimeoutMs (decisionOptions c)) 60000)
              10000]
      else []).

(** The announcement of a Space (lines 227-229). *)
Definition tweetOf (info : BroadcastInfo) : Call :=
  SendTweet (Js.replace "broadcasts" "spaces" (share_url info)).

(** The handlers startSpace installs last (lines 245-282). *)
Definition handlerRegistrations : list Call :=
  [SpaceOn "occupancyUpdate"; SpaceOn "speakerRequest";
   SpaceOn "idleTimeout"; ProcessOn "SIGINT"].

Definition isRegistration (call : Call) : bool :=
  match call with
  | SpaceOn _ | ProcessOn _ => true
  | _ => false
  end.

Definition isFiller (call : Call) : bool :=
  match call with
  | SpeakFiller _ _ => true
  | _ => false
  end.

(** joinSpace gets past its status test and joins as a listener. *)
Definition joinsAsListener (env : JoinEnv) (c : TwitterSpaceClient) : bool :=
  SpaceActivity_eqb (spaceStatus c) IDLE
  && resolves (join_joinAsListener env).

(** How the promotion to speaker ends, once the speaker request has
    been made: [Some true] when an acceptance for the session arrives in
    time and [becomeSpeaker] succeeds, [Some false] when the wait fails,
    [None] when the request itself failed. *)
Definition promotion (env : JoinEnv) : option bool :=
  match join_requestSpeaker env with
  | Resolves session =>
      Some (acceptedInTime session (join_wait env)
            && resolves (wait_becomeSpeaker (join_wait env)))
  | Rejects => None
  end.

Definition isPluginUse (call : Call) : bool :=
  match call with
  | ParticipantUseSttTts => true
  | _ => false
  end.

(** The topic list generateSpaceConfig draws from: the character's own
    topics, or the generated ones when it has none; [None] when the
    generation fails. *)
Definition topicsUsed (env : ConfigEnv) : option (list string) :=
  match cfg_topics env with
  | [] =>
      match cfg_generated env with
      | Resolves generated => Some generated
      | Rejects => None
      end
  | _ :: _ => Some (cfg_topics env)
  end.

(** A method that does nothing at all. *)
Definition nothing (c : TwitterSpaceClient) : Outcome unit :=
  {| calls := []; final := c; completion := Normal tt |}.

(** The routine gets to consider a launch. *)
Definition considersLaunch (c : TwitterSpaceClient) : bool :=
  SpaceActivity_eqb (spaceStatus c) IDLE
  && enableSpaceHosting (decisionOptions c).

(** The periodic routine with the timer that re-arms it (lines 93-133).
    The value returned is the delay given to [setTimeout]. *)
Definition intervalMsWhenIdle : Z := 5 * 60000.

Definition intervalMsWhenRunning : Z := 5000.

Definition routineThenTimeout (env : RoutineEnv) : M Z :=
  tryCatch
    (c <- this;;
     if SpaceActivity_eqb (spaceStatus c) IDLE then
       (if enableSpaceHosting (decisionOptions c) then
          launch <- shouldLaunchSpace (routine_now env);;
          if launch : bool then
            config <- generateSpaceConfig (routine_config env);;
            startSpace config (routine_start env)
          else ret tt
        else ret tt);;
       c <- this;;
       ret (if negb (SpaceActivity_eqb (spaceStatus c) IDLE)
            then intervalMsWhenRunning
            else intervalMsWhenIdle)
     else
       (if SpaceActivity_eqb (spaceStatus c) HOSTING
        then manageCurrentSpace (routine_manage env)
        else ret tt);;
       ret intervalMsWhenRunning)
    (fun error => logged;; ret intervalMsWhenIdle).

(** The test of lines 148-155 as a boolean. *)
Definition cooling (now : Z) (c : TwitterSpaceClient) : bool :=
  match lastSpaceEndedAt c with
  | Some ended =>
      Js.truthy_number ended
      && (now - ended <? minIntervalBetweenSpacesMinutesOf c * 60000)
  | None => false
  end.

(** Settings that enable hosting, and a routine whose every call
    succeeds, for a character with one topic. *)
Definition hostingEnabled : SpacesSettings :=
  {| src_maxSpeakers := None;
     src_typicalDurationMinutes := None;
     src_idleKickTimeoutMs := None;
     src_minIntervalBetweenSpacesMinutes := None;
     src_enableIdleMonitor := None;
     src_enableSpaceHosting := Some true;
     src_enableRecording := None;
     src_speakerMaxDurationMs := None |}.

Definition turnAt (now : Z) : RoutineEnv :=
  {| routine_now := now;
     routine_config := {| cfg_topics := ["Chat"%string];
                          cfg_generated := Rejects;
                          cfg_random := 1 # 2 |};
     routine_start := startsWell now;
     routine_manage := tickAt now [] [] |}.

(** * Properties *)

(** ** Running the monad *)

Lemma bind_prepend {A B : Type} (m : M A) (k : A -> M B)
  (c c' : TwitterSpaceClient) (t : list Call) (a : A) :
  m c = {| calls := t; final := c'; completion := Normal a |} ->
  bind m k c = prepend t (k a c').
Proof.
  unfold bind, prepend. intros ->. destruct (k a c'); reflexivity.
Qed.

Lemma prepend_nil {A : Type} (o : Outcome A) : prepend [] o = o.
Proof. destruct o; reflexivity. Qed.

Lemma prepend_prepend {A : Type} (t t' : list Call) (o : Outcome A) :
  prepend t (prepend t' o) = prepend (t ++ t') o.
Proof. unfold prepend; cbn. now rewrite app_assoc. Qed.

Lemma bind_this {B : Type} (k : TwitterSpaceClient -> M B)
  (c : TwitterSpaceClient) :
  bind this k c = k c c.
Proof. unfold bind, this. destruct (k c c); reflexivity. Qed.

Lemma bind_ret {A B : Type} (a : A) (k : A -> M B) (c : TwitterSpaceClient) :
  bind (ret a) k c = k a c.
Proof. unfold bind, ret. destruct (k a c); reflexivity. Qed.

Lemma bind_logged {B : Type} (k : unit -> M B) (c : TwitterSpaceClient) :
  bind logged k c = k tt c.
Proof. apply bind_ret. Qed.

Lemma bind_assign {B : Type} (f : TwitterSpaceClient -> TwitterSpaceClient)
  (k : unit -> M B) (c : TwitterSpaceClient) :
  bind (assign f) k c = k tt (f c).
Proof. unfold bind, assign. destruct (k tt (f c)); reflexivity. Qed.

Lemma bind_invoke {B : Type} (what : Call) (k : unit -> M B)
  (c : TwitterSpaceClient) :
  bind (invoke what) k c = prepend [what] (k tt c).
Proof. apply bind_prepend. reflexivity. Qed.

Lemma bind_speakFiller {B : Type} (kind : FillerKind) (delay : option Z)
  (k : unit -> M B) (c : TwitterSpaceClient) :
  bind (speakFiller kind delay) k c =
    prepend [SpeakFiller kind delay] (k tt c).
Proof. apply bind_invoke. Qed.

Lemma bind_await {A B : Type} (what : Call) (ans : Answer A)
  (k : A -> M B) (c : TwitterSpaceClient) :
  bind (await what ans) k c =
    match ans with
    | Resolves a => prepend [what] (k a c)
    | Rejects => {| calls := [what]; final := c;
                    completion := Thrown (CallFailed what) |}
    end.
Proof.
  destruct ans as [ | a].
  - reflexivity.
  - apply bind_prepend. reflexivity.
Qed.

Lemma bind_assoc {A B C : Type} (m : M A) (f : A -> M B) (g : B -> M C)
  (c : TwitterSpaceClient) :
  bind (bind m f) g c = bind m (fun a => bind (f a) g) c.
Proof.
  unfold bind. destruct (m c) as [t c' [a | e | ]]; try reflexivity.
  destruct (f a c') as [t' c'' [b | e | ]]; try reflexivity.
  - destruct (g b c''); cbn. now rewrite app_assoc.
Qed.

Lemma bind_thrown {A B : Type} (m : M A) (k : A -> M B)
  (c : TwitterSpaceClient) (e : Exn) :
  completion (m c) = Thrown e ->
  bind m k c =
    {| calls := calls (m c); final := final (m c); completion := Thrown e |}.
Proof.
  unfold bind. destruct (m c) as [t c' r]; cbn. intros ->. reflexivity.
Qed.

Lemma final_bind {A B : Type} (m : M A) (k : A -> M B)
  (c : TwitterSpaceClient) :
  final (bind m k c) =
    match completion (m c) with
    | Normal a => final (k a (final (m c)))
    | _ => final (m c)
    end.
Proof.
  unfold bind. destruct (m c) as [t c' [a | e | ]]; cbn; try reflexivity.
  destruct (k a c'); reflexivity.
Qed.

Lemma tryCatch_normal {A : Type} (m : M A) (h : Exn -> M A)
  (c : TwitterSpaceClient) (a : A) :
  completion (m c) = Normal a -> tryCatch m h c = m c.
Proof.
  unfold tryCatch. destruct (m c) as [t c' r]; cbn. intros ->. reflexivity.
Qed.

Lemma tryCatch_thrown {A : Type} (m : M A) (h : Exn -> M A)
  (c c' : TwitterSpaceClient) (t : list Call) (e : Exn) :
  m c = {| calls := t; final := c'; completion := Thrown e |} ->
  tryCatch m h c = prepend t (h e c').
Proof.
  unfold tryCatch, prepend. intros ->. destruct (h e c'); reflexivity.
Qed.

Lemma final_tryCatch_logged (m : M unit) (c : TwitterSpaceClient) :
  final (tryCatch m (fun _ => logged) c) = final (m c).
Proof.
  unfold tryCatch. destruct (m c) as [t c' [a | e | ]]; reflexivity.
Qed.

Lemma withAdmission_same c :
  withAdmission (activeSpeakers c) (speakerQueue c) c = c.
Proof. destruct c; reflexivity. Qed.

(** ** The constructor *)

(** C9, as stated, fails: a source [maxSpeakers] of 0 and a source
    [enableIdleMonitor] of [false] are falsy, yet they are used instead of
    the defaults 1 and [true], and the resolved [maxSpeakers] is below 1. *)
Lemma falsy_settings_override_defaults :
  falsyNumber (src_maxSpeakers zeroSpeakers) = true /\
  maxSpeakers (resolveDecisionOptions (Some zeroSpeakers)) = Some 0 /\
  falsyFlag (src_enableIdleMonitor zeroSpeakers) = true /\
  enableIdleMonitor (resolveDecisionOptions (Some zeroSpeakers)) = Some false /\
  enableIdleMonitor (resolveDecisionOptions None) = Some true /\
  ~ 1 <= maxSpeakersOf (newTwitterSpaceClient (Some zeroSpeakers)).
Proof.
  repeat split; try reflexivity.
  unfold maxSpeakersOf; simpl. lia.
Qed.

(** C9, amended: every field of the resolved options is defined; it is
    the source value whenever that value is present (0 and [false]
    included) and the default exactly when the source value is absent.
    The resolved [maxSpeakers] is at least 1 exactly when the source
    gives none or one that is at least 1. *)
Theorem resolveDecisionOptions_present_wins (settings : option SpacesSettings) :
  let src := Js.nullish settings emptySettings in
  let opts := resolveDecisionOptions settings in
  presentWins (src_maxSpeakers src) 1 (maxSpeakers opts) /\
  presentWins (src_typicalDurationMinutes src) 30
              (typicalDurationMinutes opts) /\
  presentWins (src_idleKickTimeoutMs src) 300000 (idleKickTimeoutMs opts) /\
  presentWins (src_minIntervalBetweenSpacesMinutes src) 60
              (minIntervalBetweenSpacesMinutes opts) /\
  presentWins (src_enableIdleMonitor src) true (enableIdleMonitor opts) /\
  presentWins (src_enableRecording src) true (enableRecording opts) /\
  presentWins (src_enableSpaceHosting src) false
              (Some (enableSpaceHosting opts)) /\
  presentWins (src_speakerMaxDurationMs src) 240000
              (speakerMaxDurationMs opts) /\
  (1 <= maxSpeakersOf (newTwitterSpaceClient settings) <->
   src_maxSpeakers src = None \/
   exists v, src_maxSpeakers src = Some v /\ 1 <= v).
Proof.
  intros src opts. subst src opts.
  destruct settings as [[ms td ik mi im sh rc sd] | ]; cbn.
  - unfold presentWins, maxSpeakersOf; cbn.
    repeat split;
      try (match goal with
           | |- match ?x with _ => _ end => destruct x as [[|]|]
           end; reflexivity);
      try (match goal with
           | |- match ?x with _ => _ end => destruct x
           end; reflexivity).
    + intros H. destruct ms as [v|]; [right; exists v; auto | left; auto].
    + intros [H | [v [H Hv]]]; subst; cbn; [lia | exact Hv].
  - unfold presentWins, maxSpeakersOf; cbn.
    repeat split; auto. lia.
Qed.

(** ** Stopping *)

Lemma stopSpace_run (env : StopEnv) (c : TwitterSpaceClient) :
  stopSpace env c =
    if nothingToStop c
    then {| calls := []; final := c; completion := Normal tt |}
    else {| calls := [SpaceStop];
            final := stopped (stop_now env) c;
            completion := Normal tt |}.
Proof.
  unfold nothingToStop, stopSpace. rewrite bind_this.
  destruct (negb (Js.defined (currentSpace c))
            || SpaceActivity_eqb (spaceStatus c) IDLE); [reflexivity | ].
  unfold tryFinally, tryCatch. rewrite bind_logged.
  unfold await, logged, ret.
  destruct (stop_close env) as [ | []]; cbn; destruct c; reflexivity.
Qed.

(** C2, as stated, fails: a client that joined a Space as a participant
    has no room handle, so [stopSpace] returns at once, twice in a row,
    and the status stays PARTICIPATING. *)
Lemma stopSpace_leaves_a_participant :
  let once := after (stopSpace (closesAt 10)) participating in
  let twice := after (stopSpace (closesAt 20)) once in
  currentSpace participating = None /\
  spaceStatus participating = PARTICIPATING /\
  spaceStatus once = PARTICIPATING /\
  spaceStatus twice = PARTICIPATING.
Proof.
  vm_compute. repeat split.
Qed.

(** C2, amended: [stopSpace] never throws.  When the status is IDLE or
    there is no room handle it is a no-op; otherwise it asks the room to
    close once and, whatever the room answers, sets the status to IDLE,
    clears [spaceId], [currentSpace] and [startedAt], sets
    [lastSpaceEndedAt] to the current time and empties [activeSpeakers]
    and [speakerQueue].  A second call in a row is always a no-op that
    leaves the client as the first call left it.  The status is IDLE after
    both calls exactly when the client had a room handle or was IDLE. *)
Theorem stopSpace_idempotent (first second : StopEnv)
  (c : TwitterSpaceClient) :
  let o1 := stopSpace first c in
  let o2 := stopSpace second (final o1) in
  completion o1 = Normal tt /\
  completion o2 = Normal tt /\
  (if nothingToStop c
   then final o1 = c /\ calls o1 = []
   else final o1 = stopped (stop_now first) c /\ calls o1 = [SpaceStop]) /\
  final o2 = final o1 /\
  calls o2 = [] /\
  (spaceStatus (final o2) = IDLE <->
   currentSpace c <> None \/ spaceStatus c = IDLE).
Proof.
  unfold nothingToStop, stopSpace, bind, this, tryFinally, tryCatch, await,
    assign, logged, ret.
  cbn.
  destruct c as [cs sid st le pl status sp act q opts]; cbn.
  destruct cs as [h | ]; destruct status; cbn;
    destruct (stop_close first) as [ | []]; cbn;
    repeat split; try reflexivity; try discriminate; auto;
    try (intros [H | H]; congruence); try (left; discriminate).
Qed.

(** ** Launch eligibility *)

Lemma shouldLaunchSpace_run (now : Z) (c : TwitterSpaceClient) :
  exists launch : bool,
    shouldLaunchSpace now c =
      {| calls := []; final := c; completion := Normal launch |}.
Proof.
  unfold shouldLaunchSpace. rewrite bind_this.
  destruct (lastSpaceEndedAt c) as [ended | ].
  - destruct (Js.truthy_number ended).
    + destruct (now - ended <? _); rewrite bind_logged; eexists; reflexivity.
    + rewrite bind_logged; eexists; reflexivity.
  - rewrite bind_logged; eexists; reflexivity.
Qed.

(** The guard of line 148 is the truthiness of the timestamp: a stop
    recorded at clock 0 would leave [lastSpaceEndedAt] defined and skip
    the cooldown all the same.  No clock reads 0. *)
Example cooldown_skipped_for_timestamp_zero :
  let c := after (stopSpace (closesAt 0)) (hostingSince 0) in
  lastSpaceEndedAt c = Some 0 /\
  1000 - 0 < minIntervalBetweenSpacesMinutesOf c * 60000 /\
  completion (shouldLaunchSpace 1000 c) = Normal true.
Proof.
  cbn zeta. split; [ | split]; vm_compute; reflexivity.
Qed.

(** On any client, [shouldLaunchSpace] returns [false] exactly when the
    cooldown is running on a timestamp other than 0, and [true]
    otherwise.  It changes nothing. *)
Lemma shouldLaunchSpace_tooSoon (now : Z) (c : TwitterSpaceClient) :
  (completion (shouldLaunchSpace now c) = Normal false <-> tooSoon now c) /\
  (completion (shouldLaunchSpace now c) = Normal true <-> ~ tooSoon now c) /\
  final (shouldLaunchSpace now c) = c.
Proof.
  unfold tooSoon, shouldLaunchSpace, bind, this, logged, ret; cbn.
  destruct (lastSpaceEndedAt c) as [ended | ] eqn:E; cbn.
  - unfold Js.truthy_number.
    destruct (Z.eqb_spec ended 0) as [Hz | Hnz]; cbn.
    + assert (N : ~ exists e, Some ended = Some e /\ e <> 0 /\
                    now - e < minIntervalBetweenSpacesMinutesOf c * 60000)
        by (intros [e [He [Hn _]]]; congruence).
      repeat split; try congruence; tauto.
    + destruct (Z.ltb_spec (now - ended)
                  (minIntervalBetweenSpacesMinutesOf c * 60000)) as [L | G];
        cbn.
      * assert (Y : exists e, Some ended = Some e /\ e <> 0 /\
                    now - e < minIntervalBetweenSpacesMinutesOf c * 60000)
          by (exists ended; auto).
        repeat split; try congruence; tauto.
      * assert (N : ~ exists e, Some ended = Some e /\ e <> 0 /\
                    now - e < minIntervalBetweenSpacesMinutesOf c * 60000)
          by (intros [e [He [_ Hlt]]]; inversion He; subst; lia).
        repeat split; try congruence; tauto.
  - assert (N : ~ exists e : Z, None = Some e /\ e <> 0 /\
                  now - e < minIntervalBetweenSpacesMinutesOf c * 60000)
      by (intros [e [He _]]; congruence).
    repeat split; try congruence; tauto.
Qed.

(** ** Admitting and removing one speaker *)

Lemma app_one_neq {A : Type} (l : list A) (x : A) : l ++ [x] <> l.
Proof.
  intros H. apply (f_equal (@List.length A)) in H.
  rewrite length_app in H. simpl in H. lia.
Qed.

Lemma acceptSpeaker_run (req : SpeakerRequest) (env : Admission)
  (c : TwitterSpaceClient) :
  acceptSpeaker req env c =
    {| calls := if Js.defined (currentSpace c) then [approvalOf req] else [];
       final :=
         withAdmission
           (activeSpeakers c ++
              if Js.defined (currentSpace c)
              then admittedOf (always env) [req] else [])
           (speakerQueue c) c;
       completion := Normal tt |}.
Proof.
  unfold acceptSpeaker, bind, this, tryCatch, await, assign, logged, ret,
    approvalOf, always.
  destruct c as [cs sid st le pl status sp act q opts]; cbn.
  destruct cs; cbn; [ | rewrite app_nil_r; reflexivity ].
  destruct (approveSpeaker env) as [ | []]; cbn;
    rewrite ?app_nil_r; reflexivity.
Qed.

Lemma removeSpeaker_run (user : string) (answer : Answer unit)
  (c : TwitterSpaceClient) :
  removeSpeaker user answer c =
    {| calls := if Js.defined (currentSpace c) then [RemoveSpeaker user]
                else [];
       final := c;
       completion := Normal tt |}.
Proof.
  unfold removeSpeaker, bind, this, tryCatch, await, logged, ret.
  destruct (currentSpace c); cbn; [ | reflexivity ].
  destruct answer as [ | []]; reflexivity.
Qed.

Lemma bind_removeSpeaker {B : Type} (user : string) (answer : Answer unit)
  (k : unit -> M B) (c : TwitterSpaceClient) :
  bind (removeSpeaker user answer) k c =
    prepend (if Js.defined (currentSpace c) then [RemoveSpeaker user] else [])
      (k tt c).
Proof. apply bind_prepend. apply removeSpeaker_run. Qed.

(** C10: [acceptSpeaker] never throws.  When [approveSpeaker] fails the
    client is left exactly as it was; the request is recorded, at the end
    of [activeSpeakers] and with [startTime] the time read after the
    approval, if and only if the approval succeeded (on a client that has
    a room handle). *)
Theorem acceptSpeaker_atomic (req : SpeakerRequest) (env : Admission)
  (c : TwitterSpaceClient) :
  let o := acceptSpeaker req env c in
  completion o = Normal tt /\
  match approveSpeaker env with
  | Rejects => final o = c
  | Resolves _ =>
      final o =
        if Js.defined (currentSpace c)
        then set_activeSpeakers
               (activeSpeakers c ++ [admitted req (admittedAt env)]) c
        else c
  end /\
  (activeSpeakers (final o) =
     activeSpeakers c ++ [admitted req (admittedAt env)] <->
   approveSpeaker env = Resolves tt /\ currentSpace c <> None).
Proof.
  unfold acceptSpeaker, bind, this, tryCatch, await, assign, logged, ret.
  cbn.
  destruct (currentSpace c) as [sp | ] eqn:E; cbn;
    destruct (approveSpeaker env) as [ | []] eqn:A; cbn;
    (split; [reflexivity | split; [reflexivity | ]]).
  - split.
    + intros H. symmetry in H. now apply app_one_neq in H.
    + intros [H _]. discriminate.
  - split; [ | reflexivity ]. intros _. split; [reflexivity | discriminate].
  - split.
    + intros H. symmetry in H. now apply app_one_neq in H.
    + intros [H _]. discriminate.
  - split.
    + intros H. symmetry in H. now apply app_one_neq in H.
    + intros [_ H]. congruence.
Qed.

(** ** Waiting for the promotion *)

(** Once the handler is unregistered, no event changes anything. *)
Lemma emit_unregistered (session : string) (answer : Answer unit)
  (evts : list string) (w : Wait) :
  registered w = false ->
  fold_left (emit session answer) evts w = w.
Proof.
  intros U. induction evts as [ | e evts IH]; cbn; [reflexivity | ].
  unfold emit at 2. rewrite U. exact IH.
Qed.

(** Events before the timer: the first one for [session] runs the
    handler to its end, the others are ignored. *)
Lemma emit_before (session : string) (answer : Answer unit)
  (evts : list string) (w : Wait) :
  registered w = true ->
  settlement w = None ->
  fold_left (emit session answer) evts w =
    if existsb (fun evt => String.eqb evt session) evts
    then {| resolved := true;
            registered := false;
            settlement := Some match answer with
                               | Resolves _ => Fulfilled
                               | Rejects =>
                                   RejectedWith (CallFailed BecomeSpeaker)
                               end;
            wait_calls := wait_calls w ++
              [ParticipantOff newSpeakerAccepted; BecomeSpeaker] |}
    else w.
Proof.
  intros R S. induction evts as [ | e evts IH]; cbn; [reflexivity | ].
  unfold emit at 2. rewrite R. unfold handler.
  destruct (String.eqb e session); cbn.
  - rewrite emit_unregistered.
    + destruct answer; unfold settle; cbn; rewrite S; reflexivity.
    + destruct answer; unfold settle; cbn; rewrite S; reflexivity.
  - exact IH.
Qed.

(** The closure at the end of the wait. *)
Lemma waiting_end (session : string) (timeoutMs : Z) (env : WaitEnv) :
  waiting session timeoutMs env =
    {| resolved := acceptedInTime session env;
       registered := false;
       settlement :=
         Some (if acceptedInTime session env
               then becomeSpeakerResult env
               else RejectedWith (ApprovalTimeout timeoutMs));
       wait_calls :=
         ParticipantOn newSpeakerAccepted ::
         ParticipantOff newSpeakerAccepted ::
         (if acceptedInTime session env then [BecomeSpeaker] else []) |}.
Proof.
  unfold waiting, acceptedInTime, becomeSpeakerResult.
  rewrite (@emit_before session (wait_becomeSpeaker env) (wait_before env));
    [ | reflexivity | reflexivity ].
  destruct (existsb (fun evt => String.eqb evt session) (wait_before env));
    cbn; rewrite emit_unregistered by reflexivity; reflexivity.
Qed.

(** C7: whatever the participant emits, the promise of [waitForApproval]
    is settled.  If an event for the awaited session arrives before the
    timer, the promise takes the outcome of [becomeSpeaker] (fulfilled, or
    rejected with its failure); otherwise it is rejected with the timeout
    error.  In both cases the handler ends unregistered and [off] is
    called exactly once. *)
Theorem waitForApproval_settles (session : string) (timeoutMs : Z)
  (env : WaitEnv) (c : TwitterSpaceClient) :
  let w := waiting session timeoutMs env in
  let o := waitForApproval session timeoutMs env c in
  settlement w =
    Some (if acceptedInTime session env
          then becomeSpeakerResult env
          else RejectedWith (ApprovalTimeout timeoutMs)) /\
  completion o =
    (if acceptedInTime session env
     then match wait_becomeSpeaker env with
          | Resolves _ => Normal tt
          | Rejects => Thrown (CallFailed BecomeSpeaker)
          end
     else Thrown (ApprovalTimeout timeoutMs)) /\
  final o = c /\
  registered w = false /\
  calls o = wait_calls w /\
  wait_calls w =
    ParticipantOn newSpeakerAccepted ::
    ParticipantOff newSpeakerAccepted ::
    (if acceptedInTime session env then [BecomeSpeaker] else []) /\
  List.length (filter isOff (wait_calls w)) = 1%nat.
Proof.
  cbn zeta. unfold waitForApproval. cbn [calls final completion].
  rewrite waiting_end. cbn [settlement registered wait_calls].
  unfold becomeSpeakerResult.
  destruct (acceptedInTime session env);
    destruct (wait_becomeSpeaker env) as [ | []]; repeat split.
Qed.

(** ** Joining *)

(** C8, as stated, fails: when the promotion times out, [joinSpace] does
    cancel the request once, but it then returns the Space id as for a
    successful join; the failure does not reach the caller. *)
Lemma joinSpace_returns_the_id_after_a_timeout :
  let c := newTwitterSpaceClient None in
  let o := joinSpace "room" joinsAndTimesOut c in
  completion (waitForApproval "s" 15000 (join_wait joinsAndTimesOut) c) =
    Thrown (ApprovalTimeout 15000) /\
  filter isCancel (calls o) = [CancelSpeakerRequest] /\
  completion o = Normal (ReturnsSpaceId "room").
Proof.
  vm_compute. repeat split.
Qed.

Lemma joinSpace_failed_wait (id session : string) (wenv : WaitEnv)
  (cancel : Answer unit) (e : Exn) (c : TwitterSpaceClient) :
  spaceStatus c = IDLE ->
  settlement (waiting session 15000 wenv) = Some (RejectedWith e) ->
  joinSpace id {| join_joinAsListener := Resolves tt;
                  join_requestSpeaker := Resolves session;
                  join_wait := wenv;
                  join_cancelSpeakerRequest := cancel |} c =
  {| calls := [JoinAsListener id; RequestSpeaker]
              ++ wait_calls (waiting session 15000 wenv)
              ++ [CancelSpeakerRequest];
     final := set_spaceStatus PARTICIPATING
                (set_spaceParticipant (Some NewSpaceParticipant) c);
     completion := Normal (ReturnsSpaceId id) |}.
Proof.
  intros I S.
  destruct c as [cs sid st le pl status sp act q opts].
  cbn in I. subst status.
  unfold joinSpace, bind, this, tryCatch, await, assign, logged, ret,
      invoke, waitForApproval.
  destruct sp as [[] | ]; cbn; rewrite S; cbn;
    destruct cancel as [ | []]; cbn;
    rewrite ?app_nil_r; reflexivity.
Qed.

(** C8, amended: when the client is IDLE, the join and the speaker
    request succeed and the promotion wait fails (timeout or
    [becomeSpeaker] failure), [joinSpace] calls [cancelSpeakerRequest]
    exactly once, after the wait; whether or not the cancellation
    succeeds, nothing is thrown: [joinSpace] returns the Space id and the
    client stays PARTICIPATING. *)
Theorem joinSpace_cancels_once (id session : string) (wenv : WaitEnv)
  (cancel : Answer unit) (e : Exn) (c : TwitterSpaceClient) :
  spaceStatus c = IDLE ->
  settlement (waiting session 15000 wenv) = Some (RejectedWith e) ->
  let env := {| join_joinAsListener := Resolves tt;
                join_requestSpeaker := Resolves session;
                join_wait := wenv;
                join_cancelSpeakerRequest := cancel |} in
  let o := joinSpace id env c in
  calls o =
    [JoinAsListener id; RequestSpeaker]
    ++ wait_calls (waiting session 15000 wenv)
    ++ [CancelSpeakerRequest] /\
  filter isCancel (calls o) = [CancelSpeakerRequest] /\
  completion o = Normal (ReturnsSpaceId id) /\
  spaceStatus (final o) = PARTICIPATING.
Proof.
  intros I S. cbn zeta.
  rewrite (@joinSpace_failed_wait id session wenv cancel e c I S).
  cbn [calls final completion].
  repeat split.
  rewrite waiting_end. cbn.
  destruct (acceptedInTime session wenv); reflexivity.
Qed.

(** The amended C8 at a promotion that times out while the cancellation
    fails too. *)
Lemma joinSpace_cancels_once_witness :
  let c := newTwitterSpaceClient None in
  let wenv := join_wait joinsAndTimesOut in
  let o := joinSpace "room"
             {| join_joinAsListener := Resolves tt;
                join_requestSpeaker := Resolves "s"%string;
                join_wait := wenv;
                join_cancelSpeakerRequest := Rejects |} c in
  spaceStatus c = IDLE /\
  settlement (waiting "s" 15000 wenv) =
    Some (RejectedWith (ApprovalTimeout 15000)) /\
  filter isCancel (calls o) = [CancelSpeakerRequest] /\
  completion o = Normal (ReturnsSpaceId "room") /\
  spaceStatus (final o) = PARTICIPATING.
Proof.
  cbn zeta.
  split; [reflexivity | split; [reflexivity | ]].
  apply (@joinSpace_cancels_once "room" "s" (join_wait joinsAndTimesOut)
           Rejects (ApprovalTimeout 15000) (newTwitterSpaceClient None));
    reflexivity.
Defined.

Lemma joinSpace_final (id : string) (env : JoinEnv) (c : TwitterSpaceClient) :
  let c' := after (joinSpace id env) c in
  currentSpace c' = currentSpace c /\
  spaceId c' = spaceId c /\
  startedAt c' = startedAt c /\
  (spaceStatus c' = spaceStatus c \/
   spaceStatus c = IDLE /\ spaceStatus c' = PARTICIPATING).
Proof.
  unfold after, joinSpace, bind, tryCatch, await, assign, logged, ret,
    invoke, this, waitForApproval.
  destruct c as [cs sid st le pl status sp act q opts].
  destruct env as [[ | []] [ | session] wenv [ | []]];
    destruct status; destruct sp as [[] | ];
    cbn -[waiting]; rewrite ?waiting_end; cbn -[acceptedInTime];
    try (destruct (acceptedInTime session wenv); cbn;
         unfold becomeSpeakerResult;
         try (destruct (wait_becomeSpeaker wenv) as [ | []]; cbn));
    repeat split; auto.
Qed.

(** ** The queue drain *)

Lemma acceptLoop_step (fuel : nat) (ms : Z) (env : nat -> Admission)
  (c : TwitterSpaceClient) :
  acceptLoop (S fuel) ms env c =
    if (0 <? Js.len (speakerQueue c)) && (Js.len (activeSpeakers c) <? ms)
    then
      match speakerQueue c with
      | nextReq :: rest =>
          prepend
            (SpeakFiller PRE_ACCEPT None ::
             if Js.defined (currentSpace c) then [approvalOf nextReq] else [])
            (acceptLoop fuel ms (next env)
               (withAdmission
                  (activeSpeakers c ++
                     if Js.defined (currentSpace c)
                     then admittedOf (always (env 0%nat)) [nextReq] else [])
                  rest c))
      | [] => acceptLoop fuel ms env c
      end
    else {| calls := []; final := c; completion := Normal tt |}.
Proof.
  cbn [acceptLoop].
  rewrite (@bind_prepend _ _ this _ c c [] c eq_refl), prepend_nil.
  destruct ((0 <? Js.len (speakerQueue c))
            && (Js.len (activeSpeakers c) <? ms)); [ | reflexivity ].
  destruct (speakerQueue c) as [ | r rest]; [reflexivity | ].
  rewrite (@bind_prepend _ _ (assign (set_speakerQueue rest)) _ c
             (set_speakerQueue rest c) [] tt eq_refl), prepend_nil.
  rewrite (@bind_prepend _ _ (speakFiller PRE_ACCEPT None) _
             (set_speakerQueue rest c) (set_speakerQueue rest c)
             [SpeakFiller PRE_ACCEPT None] tt eq_refl).
  rewrite (@bind_prepend _ _ (acceptSpeaker r (env 0%nat)) _
             (set_speakerQueue rest c) _ _ tt
             (acceptSpeaker_run r (env 0%nat) (set_speakerQueue rest c))).
  rewrite prepend_prepend. reflexivity.
Qed.

(** The drain takes a prefix of the queue, in order, submits each request
    of it for approval, and stops when the queue is empty or the local
    speakers have reached [ms]. *)
Lemma acceptLoop_run (fuel : nat) :
  forall (ms : Z) (env : nat -> Admission) (c : TwitterSpaceClient),
  (List.length (speakerQueue c) <= fuel)%nat ->
  exists k : nat,
    (k <= List.length (speakerQueue c))%nat /\
    acceptLoop fuel ms env c =
      {| calls := drainCalls (Js.defined (currentSpace c))
                    (firstn k (speakerQueue c));
         final :=
           withAdmission
             (activeSpeakers c ++
                if Js.defined (currentSpace c)
                then admittedOf env (firstn k (speakerQueue c)) else [])
             (skipn k (speakerQueue c)) c;
         completion := Normal tt |} /\
    (skipn k (speakerQueue c) = [] \/
     ms <= Js.len (activeSpeakers c ++
                     if Js.defined (currentSpace c)
                     then admittedOf env (firstn k (speakerQueue c))
                     else [])) /\
    Js.len (activeSpeakers c ++
              if Js.defined (currentSpace c)
              then admittedOf env (firstn k (speakerQueue c)) else [])
    <= Z.max (Js.len (activeSpeakers c)) ms.
Proof.
  induction fuel as [ | fuel IH]; intros ms env c L.
  - exists 0%nat. destruct c as [cs sid st le pl status sp act q opts].
    cbn in *. destruct q; [ | cbn in L; lia ].
    destruct cs; cbn; rewrite app_nil_r; repeat split; auto; lia.
  - rewrite acceptLoop_step.
    destruct ((0 <? Js.len (speakerQueue c))
              && (Js.len (activeSpeakers c) <? ms)) eqn:Cond.
    + destruct (speakerQueue c) as [ | r rest] eqn:Q.
      { cbn in Cond. discriminate. }
      apply andb_prop in Cond. destruct Cond as [_ Room].
      apply Z.ltb_lt in Room.
      specialize (IH ms (next env)
                    (withAdmission
                       (activeSpeakers c ++
                          if Js.defined (currentSpace c)
                          then admittedOf (always (env 0%nat)) [r] else [])
                       rest c)).
      destruct IH as [k [Hk [Run [Exit Bound]]]].
      { destruct c; cbn in *. lia. }
      exists (S k). split.
      { destruct c; cbn in *. lia. }
      rewrite Run. clear Run.
      destruct c as [cs sid st le pl status sp act q opts]; cbn in *.
      subst q. unfold always in *. cbn in *.
      destruct cs as [h | ]; cbn in *.
      * rewrite app_nil_r in *. rewrite <- app_assoc in *.
        split; [reflexivity | ].
        split; [exact Exit | ].
        unfold Js.len in *.
        destruct (approveSpeaker (env 0%nat)) as [ | []]; cbn in *;
          rewrite ?length_app in *; cbn in *; lia.
      * rewrite app_nil_r in *.
        split; [reflexivity | ].
        split; [exact Exit | ].
        unfold Js.len in *. rewrite ?length_app in *. cbn in *. lia.
    + exists 0%nat. split; [lia | ].
      destruct c as [cs sid st le pl status sp act q opts]; cbn in *.
      assert (E : act ++ (if Js.defined cs then [] else []) = act)
        by (destruct cs; cbn; apply app_nil_r).
      rewrite E. split; [reflexivity | ].
      split; [ | lia].
      apply andb_false_iff in Cond. destruct Cond as [C0 | C1].
      * left. apply Z.ltb_ge in C0. unfold Js.len in C0.
        destruct q; [reflexivity | cbn in C0; lia].
      * right. apply Z.ltb_ge in C1. exact C1.
Qed.

Lemma acceptSpeakersFromQueueIfNeeded_run (env : nat -> Admission)
  (c : TwitterSpaceClient) :
  exists k : nat,
    (k <= List.length (speakerQueue c))%nat /\
    acceptSpeakersFromQueueIfNeeded env c =
      {| calls := drainCalls (Js.defined (currentSpace c))
                    (firstn k (speakerQueue c));
         final :=
           withAdmission
             (activeSpeakers c ++
                if Js.defined (currentSpace c)
                then admittedOf env (firstn k (speakerQueue c)) else [])
             (skipn k (speakerQueue c)) c;
         completion := Normal tt |} /\
    (skipn k (speakerQueue c) = [] \/
     maxSpeakersOf c
     <= Js.len (activeSpeakers c ++
                  if Js.defined (currentSpace c)
                  then admittedOf env (firstn k (speakerQueue c))
                  else [])) /\
    Js.len (activeSpeakers c ++
              if Js.defined (currentSpace c)
              then admittedOf env (firstn k (speakerQueue c)) else [])
    <= Z.max (Js.len (activeSpeakers c)) (maxSpeakersOf c).
Proof.
  unfold acceptSpeakersFromQueueIfNeeded. rewrite bind_this.
  apply acceptLoop_run. lia.
Qed.

(** ** Speaker requests and the order of the queue *)

Lemma handleSpeakerRequest_run (req : SpeakerRequest) (env : RequestEnv)
  (c : TwitterSpaceClient) :
  handleSpeakerRequest req env c =
    if negb (Js.truthy_opt Js.truthy_string (spaceId c))
       || negb (Js.defined (currentSpace c))
    then {| calls := []; final := c; completion := Normal tt |}
    else
      let query := GetAudioSpaceById (Js.nullish (spaceId c) EmptyString) in
      match request_audioSpace env with
      | Rejects => {| calls := [query]; final := c;
                      completion := Thrown (CallFailed query) |}
      | Resolves room =>
          if Js.len (janusSpeakersOf room) <? maxSpeakersOf c
          then {| calls := [query; SpeakFiller PRE_ACCEPT None;
                            approvalOf req];
                  final := withAdmission
                             (activeSpeakers c ++
                                admittedOf (always (request_admission env))
                                  [req])
                             (speakerQueue c) c;
                  completion := Normal tt |}
          else {| calls := [query];
                  final := withAdmission (activeSpeakers c)
                             (speakerQueue c ++ [req]) c;
                  completion := Normal tt |}
      end.
Proof.
  unfold handleSpeakerRequest. rewrite bind_this.
  destruct (negb (Js.truthy_opt Js.truthy_string (spaceId c))
            || negb (Js.defined (currentSpace c))) eqn:G; [reflexivity | ].
  apply orb_false_elim in G. destruct G as [_ G].
  apply negb_false_iff in G.
  rewrite bind_await. cbn zeta.
  destruct (request_audioSpace env) as [ | room]; [reflexivity | ].
  destruct (Js.len (janusSpeakersOf room) <? maxSpeakersOf c).
  - rewrite bind_logged, bind_speakFiller, acceptSpeaker_run, G.
    reflexivity.
  - rewrite bind_logged. unfold assign, prepend; cbn.
    destruct c; reflexivity.
Qed.

Lemma speakersReported_janus (audioSpace : option AudioSpace) :
  speakersReported audioSpace = Js.len (janusSpeakersOf audioSpace).
Proof.
  unfold speakersReported, janusSpeakersOf.
  destruct audioSpace as [a | ]; [ | reflexivity].
  destruct (participants a) as [parts | ]; [ | reflexivity].
  destruct (speakers parts); reflexivity.
Qed.




(** ** Evictions *)

Lemma noStop_app (t t' : list Call) : noStop t -> noStop t' -> noStop (t ++ t').
Proof.
  unfold noStop. intros H H'. rewrite existsb_app, H, H'. reflexivity.
Qed.

Lemma noStop_not_In (t : list Call) : noStop t -> ~ In SpaceStop t.
Proof.
  unfold noStop. intros H I.
  assert (E : existsb isSpaceStop t = true)
    by (apply existsb_exists; exists SpaceStop; auto).
  congruence.
Qed.

Lemma noStop_drainCalls (hasSpace : bool) (taken : list SpeakerRequest) :
  noStop (drainCalls hasSpace taken).
Proof.
  unfold noStop, drainCalls.
  induction taken as [ | r taken IH]; cbn; [reflexivity | ].
  rewrite existsb_app, IH. destruct hasSpace; reflexivity.
Qed.

Lemma splice1_length {A : Type} (i : nat) (l : list A) :
  (List.length (Js.splice1 i l) <= List.length l)%nat.
Proof.
  unfold Js.splice1. rewrite length_app, length_firstn, length_skipn. lia.
Qed.

Lemma splice1_length_lt {A : Type} (i : nat) (l : list A) :
  (i < List.length l)%nat ->
  List.length (Js.splice1 i l) = (List.length l - 1)%nat.
Proof.
  intros H. unfold Js.splice1.
  rewrite length_app, length_firstn, length_skipn. lia.
Qed.

Lemma evictLoop_run (n : nat) :
  forall (maxDur now : Z) (answers : nat -> Answer unit)
         (c : TwitterSpaceClient),
  (n <= List.length (activeSpeakers c))%nat ->
  exists (t : list Call) (act' : list CurrentSpeakerState),
    evictLoop n maxDur now answers c =
      {| calls := t;
         final := withAdmission act' (speakerQueue c) c;
         completion := Normal tt |} /\
    noStop t /\
    (List.length act' <= List.length (activeSpeakers c))%nat.
Proof.
  induction n as [ | i IH]; intros maxDur now answers c L.
  - exists [], (activeSpeakers c). cbn. rewrite withAdmission_same.
    repeat split. lia.
  - cbn [evictLoop]. rewrite bind_this.
    destruct (nth_error (activeSpeakers c) i) as [speaker | ] eqn:N.
    2:{ apply nth_error_None in N. lia. }
    destruct (maxDur <? now - startTime speaker).
    + rewrite bind_logged, bind_removeSpeaker, bind_assign, bind_speakFiller.
      destruct (IH maxDur now (next answers)
                  (set_activeSpeakers (Js.splice1 i (activeSpeakers c)) c))
        as [t [act' [Run [Quiet Len]]]].
      { destruct c; cbn in *. rewrite splice1_length_lt; lia. }
      rewrite Run. unfold prepend; cbn [calls final completion].
      eexists _, act'. split; [ | split].
      * reflexivity.
      * apply noStop_app.
        -- destruct (Js.defined (currentSpace c)); reflexivity.
        -- exact Quiet.
      * destruct c; cbn in *.
        pose proof (splice1_length i activeSpeakers0). lia.
    + destruct (IH maxDur now answers c) as [t [act' [Run [Quiet Len]]]];
        [lia | ].
      exists t, act'. auto.
Qed.

Lemma evictExpiredSpeakers_run (now : Z) (answers : nat -> Answer unit)
  (c : TwitterSpaceClient) :
  exists (t : list Call) (act' : list CurrentSpeakerState),
    evictExpiredSpeakers now answers c =
      {| calls := t;
         final := withAdmission act' (speakerQueue c) c;
         completion := Normal tt |} /\
    noStop t /\
    (List.length act' <= List.length (activeSpeakers c))%nat.
Proof.
  unfold evictExpiredSpeakers. rewrite bind_this.
  apply evictLoop_run. lia.
Qed.

Lemma kickLoop_run (extras : list RoomUser) :
  forall (answers : nat -> Answer unit) (c : TwitterSpaceClient),
  exists (t : list Call) (act' : list CurrentSpeakerState),
    kickLoop extras answers c =
      {| calls := t;
         final := withAdmission act' (speakerQueue c) c;
         completion := Normal tt |} /\
    noStop t /\
    (List.length act' <= List.length (activeSpeakers c))%nat.
Proof.
  induction extras as [ | sp more IH]; intros answers c.
  - exists [], (activeSpeakers c). cbn. rewrite withAdmission_same.
    repeat split. lia.
  - cbn [kickLoop]. rewrite bind_logged, bind_removeSpeaker, bind_this.
    destruct (Js.findIndex
                (fun s => String.eqb (userId s) (user_id sp))
                (activeSpeakers c)) as [idx | ].
    + rewrite bind_assign.
      destruct (IH (next answers)
                  (set_activeSpeakers (Js.splice1 idx (activeSpeakers c)) c))
        as [t [act' [Run [Quiet Len]]]].
      rewrite Run. unfold prepend; cbn [calls final completion].
      eexists _, act'. split; [ | split].
      * reflexivity.
      * apply noStop_app.
        -- destruct (Js.defined (currentSpace c)); reflexivity.
        -- exact Quiet.
      * destruct c; cbn in *.
        pose proof (splice1_length idx activeSpeakers0). lia.
    + rewrite bind_ret.
      destruct (IH (next answers) c) as [t [act' [Run [Quiet Len]]]].
      rewrite Run. unfold prepend; cbn [calls final completion].
      eexists _, act'. split; [reflexivity | split].
      * apply noStop_app.
        -- destruct (Js.defined (currentSpace c)); reflexivity.
        -- exact Quiet.
      * exact Len.
Qed.

Lemma kickExtraSpeakers_run (roomSpeakers : option (list RoomUser))
  (answers : nat -> Answer unit) (c : TwitterSpaceClient) :
  exists (t : list Call) (act' : list CurrentSpeakerState),
    noStop t /\
    (List.length act' <= List.length (activeSpeakers c))%nat /\
    ((currentSpace c <> None -> roomSpeakers <> None) /\
     kickExtraSpeakers roomSpeakers answers c =
       {| calls := t;
          final := withAdmission act' (speakerQueue c) c;
          completion := Normal tt |}
     \/
     currentSpace c <> None /\ roomSpeakers = None /\
     kickExtraSpeakers roomSpeakers answers c =
       {| calls := []; final := c; completion := Thrown TypeError |}).
Proof.
  unfold kickExtraSpeakers. rewrite bind_this.
  destruct (currentSpace c) eqn:E; cbn [Js.defined negb].
  - destruct roomSpeakers as [l | ].
    + destruct (kickLoop_run (Js.slice_from (maxSpeakersOf c) l) answers c)
        as [t [act' [Run [Quiet Len]]]].
      exists t, act'. split; [exact Quiet | split; [exact Len | ]].
      left. split; [discriminate | exact Run].
    + exists [], (activeSpeakers c).
      split; [reflexivity | split; [lia | ]].
      right. repeat split. discriminate.
  - exists [], (activeSpeakers c).
    split; [reflexivity | split; [lia | ]].
    left. split; [congruence | ].
    unfold ret. now rewrite withAdmission_same.
Qed.

(** ** The management tick *)

(** Steps 1 and 2 of the tick, before any continuation [k]. *)
Lemma evict_then_drain {B : Type} (now : Z) (answers : nat -> Answer unit)
  (env : nat -> Admission) (k : unit -> M B) (c : TwitterSpaceClient) :
  exists (t : list Call) (act' : list CurrentSpeakerState)
         (q' : list SpeakerRequest),
    bind (evictExpiredSpeakers now answers)
      (fun _ => bind (acceptSpeakersFromQueueIfNeeded env) k) c =
      prepend t (k tt (withAdmission act' q' c)) /\
    noStop t /\
    Js.len act' <= Z.max (Js.len (activeSpeakers c)) (maxSpeakersOf c).
Proof.
  destruct (evictExpiredSpeakers_run now answers c)
    as [t1 [act1 [Run1 [Quiet1 Len1]]]].
  rewrite (@bind_prepend _ _ _ _ _ _ _ _ Run1).
  set (c1 := withAdmission act1 (speakerQueue c) c).
  destruct (acceptSpeakersFromQueueIfNeeded_run env c1)
    as [n [Hn [Run2 [_ Bound]]]].
  rewrite (@bind_prepend _ _ _ _ _ _ _ _ Run2), prepend_prepend.
  eexists _, _, _. split; [reflexivity | split].
  - apply noStop_app; [exact Quiet1 | apply noStop_drainCalls].
  - subst c1. destruct c; cbn in *. unfold maxSpeakersOf in *; cbn in *.
    unfold Js.len in *. lia.
Qed.

Lemma manageCurrentSpace_run (env : ManageEnv) (c : TwitterSpaceClient) :
  exists (t : list Call) (act' : list CurrentSpeakerState)
         (q' : list SpeakerRequest),
    noStop t /\
    Js.len act' <= Z.max (Js.len (activeSpeakers c)) (maxSpeakersOf c) /\
    manageCurrentSpace env c =
      if reachesClosingStep env c && closingDue env c
      then prepend (t ++ [SpeakFiller CLOSING (Some 4000)])
             (stopSpace (manage_stop env) (withAdmission act' q' c))
      else {| calls := t;
              final := withAdmission act' q' c;
              completion := Normal tt |}.
Proof.
  unfold manageCurrentSpace, reachesClosingStep, closingDue,
    reportedParticipants.
  rewrite bind_this.
  destruct (Js.truthy_opt Js.truthy_string (spaceId c)) eqn:Id;
    cbn [negb orb andb].
  2:{ exists [], (activeSpeakers c), (speakerQueue c).
      rewrite withAdmission_same.
      split; [reflexivity | split; [lia | reflexivity]]. }
  destruct (currentSpace c) as [h | ] eqn:Sp; cbn [Js.defined negb andb].
  2:{ exists [], (activeSpeakers c), (speakerQueue c).
      rewrite withAdmission_same.
      split; [reflexivity | split; [lia | reflexivity]]. }
  set (query := GetAudioSpaceById (Js.nullish (spaceId c) EmptyString)).
  destruct (manage_audioSpace env) as [ | [a | ]] eqn:Ans.
  - exists [query], (activeSpeakers c), (speakerQueue c).
    rewrite withAdmission_same.
    split; [reflexivity | split; [lia | ]].
    erewrite tryCatch_thrown; [ | rewrite bind_await; reflexivity ].
    reflexivity.
  - destruct (participants a) as [parts | ] eqn:Parts.
    + match goal with
      | |- context [tryCatch ?m ?h c] => set (body := m)
      end.
      assert (Body : exists (t : list Call) (act' : list CurrentSpeakerState)
                            (q' : list SpeakerRequest),
                 noStop t /\
                 Js.len act'
                 <= Z.max (Js.len (activeSpeakers c)) (maxSpeakersOf c) /\
                 ((Js.defined (speakers parts) || (0 <=? maxSpeakersOf c)
                   = true /\
                   body c =
                    (if closingCondition
                          (elapsedMinutesAt (manage_now env) c)
                          (typicalDurationMinutesOf c)
                          (lengthOrZero (speakers parts))
                          (lengthOrZero (listeners parts))
                     then prepend (t ++ [SpeakFiller CLOSING (Some 4000)])
                            (stopSpace (manage_stop env)
                               (withAdmission act' q' c))
                     else {| calls := t;
                             final := withAdmission act' q' c;
                             completion := Normal tt |}))
                  \/
                  (speakers parts = None /\ maxSpeakersOf c < 0 /\
                   body c = {| calls := t;
                               final := withAdmission act' q' c;
                               completion := Thrown TypeError |}))).
      { subst body. rewrite bind_await. rewrite Parts.
        match goal with
        | |- context [bind (evictExpiredSpeakers ?n ?an)
                        (fun _ => bind (acceptSpeakersFromQueueIfNeeded ?e)
                                    ?k) ?c0] =>
            destruct (evict_then_drain n an e k c0)
              as [t [act2 [q2 [Run [Quiet Bound]]]]]
        end.
        rewrite Run. clear Run. rewrite bind_this.
        replace (maxSpeakersOf (withAdmission act2 q2 c))
          with (maxSpeakersOf c) by (destruct c; reflexivity).
        match goal with
        | |- context [bind (if _ then _ else _) ?k _] => set (tail := k)
        end.
        assert (Tail : forall act3 q3,
                   tail tt (withAdmission act3 q3 c) =
                     if closingCondition
                          (elapsedMinutesAt (manage_now env) c)
                          (typicalDurationMinutesOf c)
                          (lengthOrZero (speakers parts))
                          (lengthOrZero (listeners parts))
                     then prepend [SpeakFiller CLOSING (Some 4000)]
                            (stopSpace (manage_stop env)
                               (withAdmission act3 q3 c))
                     else {| calls := [];
                             final := withAdmission act3 q3 c;
                             completion := Normal tt |}).
        { intros act3 q3. subst tail. cbn beta. rewrite bind_this.
          replace (elapsedMinutesAt (manage_now env)
                     (withAdmission act3 q3 c))
            with (elapsedMinutesAt (manage_now env) c)
            by (destruct c; reflexivity).
          replace (typicalDurationMinutesOf (withAdmission act3 q3 c))
            with (typicalDurationMinutesOf c) by (destruct c; reflexivity).
          destruct (closingCondition _ _ _ _); [ | reflexivity ].
          rewrite bind_logged, bind_speakFiller. reflexivity. }
        clearbody tail.
        destruct (maxSpeakersOf c <? lengthOrZero (speakers parts)) eqn:K.
        - rewrite bind_assoc, bind_logged.
          destruct (kickExtraSpeakers_run (speakers parts) (manage_kicks env)
                      (withAdmission act2 q2 c))
            as [t3 [act3 [Q3 [L3 [[Some3 Run3] | [_ [None3 Run3]]]]]]].
          + rewrite (@bind_prepend _ _ _ _ _ _ _ _ Run3).
            exists ([query] ++ t ++ t3), act3, q2.
            split; [ | split].
            * apply noStop_app; [reflexivity | now apply noStop_app].
            * destruct c; cbn in *. unfold Js.len in *. lia.
            * left. split.
              { destruct (speakers parts); [reflexivity | ].
                exfalso. apply Some3; [ | reflexivity].
                destruct c; cbn in *. congruence. }
              replace (withAdmission act3
                         (speakerQueue (withAdmission act2 q2 c))
                         (withAdmission act2 q2 c))
                with (withAdmission act3 q2 c) by (destruct c; reflexivity).
              rewrite Tail.
              destruct (closingCondition _ _ _ _);
                unfold prepend; cbn [calls final completion];
                rewrite ?app_nil_r, <- ?app_assoc; reflexivity.
          + exists ([query] ++ t), act2, q2.
            split; [ | split].
            * apply noStop_app; [reflexivity | assumption].
            * exact Bound.
            * right. split; [exact None3 | split].
              -- rewrite None3 in K. cbn in K. lia.
              -- rewrite (@bind_thrown _ _ _ _ _ TypeError)
                   by (rewrite Run3; reflexivity).
                 rewrite Run3. unfold prepend; cbn [calls final completion].
                 rewrite app_nil_r. reflexivity.
        - rewrite bind_ret, Tail.
          exists ([query] ++ t), act2, q2.
          split; [ | split].
          + apply noStop_app; [reflexivity | assumption].
          + exact Bound.
          + left. split.
            { apply Z.ltb_ge in K.
              assert (0 <= lengthOrZero (speakers parts))
                by (destruct (speakers parts); cbn; unfold Js.len; lia).
              apply orb_true_iff. right. apply Z.leb_le. lia. }
            destruct (closingCondition _ _ _ _);
              unfold prepend; cbn [calls final completion];
              rewrite ?app_nil_r, <- ?app_assoc; reflexivity. }
      destruct Body as [t [act' [q' [Quiet [Bound [[Reach Run] | Fail]]]]]].
      * exists t, act', q'. split; [exact Quiet | split; [exact Bound | ]].
        rewrite Reach. cbn [andb].
        rewrite (@tryCatch_normal _ body _ c tt); [exact Run | ].
        rewrite Run. destruct (closingCondition _ _ _ _); [ | reflexivity ].
        rewrite stopSpace_run. destruct (nothingToStop _); reflexivity.
      * destruct Fail as [None3 [Neg Run]].
        exists t, act', q'. split; [exact Quiet | split; [exact Bound | ]].
        rewrite None3. cbn [Js.defined orb].
        destruct (Z.leb_spec 0 (maxSpeakersOf c)); [lia | ]. cbn [andb].
        rewrite (@tryCatch_thrown _ _ (fun _ => logged) _ _ _ _ Run).
        unfold prepend, logged, ret; cbn.
        rewrite app_nil_r. reflexivity.
    + exists [query], (activeSpeakers c), (speakerQueue c).
      rewrite withAdmission_same.
      split; [reflexivity | split; [lia | ]].
      erewrite tryCatch_thrown;
        [ | rewrite bind_await, Parts; reflexivity ].
      reflexivity.
  - exists [query], (activeSpeakers c), (speakerQueue c).
    rewrite withAdmission_same.
    split; [reflexivity | split; [lia | ]].
    erewrite tryCatch_thrown; [ | rewrite bind_await; reflexivity ].
    reflexivity.
Qed.

Lemma Qltb_lt (a b : Q) : Js.Qltb a b = true <-> (a < b)%Q.
Proof.
  unfold Js.Qltb. rewrite negb_true_iff.
  split.
  - intros H. apply Qnot_le_lt. intros L.
    apply Qle_bool_iff in L. congruence.
  - intros H. destruct (Qle_bool b a) eqn:E; [ | reflexivity ].
    apply Qle_bool_iff in E. apply Qlt_not_le in H. contradiction.
Qed.

Lemma closingCondition_due (elapsedMinutes : Q)
  (typical numSpeakers totalListeners : Z) :
  closingCondition elapsedMinutes typical numSpeakers totalListeners = true
  <->
  (inject_Z typical < elapsedMinutes)%Q \/
  (numSpeakers = 0 /\ totalListeners = 0 /\
   (inject_Z 5 < elapsedMinutes)%Q).
Proof.
  unfold closingCondition.
  rewrite orb_true_iff, !andb_true_iff, !Qltb_lt, !Z.eqb_eq. tauto.
Qed.

Lemma minutes_exceeded (t x : Z) :
  (inject_Z t < inject_Z x / inject_Z 60000)%Q <-> t * 60000 < x.
Proof.
  unfold Qlt, Qdiv, Qmult, Qinv, inject_Z. cbn. lia.
Qed.

Lemma lengthOrZero_nobody (l : option (list RoomUser)) :
  lengthOrZero l = 0 <-> reportsNobody l.
Proof.
  unfold reportsNobody, lengthOrZero, Js.len.
  destruct l as [[ | x r] | ]; cbn; split; intros H; auto;
    try discriminate; destruct H; discriminate.
Qed.

(** C5, as stated, fails: the whole tick sits in one [try], and the
    auto-close test comes last in it.  A Space opened with the default
    settings is 150 minutes old, well over its 30 typical minutes; the
    room query of the tick fails, and the tick ends without stopping the
    Space. *)
Lemma unanswered_tick_leaves_the_space_open :
  let c := hostingSince 0 in
  let o := manageCurrentSpace (unansweredTickAt 9000000) c in
  spaceStatus c = HOSTING /\
  startedAt c = Some 0 /\
  typicalDurationMinutes (decisionOptions c) = Some 30 /\
  30 * 60000 < 9000000 - 0 /\
  calls o = [GetAudioSpaceById "room"] /\
  ~ In SpaceStop (calls o) /\
  spaceStatus (final o) = HOSTING.
Proof.
  cbn zeta.
  repeat (split; [vm_compute; reflexivity | ]).
  split; [ | vm_compute; reflexivity].
  vm_compute. intros [H | []]. discriminate.
Qed.

(** C5, amended: on a client that hosts a Space opened at [started],
    a tick never throws.  When the room answers it with its participants
    (and the capacity trim does not fail on an absent speaker list),
    [manageCurrentSpace] closes the room and turns IDLE if and only if
    the session is older than [typicalDurationMinutes], or the room
    reports no speaker and no listener and the session is older than 5
    minutes.  When the room query fails, or its answer has no
    participants, the tick closes nothing, however old the session. *)
Theorem manageCurrentSpace_auto_close (env : ManageEnv)
  (c : TwitterSpaceClient) (started typical : Z) :
  hosting c ->
  startedAt c = Some started ->
  typicalDurationMinutes (decisionOptions c) = Some typical ->
  let o := manageCurrentSpace env c in
  completion o = Normal tt /\
  match reportedParticipants env with
  | Some parts =>
      (speakers parts = None ->
       forall ms : Z, maxSpeakers (decisionOptions c) = Some ms -> 0 <= ms) ->
      let due := autoCloseDue (manage_now env - started) typical parts in
      (In SpaceStop (calls o) <-> due) /\
      (spaceStatus (final o) = IDLE <-> due) /\
      (final o = stopped (stop_now (manage_stop env)) c <-> due)
  | None =>
      ~ In SpaceStop (calls o) /\ spaceStatus (final o) = HOSTING
  end.
Proof.
  intros [Hs [Hc Hi]] St Ty. cbn zeta.
  destruct (manageCurrentSpace_run env c)
    as [t [act' [q' [Quiet [Bound Run]]]]].
  assert (N : nothingToStop (withAdmission act' q' c) = false).
  { unfold nothingToStop. destruct c; cbn in *. subst.
    destruct currentSpace0; [reflexivity | congruence]. }
  split.
  { rewrite Run. destruct (_ && _); [ | reflexivity].
    rewrite stopSpace_run, N. reflexivity. }
  destruct (reportedParticipants env) as [parts | ] eqn:Rep.
  - intros Trim. cbn zeta.
    assert (El : elapsedMinutesAt (manage_now env) c ==
                 inject_Z (manage_now env - started) / inject_Z 60000).
    { unfold elapsedMinutesAt. rewrite St. unfold Js.truthy_number.
      destruct (Z.eqb_spec started 0) as [-> | _]; reflexivity. }
    assert (Due : closingDue env c = true <->
                  autoCloseDue (manage_now env - started) typical parts).
    { unfold closingDue, autoCloseDue. rewrite Rep.
      rewrite closingCondition_due, !El, !minutes_exceeded,
        !lengthOrZero_nobody.
      unfold typicalDurationMinutesOf. rewrite Ty. cbn [Js.nullish].
      reflexivity. }
    rewrite <- Due. clear Due El.
    rewrite Run. clear Run.
    assert (Reach : reachesClosingStep env c = true).
    { unfold reachesClosingStep. rewrite Hi, Rep.
      destruct (currentSpace c); [ | congruence ]. cbn.
      destruct (speakers parts); [reflexivity | ].
      cbn. apply Z.leb_le. unfold maxSpeakersOf.
      destruct (maxSpeakers (decisionOptions c)) as [ms | ] eqn:Ms; cbn;
        [apply (Trim eq_refl ms eq_refl) | lia]. }
    rewrite Reach. cbn [andb].
    destruct (closingDue env c).
    + rewrite stopSpace_run, N. unfold prepend; cbn [calls final completion].
      split; [ | split].
      * split; [reflexivity | ]. intros _.
        apply in_or_app. right. left. reflexivity.
      * split; reflexivity.
      * split; [reflexivity | ]. intros _. destruct c; reflexivity.
    + cbn [calls final completion].
      split; [ | split].
      * split; [ | discriminate ]. intros I.
        now apply noStop_not_In in I.
      * split; [ | discriminate ]. intros I.
        destruct c; cbn in *. congruence.
      * split; [ | discriminate ]. intros I.
        apply (f_equal spaceStatus) in I.
        destruct c; cbn in *. congruence.
  - rewrite Run. unfold reachesClosingStep. rewrite Rep.
    rewrite !andb_false_r. cbn [andb calls final].
    split; [now apply noStop_not_In | ].
    destruct c; cbn in *. exact Hs.
Qed.

(** The amended C5 with the default settings, one listener and four
    minutes elapsed: nothing is due, and the tick leaves the room
    open. *)
Lemma manageCurrentSpace_auto_close_witness :
  let c := hostingSince 0 in
  let env := tickAt 240000 [] [listener] in
  let parts := {| speakers := Some []; listeners := Some [listener] |} in
  let o := manageCurrentSpace env c in
  let due := autoCloseDue (240000 - 0) 30 parts in
  hosting c /\
  startedAt c = Some 0 /\
  typicalDurationMinutes (decisionOptions c) = Some 30 /\
  reportedParticipants env = Some parts /\
  completion o = Normal tt /\
  (In SpaceStop (calls o) <-> due) /\
  (spaceStatus (final o) = IDLE <-> due) /\
  (final o = stopped (stop_now (manage_stop env)) c <-> due) /\
  ~ due /\
  spaceStatus (final o) = HOSTING.
Proof.
  cbn zeta.
  assert (H1 : hosting (hostingSince 0))
    by (repeat split; discriminate).
  assert (H2 : startedAt (hostingSince 0) = Some 0) by reflexivity.
  assert (H3 : typicalDurationMinutes (decisionOptions (hostingSince 0))
               = Some 30) by reflexivity.
  assert (H4 : reportedParticipants (tickAt 240000 [] [listener]) =
               Some {| speakers := Some []; listeners := Some [listener] |})
    by reflexivity.
  pose proof (@manageCurrentSpace_auto_close
                (tickAt 240000 [] [listener]) (hostingSince 0) 0 30
                H1 H2 H3) as T.
  cbn zeta in T. destruct T as [T1 T].
  rewrite H4 in T.
  destruct (T ltac:(discriminate)) as [T2 [T3 T4]].
  repeat (split; [assumption | ]).
  split; [ | vm_compute; reflexivity].
  unfold autoCloseDue, reportsNobody. cbn.
  intros [L | [_ [[L | L] _]]]; [lia | discriminate | discriminate].
Defined.

(** The scenarios of the specification, run on the default settings. *)
Example tick_after_31_minutes_closes :
  spaceStatus (after (manageCurrentSpace (tickAt 1860001 [listener] []))
                 (hostingSince 0)) = IDLE.
Proof. vm_compute. reflexivity. Qed.

Example tick_in_empty_room_after_5_minutes_closes :
  spaceStatus (after (manageCurrentSpace (tickAt 300001 [] []))
                 (hostingSince 0)) = IDLE.
Proof. vm_compute. reflexivity. Qed.

Example tick_in_empty_room_at_5_minutes_stays :
  spaceStatus (after (manageCurrentSpace (tickAt 300000 [] []))
                 (hostingSince 0)) = HOSTING.
Proof. vm_compute. reflexivity. Qed.

(** ** Capacity *)

(** C1, as stated, fails: [handleSpeakerRequest] compares the speaker
    count reported by the room, not [activeSpeakers.length], with
    [maxSpeakers].  With [maxSpeakers] = 1 and a room that reports no
    speaker twice, two requests handled one after the other are both
    admitted. *)
Lemma two_requests_exceed_maxSpeakers :
  let c := hostingSince 0 in
  let c1 := after (handleSpeakerRequest alice (requestInEmptyRoom 1)) c in
  let c2 := after (handleSpeakerRequest bob (requestInEmptyRoom 2)) c1 in
  withinCapacity c /\
  maxSpeakers (decisionOptions c) = Some 1 /\
  List.length (activeSpeakers c1) = 1%nat /\
  List.length (activeSpeakers c2) = 2%nat /\
  maxSpeakers (decisionOptions c2) = Some 1 /\
  ~ withinCapacity c2.
Proof.
  cbn zeta. split; [ | split; [ | split; [ | split; [ | split]]]].
  - exists 1. split; [reflexivity | vm_compute; discriminate].
  - vm_compute. reflexivity.
  - vm_compute. reflexivity.
  - vm_compute. reflexivity.
  - vm_compute. reflexivity.
  - intros [ms [E L]]. vm_compute in E. injection E as <-.
    vm_compute in L. apply L. reflexivity.
Qed.

Lemma keepsCapacity_same (c : TwitterSpaceClient) (z t : Z)
  (p' : option Suspended) :
  flying p' <= z ->
  (forall q : Suspended, p' = Some q -> carries (maxSpeakersOf c) q) ->
  keepsCapacity c z t (c, p').
Proof.
  intros F C. split; [reflexivity | split; [exact C | left; lia]].
Qed.

Lemma stopSpaceStarts_capacity (c : TwitterSpaceClient) (z t : Z) :
  0 <= z -> keepsCapacity c z t (stopSpaceStarts c).
Proof.
  intros Z0. unfold stopSpaceStarts.
  destruct (_ || _); apply keepsCapacity_same; cbn; try lia;
    intros q E; inversion E; exact I.
Qed.

Lemma closingStarts_capacity (f : TickFrame) (c : TwitterSpaceClient)
  (z t : Z) :
  0 <= z -> keepsCapacity c z t (closingStarts f c).
Proof.
  intros Z0. unfold closingStarts.
  destruct (closingCondition _ _ _ _); apply keepsCapacity_same; cbn;
    try lia; intros q E; inversion E; exact I.
Qed.

Lemma kickFrom_capacity (f : TickFrame) (extras : list RoomUser)
  (c c' : TwitterSpaceClient) (z t : Z) :
  0 <= z ->
  decisionOptions c' = decisionOptions c ->
  Js.len (activeSpeakers c') <= Js.len (activeSpeakers c) ->
  keepsCapacity c z t (kickFrom f extras c').
Proof.
  intros Z0 D L. unfold kickFrom.
  destruct extras as [ | sp more]; cbn;
    (split; [exact D | split; [intros q E; inversion E; exact I | ]]);
    left; cbn; lia.
Qed.

Lemma trimStarts_capacity (f : TickFrame) (c : TwitterSpaceClient)
  (z t : Z) :
  0 <= z -> keepsCapacity c z t (trimStarts f c).
Proof.
  intros Z0. unfold trimStarts.
  destruct (_ <? _); [ | now apply closingStarts_capacity].
  destruct (negb _).
  - apply keepsCapacity_same; cbn; try lia.
    intros q E; inversion E; exact I.
  - destruct (tick_speakers f) as [l | ].
    + apply kickFrom_capacity; [exact Z0 | reflexivity | lia].
    + apply keepsCapacity_same; cbn; try lia. discriminate.
Qed.

(** The test of the drain either leaves the loop or lets the head of
    the queue through, on [activeSpeakers.length < ms]. *)
Lemma drainTest_capacity (f : TickFrame) (c : TwitterSpaceClient) :
  keepsCapacity c 0 (Js.len (activeSpeakers c))
    (drainTest f (maxSpeakersOf c) c).
Proof.
  unfold drainTest.
  destruct (speakerQueue c) as [ | nextReq rest] eqn:Q.
  - apply keepsCapacity_same; cbn; try lia.
    intros q E; inversion E; exact I.
  - destruct (Z.ltb_spec (Js.len (activeSpeakers c)) (maxSpeakersOf c))
      as [Lt | Ge].
    + split; [destruct c; reflexivity | split].
      * intros q E. inversion E. reflexivity.
      * right. cbn. repeat split; try lia.
    + apply keepsCapacity_same; cbn; try lia.
      intros q E; inversion E; exact I.
Qed.

Lemma evictFrom_capacity (f : TickFrame) (n : nat) (c : TwitterSpaceClient) :
  keepsCapacity c 0 (Js.len (activeSpeakers c)) (evictFrom f n c).
Proof.
  induction n as [ | i IH]; cbn [evictFrom].
  - apply drainTest_capacity.
  - destruct (nth_error (activeSpeakers c) i) as [speaker | ].
    + destruct (_ <? _); [ | exact IH].
      apply keepsCapacity_same; cbn; try lia.
      intros q E; inversion E; exact I.
    + apply keepsCapacity_same; cbn; try lia. discriminate.
Qed.

Lemma approvalSettles_capacity (req : SpeakerRequest) (s : Settled)
  (c : TwitterSpaceClient) :
  decisionOptions (approvalSettles req s c) = decisionOptions c /\
  Js.len (activeSpeakers (approvalSettles req s c))
  <= Js.len (activeSpeakers c) + 1.
Proof.
  unfold approvalSettles.
  destruct (settled_approval s); split; try reflexivity; try lia;
    destruct c; cbn; try reflexivity.
  unfold Js.len. rewrite length_app. cbn. lia.
Qed.

(** Every stretch of code keeps the capacity. *)
Lemma resume_capacity (p : Suspended) (s : Settled) (c : TwitterSpaceClient) :
  carries (maxSpeakersOf c) p ->
  keepsCapacity c (flying (Some p)) (countRead p s c) (resume p s c).
Proof.
  intros C.
  destruct p as [req | req | req | | f i | f i | f | f | | f ms req
                 | f ms req | f ms | f sp more | | | | | ];
    cbn [resume flying inFlight countRead carries] in *.
  - (* the room answers a request *)
    destruct (settled_room s) as [ | audioSpace].
    + apply keepsCapacity_same; cbn; try lia. discriminate.
    + rewrite speakersReported_janus.
      destruct (Z.ltb_spec (Js.len (janusSpeakersOf audioSpace))
                  (maxSpeakersOf c)) as [Lt | Ge].
      * split; [reflexivity | split].
        -- intros q E. inversion E. exact I.
        -- right. cbn. repeat split; try lia.
      * split; [destruct c; reflexivity | split; [discriminate | ]].
        left. cbn. destruct c; cbn. lia.
  - destruct (negb _); apply keepsCapacity_same; cbn; try lia;
      intros q E; inversion E; exact I.
  - destruct (approvalSettles_capacity req s c) as [D L].
    split; [exact D | split; [discriminate | ]].
    left. cbn. lia.
  - (* the room answers the tick *)
    destruct (settled_room s) as [ | [a | ]];
      try (apply keepsCapacity_same; cbn; try lia; discriminate).
    destruct (participants a) as [parts | ];
      [ | apply keepsCapacity_same; cbn; try lia; discriminate].
    apply evictFrom_capacity.
  - split; [destruct c; reflexivity | split].
    + intros q E. inversion E. exact I.
    + left. cbn.
      pose proof (splice1_length i (activeSpeakers c)).
      destruct c; cbn in *. unfold Js.len. lia.
  - apply evictFrom_capacity.
  - apply trimStarts_capacity. lia.
  - apply closingStarts_capacity. lia.
  - apply stopSpaceStarts_capacity. lia.
  - destruct (negb _); apply keepsCapacity_same; cbn; try lia;
      intros q E; inversion E; exact C.
  - destruct (approvalSettles_capacity req s c) as [D L].
    split; [exact D | split].
    + intros q E. inversion E. exact C.
    + left. cbn. lia.
  - subst ms. apply drainTest_capacity.
  - apply kickFrom_capacity; [lia | | ].
    + destruct (Js.findIndex _ _); destruct c; reflexivity.
    + destruct (Js.findIndex _ _) as [idx | ]; [ | lia].
      pose proof (splice1_length idx (activeSpeakers c)).
      destruct c; cbn in *. unfold Js.len. lia.
  - apply stopSpaceStarts_capacity. lia.
  - split; [destruct c; reflexivity | split; [discriminate | ]].
    left. cbn. destruct c; cbn. unfold Js.len. cbn. lia.
  - destruct (settled_initialize s) as [ | broadcastInfo].
    + split; [destruct c; reflexivity | split; [discriminate | ]].
      left. cbn. destruct c; cbn. lia.
    + split; [ | split; [intros q E; inversion E; exact I | ]].
      * unfold startSpaceInitialized.
        destruct (_ && _); destruct c; reflexivity.
      * left. unfold startSpaceInitialized.
        destruct (_ && _); destruct c; cbn; lia.
  - destruct (settled_sendTweet s) as [ | []].
    + split; [destruct c; reflexivity | split; [discriminate | ]].
      left. cbn. destruct c; cbn. lia.
    + apply keepsCapacity_same; cbn; try lia.
      intros q E; inversion E; exact I.
  - apply keepsCapacity_same; cbn; try lia. discriminate.
Qed.

Lemma admissionsInFlight_split (c : TwitterSpaceClient)
  (l1 l2 : list Suspended) (p : option Suspended) :
  admissionsInFlight
    {| client := c; suspended := l1 ++ stillSuspended p ++ l2 |} =
  Js.len (filter inFlight l1) + flying p + Js.len (filter inFlight l2).
Proof.
  unfold admissionsInFlight, Js.len. cbn [suspended].
  rewrite !filter_app, !length_app, !Nat2Z.inj_add.
  destruct p as [p' | ]; cbn [stillSuspended filter flying];
    [destruct (inFlight p') | ]; cbn [List.length]; lia.
Qed.

Lemma called_capacity (seg : Segment) (e : Engine) :
  capacityKept e ->
  decisionOptions (fst seg) = decisionOptions (client e) ->
  Js.len (activeSpeakers (fst seg)) <= Js.len (activeSpeakers (client e)) ->
  flying (snd seg) = 0 ->
  (forall q : Suspended,
     snd seg = Some q -> carries (maxSpeakersOf (client e)) q) ->
  capacityKept (called seg e).
Proof.
  intros [K W] D L Quiet C. destruct seg as [c' p']. cbn in *.
  assert (M : maxSpeakersOf c' = maxSpeakersOf (client e))
    by (unfold maxSpeakersOf; now rewrite D).
  unfold called, capacityKept. cbn [client suspended]. rewrite M.
  split.
  - replace (suspended e ++ stillSuspended p')
      with (suspended e ++ stillSuspended p' ++ []) by now rewrite app_nil_r.
    rewrite admissionsInFlight_split. unfold admissionsInFlight in K.
    cbn. unfold Js.len in *. lia.
  - apply Forall_app. split; [exact W | ].
    destruct p' as [q | ]; constructor; [ | constructor]. now apply C.
Qed.

Lemma called_settings (seg : Segment) (e : Engine) :
  decisionOptions (fst seg) = decisionOptions (client e) ->
  decisionOptions (client (called seg e)) = decisionOptions (client e).
Proof. destruct seg as [c' p']. exact (fun D => D). Qed.

(** One event keeps the settings and, when it is accounted for, the
    invariant. *)
Lemma engineStep_capacity (ev : Event) (e : Engine) :
  capacityKept e ->
  accounted ev e ->
  capacityKept (engineStep ev e) /\
  decisionOptions (client (engineStep ev e)) = decisionOptions (client e).
Proof.
  intros K A.
  destruct ev as [req | | | now | i s]; cbn [engineStep].
  - split; [apply called_capacity | apply called_settings]; try exact K;
      unfold requestStarts; destruct (_ || _); cbn; try reflexivity;
      try lia; intros q E; inversion E; exact I.
  - split; [apply called_capacity | apply called_settings]; try exact K;
      unfold tickStarts; destruct (_ || _); cbn; try reflexivity;
      try lia; intros q E; inversion E; exact I.
  - split; [apply called_capacity | apply called_settings]; try exact K;
      cbn; try reflexivity; try lia.
    intros q E; inversion E; exact I.
  - split; [apply called_capacity | apply called_settings]; try exact K;
      cbn; try reflexivity.
    + unfold Js.len. cbn. lia.
    + intros q E; inversion E; exact I.
  - unfold accounted, countTested in A. cbn [engineStep] in A.
    destruct (nth_error (suspended e) i) as [p | ] eqn:N;
      [ | split; [exact K | reflexivity]].
    destruct K as [K W].
    destruct (nth_error_split _ _ N) as [l1 [l2 [Split Len]]].
    assert (F : firstn i (suspended e) = l1).
    { rewrite Split, <- Len. rewrite firstn_app, Nat.sub_diag, firstn_all.
      cbn. apply app_nil_r. }
    assert (S2 : skipn (S i) (suspended e) = l2).
    { rewrite Split, <- Len.
      change (l1 ++ p :: l2) with (l1 ++ [p] ++ l2).
      rewrite app_assoc.
      replace (S (List.length l1)) with (List.length (l1 ++ [p]))
        by (rewrite length_app; cbn; lia).
      now rewrite skipn_app, Nat.sub_diag, skipn_all. }
    rewrite F, S2 in *.
    assert (C : carries (maxSpeakersOf (client e)) p).
    { rewrite Split in W. apply Forall_app in W. destruct W as [_ W].
      now inversion W. }
    pose proof (@resume_capacity p s (client e) C) as R.
    destruct (resume p s (client e)) as [c' p'].
    destruct R as [D [C' Cap]].
    assert (M : maxSpeakersOf c' = maxSpeakersOf (client e))
      by (unfold maxSpeakersOf; now rewrite D).
    assert (Before : admissionsInFlight e =
                     Js.len (filter inFlight l1) + flying (Some p)
                     + Js.len (filter inFlight l2)).
    { replace e with {| client := client e;
                        suspended := l1 ++ stillSuspended (Some p) ++ l2 |}
        at 1 by (destruct e; cbn in *; now subst).
      apply admissionsInFlight_split. }
    rewrite admissionsInFlight_split in A.
    unfold capacityKept. cbn [client suspended].
    rewrite admissionsInFlight_split, M.
    fold (Js.len (activeSpeakers (client e))) in A.
    split; [split | exact D].
    + destruct Cap as [Le | [F1 [F0 [Act T]]]]; [lia | ].
      rewrite Act. lia.
    + rewrite Split in W. apply Forall_app in W. destruct W as [W1 W2].
      inversion W2; subst.
      apply Forall_app. split; [exact W1 | ].
      apply Forall_app. split; [ | assumption].
      destruct p' as [q | ]; constructor; [ | constructor]. now apply C'.
Qed.

Lemma enginesAfter_capacity (evs : list Event) :
  forall e : Engine,
  capacityKept e ->
  accountedAlong evs e ->
  Forall (fun e' => capacityKept e' /\
                    decisionOptions (client e') = decisionOptions (client e))
    (enginesAfter evs e).
Proof.
  induction evs as [ | ev evs IH]; intros e K A; cbn.
  - constructor.
  - destruct A as [A0 A].
    destruct (engineStep_capacity K A0) as [K' D].
    constructor; [split; assumption | ].
    eapply Forall_impl; [ | apply IH; assumption].
    cbn beta. intros e' [K'' D']. split; [exact K'' | congruence].
Qed.

(** C1, amended: take a client whose [activeSpeakers.length] is at most
    [maxSpeakers], with no invocation suspended, and any run of the
    admission engine: speaker requests, management ticks (duration
    eviction, admission from the queue, capacity trim, auto-close), idle
    timeouts and openings, interleaved at their awaits in any order.
    Suppose that every step that lets a request through a capacity test
    read a count (the speakers the room reports, at line 391; the length
    of [activeSpeakers], at line 370) at least as large as the speakers
    recorded plus the admissions in flight.  Then
    [activeSpeakers.length <= maxSpeakers] holds after every step of the
    run. *)
Theorem activeSpeakers_within_maxSpeakers (evs : list Event)
  (c : TwitterSpaceClient) :
  withinCapacity c ->
  accountedAlong evs (idleEngine c) ->
  Forall (fun e => withinCapacity (client e))
    (enginesAfter evs (idleEngine c)).
Proof.
  intros [ms [Ms W]] A.
  assert (M : maxSpeakersOf c = ms)
    by (unfold maxSpeakersOf; rewrite Ms; reflexivity).
  assert (K : capacityKept (idleEngine c)).
  { split; [ | constructor].
    unfold admissionsInFlight.
    cbn [idleEngine client suspended filter List.length].
    unfold Js.len. lia. }
  pose proof (enginesAfter_capacity evs K A) as F.
  eapply Forall_impl; [ | exact F].
  cbn beta. intros e [[Cap _] D]. cbn [idleEngine client] in D.
  exists ms. split; [rewrite D; exact Ms | ].
  assert (0 <= admissionsInFlight e)
    by (unfold admissionsInFlight; lia).
  assert (M' : maxSpeakersOf (client e) = ms)
    by (unfold maxSpeakersOf; rewrite D, Ms; reflexivity).
  unfold Js.len in Cap. lia.
Qed.

(** The amended C1 on a hosted Space with the default settings, one
    slot: carol is let through; alice asks while carol's approval is
    still awaited and is queued, and so is bob; a tick five minutes later
    evicts carol and admits alice from the queue.  The bound holds after
    every step. *)
Lemma activeSpeakers_within_maxSpeakers_witness :
  let c := hostingSince 0 in
  withinCapacity c /\
  accountedAlong eveningRun (idleEngine c) /\
  Forall (fun e => withinCapacity (client e))
    (enginesAfter eveningRun (idleEngine c)) /\
  map (fun e => (List.length (activeSpeakers (client e)),
                 List.length (speakerQueue (client e)),
                 List.length (suspended e)))
    (enginesAfter eveningRun (idleEngine c))
  = [(0, 0, 1); (0, 0, 1); (0, 0, 1); (0, 0, 2); (0, 1, 1); (1, 1, 0);
     (1, 1, 1); (1, 2, 0); (1, 2, 1); (1, 2, 1); (0, 2, 1); (0, 1, 1);
     (0, 1, 1); (1, 1, 1); (1, 1, 1); (1, 1, 0)]%nat.
Proof.
  cbn zeta.
  assert (W : withinCapacity (hostingSince 0))
    by (exists 1; split; [reflexivity | vm_compute; discriminate]).
  assert (A : accountedAlong eveningRun (idleEngine (hostingSince 0))).
  { vm_compute. repeat split; intros; congruence. }
  split; [exact W | ].
  split; [exact A | ].
  split; [exact (@activeSpeakers_within_maxSpeakers eveningRun
                   (hostingSince 0) W A) | ].
  vm_compute. reflexivity.
Defined.

(** Why the admissions in flight are counted: in [overlappingRun] the
    room reports, at both tests, as many speakers as the client has
    recorded, none; the second test is not accounted for, since alice is
    in flight, and the run ends with two speakers for one slot. *)
Example overlapping_requests_exceed_maxSpeakers :
  let c := hostingSince 0 in
  let ends := engineAfter overlappingRun (idleEngine c) in
  withinCapacity c /\
  maxSpeakers (decisionOptions c) = Some 1 /\
  ~ accountedAlong overlappingRun (idleEngine c) /\
  map userId (activeSpeakers (client ends)) = ["1"; "2"]%string /\
  suspended ends = [] /\
  ~ withinCapacity (client ends).
Proof.
  cbn zeta. split; [ | split; [ | split; [ | split; [ | split]]]].
  - exists 1. split; [reflexivity | vm_compute; discriminate].
  - vm_compute. reflexivity.
  - intros A. vm_compute in A.
    destruct A as [_ [_ [_ [A _]]]]. apply A; reflexivity.
  - vm_compute. reflexivity.
  - vm_compute. reflexivity.
  - intros [ms [E L]]. vm_compute in E. injection E as <-.
    vm_compute in L. apply L. reflexivity.
Qed.

(** ** The session markers *)

Lemma startSpace_final (config : SpaceConfig) (env : StartEnv)
  (c : TwitterSpaceClient) :
  let c' := after (startSpace config env) c in
  (spaceStatus c' = HOSTING /\ currentSpace c' <> None /\
   spaceId c' <> None /\ startedAt c' = Some (start_now env))
  \/ spaceStatus c' = IDLE.
Proof.
  unfold after, startSpace, bind, tryCatch, await, assign, logged, ret,
    invoke, speakFiller, this, throw.
  destruct c as [cs sid st le pl status sp act q opts].
  destruct env as [now [ | b] tts tr [ | []]]; cbn.
  - right. reflexivity.
  - right. reflexivity.
  - destruct (tts && tr); cbn;
      destruct (enableIdleMonitor opts) as [[ | ] | ]; cbn;
      right; reflexivity.
  - destruct (tts && tr); cbn;
      destruct (enableIdleMonitor opts) as [[ | ] | ]; cbn;
      left; repeat split; discriminate.
Qed.

Lemma generateSpaceConfig_final (env : ConfigEnv) (c : TwitterSpaceClient) :
  final (generateSpaceConfig env c) = c.
Proof.
  unfold generateSpaceConfig, bind, await, this, ret.
  destruct (List.length (cfg_topics env) =? 0)%nat; cbn;
    [destruct (cfg_generated env); reflexivity | reflexivity].
Qed.

(** One turn of the routine does nothing, starts a Space, or manages the
    current one. *)
Lemma routine_final (env : RoutineEnv) (c : TwitterSpaceClient) :
  after (routine env) c = c \/
  (exists config, after (routine env) c =
                    after (startSpace config (routine_start env)) c) \/
  after (routine env) c = after (manageCurrentSpace (routine_manage env)) c.
Proof.
  unfold after, routine. rewrite final_tryCatch_logged, bind_this.
  destruct (SpaceActivity_eqb (spaceStatus c) IDLE).
  - destruct (enableSpaceHosting (decisionOptions c)); [ | left; reflexivity].
    destruct (shouldLaunchSpace_run (routine_now env) c) as [launch Run].
    rewrite (@bind_prepend _ _ _ _ _ _ _ _ Run), prepend_nil.
    destruct launch; [ | left; reflexivity].
    rewrite final_bind, generateSpaceConfig_final.
    destruct (completion (generateSpaceConfig (routine_config env) c))
      as [config | e | ].
    + right. left. exists config. reflexivity.
    + left. reflexivity.
    + left. reflexivity.
  - destruct (SpaceActivity_eqb (spaceStatus c) HOSTING).
    + right. right. reflexivity.
    + left. reflexivity.
Qed.

Lemma withAdmission_hostingHasMarkers act q (c : TwitterSpaceClient) :
  hostingHasMarkers c -> hostingHasMarkers (withAdmission act q c).
Proof. destruct c; exact (fun H => H). Qed.

Lemma stopSpace_hostingHasMarkers (env : StopEnv) (c : TwitterSpaceClient) :
  hostingHasMarkers c -> hostingHasMarkers (after (stopSpace env) c).
Proof.
  unfold after. rewrite stopSpace_run.
  destruct (nothingToStop c); cbn [final]; [exact (fun H => H) | ].
  intros _ H. discriminate.
Qed.

Lemma manageCurrentSpace_hostingHasMarkers (env : ManageEnv)
  (c : TwitterSpaceClient) :
  hostingHasMarkers c ->
  hostingHasMarkers (after (manageCurrentSpace env) c).
Proof.
  intros H. unfold after.
  destruct (manageCurrentSpace_run env c) as [t [act' [q' [_ [_ Run]]]]].
  rewrite Run. destruct (_ && _).
  - cbn [prepend final].
    now apply stopSpace_hostingHasMarkers, withAdmission_hostingHasMarkers.
  - cbn [final]. now apply withAdmission_hostingHasMarkers.
Qed.

Lemma clientStep_hostingHasMarkers (op : ClientOp) (c : TwitterSpaceClient) :
  hostingHasMarkers c -> hostingHasMarkers (clientStep op c).
Proof.
  intros H.
  destruct op as [env | config env | env | id env | req env | env];
    cbn [clientStep].
  - destruct (routine_final env c) as [E | [[config E] | E]]; rewrite E.
    + exact H.
    + destruct (startSpace_final config (routine_start env) c)
        as [[_ [_ [I S]]] | I]; intros Hs.
      * split; [exact I | congruence].
      * congruence.
    + now apply manageCurrentSpace_hostingHasMarkers.
  - destruct (startSpace_final config env c) as [[_ [_ [I S]]] | I];
      intros Hs.
    + split; [exact I | congruence].
    + congruence.
  - now apply stopSpace_hostingHasMarkers.
  - destruct (joinSpace_final id env c) as [_ [I [S [E | [E1 E2]]]]];
      intros Hs.
    + unfold markersDefined. rewrite I, S. apply H. congruence.
    + congruence.
  - unfold after. rewrite handleSpeakerRequest_run.
    destruct (_ || _); [exact H | ]. cbn zeta.
    destruct (request_audioSpace env) as [ | room]; [exact H | ].
    destruct (_ <? _); cbn [final];
      now apply withAdmission_hostingHasMarkers.
  - unfold after, onIdleTimeout.
    rewrite bind_logged, bind_speakFiller. cbn [prepend final].
    now apply stopSpace_hostingHasMarkers.
Qed.

(** C6: the code at the failing input.  [startSpace] on a new client
    writes [startedAt] before it contacts the room, and [spaceId] as soon
    as the room is initialized; its [catch] block resets the status
    alone.  When [initialize] rejects, the client is IDLE with
    [startedAt] still defined; when the announcement rejects, it is IDLE
    with [spaceId] and [startedAt] both defined.  [stopSpace], the other
    way back to IDLE, clears both. *)
Theorem failed_startSpace_keeps_the_markers :
  let new := newTwitterSpaceClient None in
  let noRoom := startSpace someConfig (initializeFails 5) new in
  let noTweet := startSpace someConfig (tweetFails 5) new in
  let closed := after (stopSpace (closesAt 9)) (hostingSince 5) in
  completion noRoom = Thrown (CallFailed (SpaceInitialize someConfig)) /\
  spaceStatus (final noRoom) = IDLE /\
  spaceId (final noRoom) = None /\
  startedAt (final noRoom) = Some 5 /\
  completion noTweet =
    Thrown (CallFailed (SendTweet "https://x.com/i/spaces/room")) /\
  spaceStatus (final noTweet) = IDLE /\
  spaceId (final noTweet) = Some "room"%string /\
  startedAt (final noTweet) = Some 5 /\
  spaceStatus closed = IDLE /\
  markersUndefined closed.
Proof.
  cbn zeta.
  repeat (split; [vm_compute; reflexivity | ]).
  split; vm_compute; reflexivity.
Qed.

(** The other direction of C6: a client that joined a Space is
    PARTICIPATING, and [joinSpace] has assigned neither [spaceId] nor
    [startedAt]. *)
Example participant_has_no_markers :
  reachable None participating /\
  spaceStatus participating = PARTICIPATING /\
  markersUndefined participating.
Proof.
  split; [ | split].
  - exact (@reachable_step None (JoinSpace "room" joinsAndIsApproved)
             (newTwitterSpaceClient None) (reachable_new None)).
  - vm_compute. reflexivity.
  - split; vm_compute; reflexivity.
Qed.

(** What does hold of the session markers: a new client is IDLE with
    [spaceId] and [startedAt] undefined; in every state the client can
    reach between two operations, a HOSTING status implies that both are
    defined; a [stopSpace] that finds a Space to stop leaves the client
    IDLE with both undefined. *)
Lemma markers_of_a_hosting_client
  (settings : option SpacesSettings) (c : TwitterSpaceClient) :
  reachable settings c ->
  (spaceStatus (newTwitterSpaceClient settings) = IDLE /\
   markersUndefined (newTwitterSpaceClient settings)) /\
  hostingHasMarkers c /\
  (forall env : StopEnv,
     nothingToStop c = false ->
     spaceStatus (after (stopSpace env) c) = IDLE /\
     markersUndefined (after (stopSpace env) c)).
Proof.
  intros R. split; [ | split].
  - repeat split.
  - induction R as [ | op c R IH].
    + intros H. discriminate.
    + now apply clientStep_hostingHasMarkers.
  - intros env N. unfold after. rewrite stopSpace_run, N.
    repeat split.
Qed.

(** ** Launch eligibility on the clients the code can reach *)

Lemma startSpace_keeps (config : SpaceConfig) (env : StartEnv)
  (c : TwitterSpaceClient) :
  decisionOptions (after (startSpace config env) c) = decisionOptions c /\
  lastSpaceEndedAt (after (startSpace config env) c) = lastSpaceEndedAt c.
Proof.
  unfold after, startSpace, bind, tryCatch, await, assign, logged, ret,
    invoke, speakFiller, this, throw.
  destruct c as [cs sid st le pl status sp act q opts].
  destruct env as [now [ | b] tts tr [ | []]]; cbn;
    try (split; reflexivity);
    destruct (tts && tr); cbn;
    destruct (enableIdleMonitor opts) as [[ | ] | ]; cbn;
    split; reflexivity.
Qed.

Lemma joinSpace_keeps (id : string) (env : JoinEnv) (c : TwitterSpaceClient) :
  decisionOptions (after (joinSpace id env) c) = decisionOptions c /\
  lastSpaceEndedAt (after (joinSpace id env) c) = lastSpaceEndedAt c.
Proof.
  unfold after, joinSpace, bind, tryCatch, await, assign, logged, ret,
    invoke, this, waitForApproval.
  destruct c as [cs sid st le pl status sp act q opts].
  destruct env as [[ | []] [ | session] wenv [ | []]];
    destruct status; destruct sp as [[] | ];
    cbn -[waiting]; rewrite ?waiting_end; cbn -[acceptedInTime];
    try (destruct (acceptedInTime session wenv); cbn;
         unfold becomeSpeakerResult;
         try (destruct (wait_becomeSpeaker wenv) as [ | []]; cbn));
    split; reflexivity.
Qed.

(** What an operation does to the settings and to the time of the last
    stop: the settings stay, and the time of the last stop stays or
    becomes the clock reading of this operation's stop. *)
Definition keepsSettingsAndClock (t : Z) (c c' : TwitterSpaceClient) : Prop :=
  decisionOptions c' = decisionOptions c /\
  (lastSpaceEndedAt c' = lastSpaceEndedAt c \/ lastSpaceEndedAt c' = Some t).

Lemma stopSpace_keeps (env : StopEnv) (c : TwitterSpaceClient) :
  keepsSettingsAndClock (stop_now env) c (after (stopSpace env) c).
Proof.
  unfold after, keepsSettingsAndClock. rewrite stopSpace_run.
  destruct (nothingToStop c); cbn [final]; split; auto.
Qed.

Lemma manageCurrentSpace_keeps (env : ManageEnv) (c : TwitterSpaceClient) :
  keepsSettingsAndClock (stop_now (manage_stop env)) c
    (after (manageCurrentSpace env) c).
Proof.
  unfold after.
  destruct (manageCurrentSpace_run env c) as [t [act' [q' [_ [_ Run]]]]].
  rewrite Run. destruct (_ && _).
  - cbn [prepend final].
    destruct (stopSpace_keeps (manage_stop env) (withAdmission act' q' c))
      as [D L].
    unfold after in D, L. split; [rewrite D; destruct c; reflexivity | ].
    destruct L as [L | L]; [left | right; exact L].
    rewrite L. destruct c; reflexivity.
  - cbn [final]. split; [ | left]; destruct c; reflexivity.
Qed.

Lemma clientStep_keeps (op : ClientOp) (c : TwitterSpaceClient) :
  decisionOptions (clientStep op c) = decisionOptions c /\
  (lastSpaceEndedAt (clientStep op c) = lastSpaceEndedAt c \/
   exists t : Z, stopClock op = Some t /\
                 lastSpaceEndedAt (clientStep op c) = Some t).
Proof.
  destruct op as [env | config env | env | id env | req env | env];
    cbn [clientStep stopClock].
  - destruct (routine_final env c) as [E | [[config E] | E]]; rewrite E.
    + auto.
    + destruct (startSpace_keeps config (routine_start env) c); auto.
    + destruct (manageCurrentSpace_keeps (routine_manage env) c)
        as [D [L | L]]; eauto.
  - destruct (startSpace_keeps config env c); auto.
  - destruct (stopSpace_keeps env c) as [D [L | L]]; eauto.
  - destruct (joinSpace_keeps id env c); auto.
  - unfold after. rewrite handleSpeakerRequest_run.
    destruct (_ || _); [auto | ]. cbn zeta.
    destruct (request_audioSpace env) as [ | room]; [auto | ].
    destruct (_ <? _); cbn [final]; split; auto; destruct c; reflexivity.
  - unfold after, onIdleTimeout.
    rewrite bind_logged, bind_speakFiller. cbn [prepend final].
    destruct (stopSpace_keeps env c) as [D [L | L]]; eauto.
Qed.

(** On the clients the code can reach, the settings are those resolved
    by the constructor and the time of the last stop, when there is one,
    is a clock reading. *)
Lemma reachableOnClock_invariant (settings : option SpacesSettings)
  (c : TwitterSpaceClient) :
  reachableOnClock settings c ->
  decisionOptions c = resolveDecisionOptions settings /\
  forall ended : Z, lastSpaceEndedAt c = Some ended -> 0 < ended.
Proof.
  induction 1 as [ | op c R [D L] Clock].
  - split; [reflexivity | discriminate].
  - destruct (clientStep_keeps op c) as [D' [L' | [t [S L']]]].
    + split; [congruence | ]. intros ended E. apply L. congruence.
    + split; [congruence | ]. intros ended E.
      apply Clock. congruence.
Qed.

(** C3: on every client the code can reach, [shouldLaunchSpace] returns
    [false] if and only if [lastSpaceEndedAt] is defined and
    [now - lastSpaceEndedAt < minIntervalBetweenSpacesMinutes * 60000].
    It returns [true] when [lastSpaceEndedAt] is undefined, and when the
    elapsed time equals or exceeds the interval, the exact boundary
    included.  The interval is the setting resolved by the constructor;
    the client is left as it was. *)
Theorem shouldLaunchSpace_cooldown (settings : option SpacesSettings)
  (c : TwitterSpaceClient) (now : Z) :
  reachableOnClock settings c ->
  exists interval : Z,
    minIntervalBetweenSpacesMinutes (decisionOptions c) = Some interval /\
    let o := shouldLaunchSpace now c in
    (completion o = Normal false <-> coolingDown now interval c) /\
    (lastSpaceEndedAt c = None -> completion o = Normal true) /\
    (forall ended : Z,
       lastSpaceEndedAt c = Some ended ->
       interval * 60000 <= now - ended ->
       completion o = Normal true) /\
    (completion o = Normal true <-> ~ coolingDown now interval c) /\
    final o = c.
Proof.
  intros R. destruct (reachableOnClock_invariant R) as [D Clock].
  exists (Js.nullish
            (src_minIntervalBetweenSpacesMinutes
               (Js.nullish settings emptySettings)) 60).
  split; [rewrite D; reflexivity | ].
  cbn zeta.
  destruct (shouldLaunchSpace_tooSoon now c) as [F [T Same]].
  assert (Eq : tooSoon now c <->
               coolingDown now
                 (Js.nullish
                    (src_minIntervalBetweenSpacesMinutes
                       (Js.nullish settings emptySettings)) 60) c).
  { unfold tooSoon, coolingDown, minIntervalBetweenSpacesMinutesOf.
    rewrite D. cbn [resolveDecisionOptions minIntervalBetweenSpacesMinutes
                    Js.nullish].
    split.
    - intros [ended [E [_ Lt]]]. exists ended. auto.
    - intros [ended [E Lt]]. exists ended.
      split; [exact E | split; [ | exact Lt]].
      apply Clock in E. lia. }
  split; [rewrite F; exact Eq | ].
  split.
  { intros N. apply T. rewrite Eq. intros [ended [E _]]. congruence. }
  split.
  { intros ended E Ge. apply T. rewrite Eq.
    intros [ended' [E' Lt]]. assert (ended' = ended) by congruence.
    subst. lia. }
  split; [rewrite T, Eq; tauto | exact Same].
Qed.

(** C3 on a Space opened with the default settings and stopped at clock
    1000: one second later the launch is refused; sixty minutes after the
    stop, to the millisecond, it is allowed. *)
Lemma shouldLaunchSpace_cooldown_witness :
  let c := clientStep (StopSpace (closesAt 1000)) (hostingSince 500) in
  reachableOnClock None c /\
  lastSpaceEndedAt c = Some 1000 /\
  completion (shouldLaunchSpace 2000 c) = Normal false /\
  completion (shouldLaunchSpace 3601000 c) = Normal true.
Proof.
  cbn zeta.
  assert (R : reachableOnClock None
                (clientStep (StopSpace (closesAt 1000)) (hostingSince 500))).
  { apply onClock_step.
    - unfold hostingSince. apply onClock_step; [apply onClock_new | ].
      intros t E. discriminate.
    - intros t E. injection E as <-. reflexivity. }
  assert (L : lastSpaceEndedAt
                (clientStep (StopSpace (closesAt 1000)) (hostingSince 500))
              = Some 1000) by (vm_compute; reflexivity).
  split; [exact R | ]. split; [exact L | ].
  split.
  - destruct (@shouldLaunchSpace_cooldown None _ 2000 R)
      as [interval [I [F _]]].
    vm_compute in I. injection I as <-.
    apply F. exists 1000. split; [exact L | reflexivity].
  - destruct (@shouldLaunchSpace_cooldown None _ 3601000 R)
      as [interval [I [_ [_ [T _]]]]].
    vm_compute in I. injection I as <-.
    apply (T 1000 L). vm_compute. discriminate.
Defined.

(** * Further properties *)

(** ** Duration eviction *)

Lemma nth_error_middle {A : Type} (l1 l2 : list A) (x : A) :
  nth_error (l1 ++ x :: l2) (List.length l1) = Some x.
Proof.
  induction l1 as [ | y l1 IH]; [reflexivity | exact IH].
Qed.

Lemma splice1_middle {A : Type} (l1 l2 : list A) (x : A) :
  Js.splice1 (List.length l1) (l1 ++ x :: l2) = l1 ++ l2.
Proof.
  unfold Js.splice1.
  induction l1 as [ | y l1 IH]; cbn; [reflexivity | ].
  f_equal. exact IH.
Qed.

(** The loop at counter [n] has the first [n] speakers left to examine
    and has already gone through the others. *)
Lemma evictLoop_filter (n : nat) :
  forall (maxDur now : Z) (answers : nat -> Answer unit)
         (c : TwitterSpaceClient) (todo seen : list CurrentSpeakerState),
  activeSpeakers c = todo ++ seen ->
  List.length todo = n ->
  evictLoop n maxDur now answers c =
    {| calls := evictionCalls (Js.defined (currentSpace c))
                  (rev (filter (expired maxDur now) todo));
       final := withAdmission
                  (filter (fun s => negb (expired maxDur now s)) todo ++ seen)
                  (speakerQueue c) c;
       completion := Normal tt |}.
Proof.
  induction n as [ | i IH]; intros maxDur now answers c todo seen Act Len.
  - destruct todo; [ | discriminate ]. cbn in *.
    unfold ret. rewrite <- Act, withAdmission_same. reflexivity.
  - destruct (exists_last (l := todo)) as [todo' [s E]].
    { intros ->. discriminate. }
    subst todo. rewrite length_app in Len. cbn in Len.
    assert (Len' : List.length todo' = i) by lia. clear Len.
    rewrite <- app_assoc in Act. cbn in Act.
    subst i. cbn [evictLoop]. rewrite bind_this, Act.
    rewrite nth_error_middle.
    change (maxDur <? now - startTime s) with (expired maxDur now s).
    rewrite !filter_app. cbn [filter].
    destruct (expired maxDur now s) eqn:X; cbn [negb].
    + rewrite bind_logged, bind_removeSpeaker, bind_assign, bind_speakFiller.
      rewrite (IH maxDur now (next answers) _ todo' seen).
      * unfold prepend. cbn [calls final completion].
        rewrite rev_app_distr. cbn [rev app].
        unfold evictionCalls. cbn [flat_map].
        rewrite !app_nil_r, <- app_assoc.
        destruct c; reflexivity.
      * destruct c; cbn in *. subst. now rewrite splice1_middle.
      * reflexivity.
    + rewrite (IH maxDur now answers c todo' (s :: seen) Act eq_refl).
      rewrite !app_nil_r, <- app_assoc. reflexivity.
Qed.

Lemma evictExpiredSpeakers_exact (now : Z) (answers : nat -> Answer unit)
  (c : TwitterSpaceClient) :
  evictExpiredSpeakers now answers c =
    {| calls := evictionCalls (Js.defined (currentSpace c))
                  (rev (filter (expired (speakerMaxDurationMsOf c) now)
                          (activeSpeakers c)));
       final := withAdmission
                  (filter (fun s => now - startTime s
                                    <=? speakerMaxDurationMsOf c)
                     (activeSpeakers c))
                  (speakerQueue c) c;
       completion := Normal tt |}.
Proof.
  unfold evictExpiredSpeakers. rewrite bind_this.
  rewrite (@evictLoop_filter _ (speakerMaxDurationMsOf c) now answers c
             (activeSpeakers c) []);
    [ | now rewrite app_nil_r | reflexivity ].
  rewrite app_nil_r. do 2 f_equal.
  apply filter_ext. intros s. unfold expired.
  destruct (Z.ltb_spec (speakerMaxDurationMsOf c) (now - startTime s));
    destruct (Z.leb_spec (now - startTime s) (speakerMaxDurationMsOf c));
    try reflexivity; lia.
Qed.

(** X1: the duration eviction never throws and keeps exactly the
    speakers whose time on the floor is at most [speakerMaxDurationMs],
    in their order; the others are dropped from [activeSpeakers] whatever
    the room answers to their removal, which is requested from the last
    speaker to the first.  The queue is left alone. *)
Theorem evictExpiredSpeakers_keeps_the_recent (now : Z)
  (answers : nat -> Answer unit) (c : TwitterSpaceClient) :
  let o := evictExpiredSpeakers now answers c in
  let maxDur := speakerMaxDurationMsOf c in
  completion o = Normal tt /\
  final o =
    withAdmission
      (filter (fun s => now - startTime s <=? maxDur) (activeSpeakers c))
      (speakerQueue c) c /\
  filter isRemove (calls o) =
    (if Js.defined (currentSpace c)
     then map (fun s => RemoveSpeaker (userId s))
            (rev (filter (fun s => maxDur <? now - startTime s)
                    (activeSpeakers c)))
     else []) /\
  Forall (fun s => now - startTime s <= maxDur) (activeSpeakers (final o)).
Proof.
  cbn zeta. rewrite evictExpiredSpeakers_exact.
  cbn [calls final completion].
  split; [reflexivity | split; [reflexivity | split]].
  - unfold evictionCalls, expired.
    induction (rev (filter _ (activeSpeakers c))) as [ | s l IH];
      cbn; [destruct (Js.defined _); reflexivity | ].
    rewrite filter_app, IH.
    destruct (Js.defined (currentSpace c)); reflexivity.
  - destruct c; cbn. apply Forall_forall. intros s I.
    apply filter_In in I. destruct I as [_ I]. now apply Z.leb_le.
Qed.

(** ** How far the queue drain goes *)

Lemma admittedOf_length (reqs : list SpeakerRequest) :
  forall env : nat -> Admission,
  allApproved env ->
  List.length (admittedOf env reqs) = List.length reqs.
Proof.
  induction reqs as [ | r reqs IH]; intros env A; cbn; [reflexivity | ].
  rewrite (A 0%nat). cbn. f_equal. apply IH. intros n. apply A.
Qed.

Lemma filter_isApprove_drainCalls (taken : list SpeakerRequest) :
  filter isApprove (drainCalls true taken) = map approvalOf taken.
Proof.
  unfold drainCalls. induction taken as [ | r taken IH]; cbn;
    [reflexivity | now rewrite IH].
Qed.

Lemma drain_exact (env : nat -> Admission) (c : TwitterSpaceClient) :
  currentSpace c <> None ->
  allApproved env ->
  let k := Nat.min (List.length (speakerQueue c)) (freeSlots c) in
  acceptSpeakersFromQueueIfNeeded env c =
    {| calls := drainCalls true (firstn k (speakerQueue c));
       final := withAdmission
                  (activeSpeakers c
                   ++ admittedOf env (firstn k (speakerQueue c)))
                  (skipn k (speakerQueue c)) c;
       completion := Normal tt |}.
Proof.
  intros Hc A. cbn zeta.
  destruct (acceptSpeakersFromQueueIfNeeded_run env c)
    as [k' [Hk [Run [Exit Bound]]]].
  rewrite Run. clear Run.
  destruct (currentSpace c) eqn:E; [ | congruence ].
  cbn [Js.defined] in *.
  assert (L : List.length (admittedOf env (firstn k' (speakerQueue c))) = k').
  { rewrite admittedOf_length by exact A. rewrite length_firstn. lia. }
  assert (K : k' = Nat.min (List.length (speakerQueue c)) (freeSlots c)).
  { unfold freeSlots, Js.len in *. rewrite length_app, L in *.
    destruct Exit as [Q | F].
    - apply (f_equal (@List.length _)) in Q. rewrite length_skipn in Q.
      cbn in Q. lia.
    - lia. }
  rewrite <- K. reflexivity.
Qed.

(** X2: on a client with a room handle, when the room approves every
    speaker, the queue drain admits exactly as many requests as the
    smaller of the queue length and the free slots
    [maxSpeakers - activeSpeakers.length] (none when that is negative),
    taken from the head of the queue. *)
Theorem drain_fills_the_free_slots (env : nat -> Admission)
  (c : TwitterSpaceClient) :
  currentSpace c <> None ->
  allApproved env ->
  let o := acceptSpeakersFromQueueIfNeeded env c in
  let k := Nat.min (List.length (speakerQueue c)) (freeSlots c) in
  completion o = Normal tt /\
  speakerQueue (final o) = skipn k (speakerQueue c) /\
  activeSpeakers (final o) =
    activeSpeakers c ++ admittedOf env (firstn k (speakerQueue c)) /\
  List.length (activeSpeakers (final o)) =
    (List.length (activeSpeakers c) + k)%nat /\
  filter isApprove (calls o) = map approvalOf (firstn k (speakerQueue c)).
Proof.
  intros Hc A. cbn zeta. rewrite (@drain_exact env c Hc A).
  cbn [calls final completion].
  split; [reflexivity | ].
  split; [destruct c; reflexivity | ].
  split; [destruct c; reflexivity | ].
  split.
  - destruct c; cbn [activeSpeakers withAdmission set_speakerQueue
                       set_activeSpeakers speakerQueue].
    rewrite length_app, admittedOf_length by exact A.
    rewrite length_firstn. unfold freeSlots; cbn. lia.
  - apply filter_isApprove_drainCalls.
Qed.

(** X2 with two requests waiting and one slot free. *)
Lemma drain_fills_the_free_slots_witness :
  let c := withAdmission [] [alice; bob] (hostingSince 0) in
  let env := always (approvedAt 7) in
  let o := acceptSpeakersFromQueueIfNeeded env c in
  currentSpace c <> None /\
  allApproved env /\
  Nat.min (List.length (speakerQueue c)) (freeSlots c) = 1%nat /\
  speakerQueue (final o) = [bob] /\
  activeSpeakers (final o) = [admitted alice 7].
Proof.
  cbn zeta.
  assert (Hc : currentSpace (withAdmission [] [alice; bob] (hostingSince 0))
               <> None) by (vm_compute; discriminate).
  assert (A : allApproved (always (approvedAt 7))) by (intros n; reflexivity).
  destruct (@drain_fills_the_free_slots (always (approvedAt 7))
              (withAdmission [] [alice; bob] (hostingSince 0)) Hc A)
    as [_ [Q [S _]]].
  split; [exact Hc | ]. split; [exact A | ].
  split; [vm_compute; reflexivity | ].
  split.
  - rewrite Q. vm_compute. reflexivity.
  - rewrite S. vm_compute. reflexivity.
Defined.

(** ** Speaker requests outside the queue *)

(** X3: when the room reports fewer speakers than [maxSpeakers], the
    request is submitted for approval at once, whatever the pending queue
    holds and however many speakers are recorded locally: the queue is
    neither read nor changed, so the newcomer passes the requests that
    wait.  If the approval fails the request is dropped, not queued. *)
Theorem handleSpeakerRequest_passes_the_queue (req : SpeakerRequest)
  (env : RequestEnv) (room : option AudioSpace) (c : TwitterSpaceClient) :
  hasSpaceToManage c = true ->
  request_audioSpace env = Resolves room ->
  Js.len (janusSpeakersOf room) < maxSpeakersOf c ->
  let o := handleSpeakerRequest req env c in
  completion o = Normal tt /\
  calls o = [queryOf c; SpeakFiller PRE_ACCEPT None; approvalOf req] /\
  speakerQueue (final o) = speakerQueue c /\
  activeSpeakers (final o) =
    activeSpeakers c ++
    (if resolves (approveSpeaker (request_admission env))
     then [admitted req (admittedAt (request_admission env))]
     else []).
Proof.
  unfold hasSpaceToManage. intros G A L. cbn zeta.
  apply andb_prop in G. destruct G as [G1 G2].
  rewrite handleSpeakerRequest_run, G1, G2. cbn [negb orb]. cbn zeta.
  rewrite A. destruct (Z.ltb_spec (Js.len (janusSpeakersOf room))
                         (maxSpeakersOf c)); [ | lia ].
  cbn [calls final completion]. unfold always. cbn [admittedOf].
  destruct (approveSpeaker (request_admission env)) as [ | []];
    destruct c; cbn; rewrite ?app_nil_r; repeat split.
Qed.

(** X3 on a Space where alice waits in the queue and carol holds the one
    slot locally, while the room reports nobody: bob is admitted. *)
Lemma handleSpeakerRequest_passes_the_queue_witness :
  let c := withAdmission (activeSpeakers carolSpeaks) [alice] carolSpeaks in
  let o := handleSpeakerRequest bob (requestInEmptyRoom 5) c in
  hasSpaceToManage c = true /\
  Js.len (janusSpeakersOf emptyRoom) < maxSpeakersOf c /\
  speakerQueue (final o) = [alice] /\
  activeSpeakers (final o) = [admitted carol 1; admitted bob 5].
Proof.
  cbn zeta.
  assert (G : hasSpaceToManage
                (withAdmission (activeSpeakers carolSpeaks) [alice]
                   carolSpeaks) = true) by (vm_compute; reflexivity).
  assert (L : Js.len (janusSpeakersOf emptyRoom)
              < maxSpeakersOf
                  (withAdmission (activeSpeakers carolSpeaks) [alice]
                     carolSpeaks)) by (vm_compute; reflexivity).
  destruct (@handleSpeakerRequest_passes_the_queue bob
              (requestInEmptyRoom 5) emptyRoom _ G eq_refl L)
    as [_ [_ [Q S]]].
  split; [exact G | ]. split; [exact L | ].
  split.
  - rewrite Q. vm_compute. reflexivity.
  - rewrite S. vm_compute. reflexivity.
Defined.

(** X4: handleSpeakerRequest throws exactly when it has a Space to
    manage and the room query fails, and then with the failure of the
    query.  Whenever the query is not answered (or there is no Space) the
    client is unchanged and no approval is asked: the request is lost,
    neither admitted nor queued. *)
Theorem handleSpeakerRequest_unanswered (req : SpeakerRequest)
  (env : RequestEnv) (c : TwitterSpaceClient) :
  let o := handleSpeakerRequest req env c in
  completion o =
    (if hasSpaceToManage c && negb (resolves (request_audioSpace env))
     then Thrown (CallFailed (queryOf c))
     else Normal tt) /\
  (if hasSpaceToManage c && resolves (request_audioSpace env)
   then calls o <> []
   else final o = c /\ filter isApprove (calls o) = [] /\
        calls o = if hasSpaceToManage c then [queryOf c] else []).
Proof.
  cbn zeta. unfold hasSpaceToManage, queryOf.
  rewrite handleSpeakerRequest_run.
  destruct (Js.truthy_opt Js.truthy_string (spaceId c)); cbn [negb orb andb].
  2:{ repeat split. }
  destruct (Js.defined (currentSpace c)); cbn [negb orb andb].
  2:{ repeat split. }
  cbn zeta.
  destruct (request_audioSpace env) as [ | room]; cbn [resolves negb].
  - repeat split.
  - destruct (_ <? _); cbn [calls completion]; split;
      try reflexivity; discriminate.
Qed.

(** ** The capacity trim *)

Lemma findIndex_splice1 {A : Type} (p : A -> bool) (l : list A) :
  match Js.findIndex p l with
  | Some idx => Js.splice1 idx l
  | None => l
  end = removeFirst p l.
Proof.
  induction l as [ | x l IH]; cbn; [reflexivity | ].
  destruct (p x); [reflexivity | ].
  destruct (Js.findIndex p l) as [i | ]; rewrite <- IH; reflexivity.
Qed.

Lemma kickLoop_exact (extras : list RoomUser) :
  forall (answers : nat -> Answer unit) (c : TwitterSpaceClient),
  kickLoop extras answers c =
    {| calls := flat_map
                  (fun sp => if Js.defined (currentSpace c)
                             then [RemoveSpeaker (user_id sp)] else [])
                  extras;
       final := withAdmission
                  (fold_left (fun act sp => removeFirst (sameUser sp) act)
                     extras (activeSpeakers c))
                  (speakerQueue c) c;
       completion := Normal tt |}.
Proof.
  induction extras as [ | sp more IH]; intros answers c.
  - cbn. unfold ret. now rewrite withAdmission_same.
  - cbn [kickLoop flat_map fold_left].
    rewrite bind_logged, bind_removeSpeaker, bind_this.
    rewrite <- (findIndex_splice1 (sameUser sp) (activeSpeakers c)).
    unfold sameUser at 1 2.
    destruct (Js.findIndex _ (activeSpeakers c)) as [idx | ].
    + rewrite bind_assign, IH. unfold prepend; cbn [calls final completion].
      destruct c; reflexivity.
    + rewrite bind_ret, IH. unfold prepend; cbn [calls final completion].
      reflexivity.
Qed.

Lemma removeFirst_keeps {A : Type} (p q : A -> bool) (l : list A) :
  (forall x, q x = true -> p x = false) ->
  filter q (removeFirst p l) = filter q l.
Proof.
  intros H. induction l as [ | x l IH]; cbn; [reflexivity | ].
  destruct (p x) eqn:P.
  - destruct (q x) eqn:Q; [ | reflexivity ].
    apply H in Q. congruence.
  - cbn. now rewrite IH.
Qed.

Lemma recordedAs_removeFirst (u : string) (sp : RoomUser)
  (l : list CurrentSpeakerState) :
  recordedAs u (removeFirst (sameUser sp) l) =
    (recordedAs u l - (if String.eqb u (user_id sp) then 1 else 0))%nat.
Proof.
  unfold recordedAs, sameUser.
  induction l as [ | s l IH]; cbn; [reflexivity | ].
  destruct (String.eqb_spec (userId s) (user_id sp)) as [E | N].
  - destruct (String.eqb_spec (userId s) u) as [E' | N'].
    + subst u. rewrite E, String.eqb_refl. cbn. lia.
    + destruct (String.eqb_spec u (user_id sp)); [congruence | lia].
  - cbn. destruct (String.eqb_spec (userId s) u) as [E' | N'].
    + cbn. rewrite IH.
      destruct (String.eqb_spec u (user_id sp)); [congruence | lia].
    + exact IH.
Qed.

(** X5: with a room handle and [maxSpeakers >= 0], the capacity trim
    asks the room to remove exactly the speakers it reports beyond the
    first [maxSpeakers], in the order reported, and never throws even
    when removals fail.  Locally it never touches the queue, keeps in
    order every recorded speaker who is none of those, and for every
    user id drops one recorded entry per reported extra with that id. *)
Theorem kickExtraSpeakers_trims_beyond_maxSpeakers
  (roomSpeakers : list RoomUser) (answers : nat -> Answer unit)
  (c : TwitterSpaceClient) :
  currentSpace c <> None ->
  0 <= maxSpeakersOf c ->
  let o := kickExtraSpeakers (Some roomSpeakers) answers c in
  let extras := skipn (Z.to_nat (maxSpeakersOf c)) roomSpeakers in
  completion o = Normal tt /\
  calls o = map (fun sp => RemoveSpeaker (user_id sp)) extras /\
  speakerQueue (final o) = speakerQueue c /\
  filter (notAmong extras) (activeSpeakers (final o)) =
    filter (notAmong extras) (activeSpeakers c) /\
  forall u : string,
    recordedAs u (activeSpeakers (final o)) =
      (recordedAs u (activeSpeakers c) - reportedAs u extras)%nat.
Proof.
  intros Hc Pos. cbn zeta.
  unfold kickExtraSpeakers. rewrite bind_this.
  destruct (currentSpace c) eqn:E; [ | congruence ].
  cbn [Js.defined negb]. rewrite kickLoop_exact, E. cbn [Js.defined].
  unfold Js.slice_from. destruct (Z.ltb_spec (maxSpeakersOf c) 0); [lia | ].
  cbn [calls final completion].
  set (extras := skipn (Z.to_nat (maxSpeakersOf c)) roomSpeakers).
  split; [reflexivity | ].
  split.
  { clear. induction extras; cbn; [reflexivity | now f_equal]. }
  split; [destruct c; reflexivity | ].
  replace (activeSpeakers (withAdmission _ (speakerQueue c) c))
    with (fold_left (fun act sp => removeFirst (sameUser sp) act)
            extras (activeSpeakers c)) by (destruct c; reflexivity).
  generalize (activeSpeakers c) as act. clearbody extras. clear.
  induction extras as [ | sp extras IH]; intros act; cbn [fold_left].
  - split; [reflexivity | ]. intros u. unfold reportedAs. cbn. lia.
  - destruct (IH (removeFirst (sameUser sp) act)) as [K N]. split.
    + assert (S : forall q : CurrentSpeakerState -> bool,
                 (forall x, q x = true -> notAmong (sp :: extras) x = true) ->
                 filter q (fold_left
                             (fun act sp => removeFirst (sameUser sp) act)
                             extras (removeFirst (sameUser sp) act)) =
                 filter q act).
      { clear. revert act sp.
        induction extras as [ | sp' extras IH]; intros act sp q H;
          cbn [fold_left].
        - apply removeFirst_keeps. intros x Q. apply H in Q.
          unfold notAmong in Q. cbn in Q.
          apply negb_true_iff, orb_false_elim in Q. tauto.
        - rewrite (IH (removeFirst (sameUser sp) act) sp' q).
          + apply removeFirst_keeps. intros x Q. apply H in Q.
            unfold notAmong in Q. cbn in Q.
            apply negb_true_iff, orb_false_elim in Q. tauto.
          + intros x Q. apply H in Q. unfold notAmong in *. cbn in *.
            apply negb_true_iff in Q. apply negb_true_iff.
            apply orb_false_elim in Q. tauto. }
      apply S. auto.
    + intros u. rewrite N, recordedAs_removeFirst.
      unfold reportedAs. cbn [filter].
      destruct (String.eqb u (user_id sp)); cbn; lia.
Qed.

(** X5 with [maxSpeakers] = 1: the room reports carol, alice and a
    stranger; alice and the stranger are removed, carol stays. *)
Lemma kickExtraSpeakers_trims_beyond_maxSpeakers_witness :
  let c := withAdmission [admitted carol 1; admitted alice 2] [bob]
             (hostingSince 0) in
  let room := [{| user_id := "3" |}; {| user_id := "1" |};
               {| user_id := "7" |}] in
  let o := kickExtraSpeakers (Some room) (always Rejects) c in
  currentSpace c <> None /\
  0 <= maxSpeakersOf c /\
  completion o = Normal tt /\
  calls o = [RemoveSpeaker "1"; RemoveSpeaker "7"] /\
  speakerQueue (final o) = [bob] /\
  activeSpeakers (final o) = [admitted carol 1].
Proof.
  cbn zeta.
  assert (Hc : currentSpace
                 (withAdmission [admitted carol 1; admitted alice 2] [bob]
                    (hostingSince 0)) <> None)
    by (vm_compute; discriminate).
  assert (P : 0 <= maxSpeakersOf
                     (withAdmission [admitted carol 1; admitted alice 2]
                        [bob] (hostingSince 0)))
    by (vm_compute; discriminate).
  destruct (@kickExtraSpeakers_trims_beyond_maxSpeakers
              [{| user_id := "3" |}; {| user_id := "1" |};
               {| user_id := "7" |}] (always Rejects) _ Hc P)
    as [T [C [Q _]]].
  split; [exact Hc | ]. split; [exact P | ]. split; [exact T | ].
  split; [rewrite C; vm_compute; reflexivity | ].
  split; [rewrite Q; vm_compute; reflexivity | ].
  vm_compute. reflexivity.
Defined.

(** ** Opening a Space *)

Lemma startSpace_run (config : SpaceConfig) (env : StartEnv)
  (c : TwitterSpaceClient) :
  startSpace config env c =
    match start_initialize env with
    | Rejects =>
        {| calls := [SpaceInitialize config];
           final := set_spaceStatus IDLE
                      (withAdmission [] []
                         (set_startedAt (Some (start_now env))
                            (set_spaceId None
                               (set_currentSpace (Some NewSpace) c))));
           completion := Thrown (CallFailed (SpaceInitialize config)) |}
    | Resolves info =>
        let opened :=
          withAdmission [] []
            (set_startedAt (Some (start_now env))
               (set_spaceId (Some (room_id info))
                  (set_currentSpace (Some NewSpace)
                     (if start_textToSpeech env && start_transcription env
                      then set_sttTtsPlugin (Some NewSttTtsPlugin) c
                      else c)))) in
        match start_sendTweet env with
        | Rejects =>
            {| calls := SpaceInitialize config :: attachments env c
                        ++ [tweetOf info];
               final := set_spaceStatus IDLE opened;
               completion := Thrown (CallFailed (tweetOf info)) |}
        | Resolves _ =>
            {| calls := SpaceInitialize config :: attachments env c
                        ++ tweetOf info :: SpeakFiller WELCOME None
                        :: handlerRegistrations;
               final := set_spaceStatus HOSTING opened;
               completion := Normal tt |}
        end
    end.
Proof.
  unfold startSpace, attachments, tweetOf, handlerRegistrations,
    bind, tryCatch, await, assign, logged, ret,
    invoke, speakFiller, this, throw.
  destruct c as [cs sid st le pl status sp act q opts].
  destruct env as [now [ | info] tts tr [ | []]]; cbn;
    try reflexivity;
    destruct (tts && tr); cbn;
      destruct (enableIdleMonitor opts) as [[ | ] | ]; reflexivity.
Qed.

(** X6: when the room is initialized and the announcement is sent,
    startSpace returns with the client HOSTING, [spaceId] the room id
    returned, [startedAt] the time read at the start, both speaker lists
    empty and the time of the last session kept.  The announcement is
    the share URL with its first "broadcasts" turned into "spaces"; the
    welcome filler and the four handlers come after it. *)
Theorem startSpace_opens (config : SpaceConfig) (env : StartEnv)
  (info : BroadcastInfo) (c : TwitterSpaceClient) :
  start_initialize env = Resolves info ->
  start_sendTweet env = Resolves tt ->
  let o := startSpace config env c in
  completion o = Normal tt /\
  spaceStatus (final o) = HOSTING /\
  currentSpace (final o) = Some NewSpace /\
  spaceId (final o) = Some (room_id info) /\
  startedAt (final o) = Some (start_now env) /\
  activeSpeakers (final o) = [] /\
  speakerQueue (final o) = [] /\
  lastSpaceEndedAt (final o) = lastSpaceEndedAt c /\
  decisionOptions (final o) = decisionOptions c /\
  calls o =
    SpaceInitialize config :: attachments env c
    ++ [SendTweet (Js.replace "broadcasts" "spaces" (share_url info));
        SpeakFiller WELCOME None;
        SpaceOn "occupancyUpdate"; SpaceOn "speakerRequest";
        SpaceOn "idleTimeout"; ProcessOn "SIGINT"].
Proof.
  intros I T. cbn zeta. rewrite startSpace_run, I, T.
  cbn [calls final completion].
  destruct (start_textToSpeech env && start_transcription env);
    destruct c; repeat split.
Qed.

(** X6 on a new client, with the answers of [startsWell]. *)
Lemma startSpace_opens_witness :
  let o := startSpace someConfig (startsWell 3) (newTwitterSpaceClient None) in
  start_initialize (startsWell 3) =
    Resolves {| room_id := "room";
                share_url := "https://x.com/i/broadcasts/room" |} /\
  start_sendTweet (startsWell 3) = Resolves tt /\
  spaceStatus (final o) = HOSTING /\
  spaceId (final o) = Some "room"%string /\
  calls o =
    [SpaceInitialize someConfig; SpaceUseSttTts;
     SpaceUseIdleMonitor 300000 10000;
     SendTweet "https://x.com/i/spaces/room";
     SpeakFiller WELCOME None;
     SpaceOn "occupancyUpdate"; SpaceOn "speakerRequest";
     SpaceOn "idleTimeout"; ProcessOn "SIGINT"].
Proof.
  cbn zeta.
  destruct (@startSpace_opens someConfig (startsWell 3) _
              (newTwitterSpaceClient None) eq_refl eq_refl)
    as [_ [S [_ [I [_ [_ [_ [_ [_ C]]]]]]]]].
  split; [reflexivity | ]. split; [reflexivity | ].
  split; [exact S | ]. split; [exact I | ].
  rewrite C. vm_compute. reflexivity.
Defined.

(** X7: startSpace throws exactly when the initialization of the room or
    the announcement fails, and then rethrows that failure.  In both
    cases the client is IDLE with both speaker lists empty (the previous
    lists are discarded before the room is contacted), no filler is
    spoken and no handler is registered; when it is the announcement
    that fails, the room has already been initialized. *)
Theorem startSpace_failure (config : SpaceConfig) (env : StartEnv)
  (c : TwitterSpaceClient) :
  let o := startSpace config env c in
  completion o =
    match start_initialize env, start_sendTweet env with
    | Rejects, _ => Thrown (CallFailed (SpaceInitialize config))
    | Resolves info, Rejects => Thrown (CallFailed (tweetOf info))
    | Resolves _, Resolves _ => Normal tt
    end /\
  activeSpeakers (final o) = [] /\
  speakerQueue (final o) = [] /\
  if resolves (start_initialize env) && resolves (start_sendTweet env)
  then spaceStatus (final o) = HOSTING
  else spaceStatus (final o) = IDLE /\
       filter isRegistration (calls o) = [] /\
       filter isFiller (calls o) = [] /\
       calls o =
         match start_initialize env with
         | Rejects => [SpaceInitialize config]
         | Resolves info =>
             SpaceInitialize config :: attachments env c ++ [tweetOf info]
         end.
Proof.
  cbn zeta. rewrite startSpace_run.
  destruct (start_initialize env) as [ | info]; cbn [resolves andb].
  - cbn [calls final completion]. destruct c. repeat split.
  - cbn zeta. destruct (start_sendTweet env) as [ | []]; cbn [resolves];
      cbn [calls final completion].
    + split; [reflexivity | ].
      split; [destruct c; destruct (_ && _); reflexivity | ].
      split; [destruct c; destruct (_ && _); reflexivity | ].
      split; [destruct c; destruct (_ && _); reflexivity | ].
      unfold attachments, tweetOf.
      destruct (_ && _); destruct (Js.truthy_opt _ _); cbn;
        repeat split.
    + split; [reflexivity | ].
      split; [destruct c; destruct (_ && _); reflexivity | ].
      split; [destruct c; destruct (_ && _); reflexivity | ].
      destruct c; destruct (_ && _); reflexivity.
Qed.

(** ** Joining a Space *)

(** X8: when every call it awaits settles, by resolving or by
    rejecting, joinSpace returns and never throws.  It returns
    the Space id exactly when the client was IDLE and both
    [joinAsListener] and [requestSpeaker] succeeded, and null otherwise.
    A client that is not IDLE is left untouched without any call.  The
    status becomes PARTICIPATING as soon as [joinAsListener] succeeds,
    also when the speaker request then fails and null is returned.  The
    speaker lists and the room handle are never touched. *)
Theorem joinSpace_result (id : string) (env : JoinEnv)
  (c : TwitterSpaceClient) :
  let o := joinSpace id env c in
  completion o =
    Normal (if joinsAsListener env c && resolves (join_requestSpeaker env)
            then ReturnsSpaceId id
            else ReturnsNull) /\
  spaceStatus (final o) =
    (if joinsAsListener env c then PARTICIPATING else spaceStatus c) /\
  activeSpeakers (final o) = activeSpeakers c /\
  speakerQueue (final o) = speakerQueue c /\
  currentSpace (final o) = currentSpace c /\
  if SpaceActivity_eqb (spaceStatus c) IDLE
  then spaceParticipant (final o) = Some NewSpaceParticipant /\
       hd_error (calls o) = Some (JoinAsListener id)
  else final o = c /\ calls o = [].
Proof.
  cbn zeta.
  unfold joinsAsListener, joinSpace, bind, tryCatch, await, assign, logged,
    ret, invoke, this, waitForApproval.
  destruct c as [cs sid st le pl status sp act q opts].
  destruct env as [[ | []] [ | session] wenv [ | []]];
    destruct status; destruct sp as [[] | ];
    cbn -[waiting]; rewrite ?waiting_end; cbn -[acceptedInTime];
    try (destruct (acceptedInTime session wenv); cbn;
         unfold becomeSpeakerResult;
         try (destruct (wait_becomeSpeaker wenv) as [ | []]; cbn));
    repeat split; auto.
Qed.

(** X9: joinSpace cancels the speaker request exactly when it made one
    and the wait for the promotion failed, and attaches the speech plugin
    exactly when the promotion succeeded; it does neither when the join
    or the request failed.  [becomeSpeaker] is called at most once. *)
Theorem joinSpace_cancels_only_a_failed_promotion (id : string)
  (env : JoinEnv) (c : TwitterSpaceClient) :
  let o := joinSpace id env c in
  let promoted := if joinsAsListener env c then promotion env else None in
  filter isCancel (calls o) =
    match promoted with
    | Some false => [CancelSpeakerRequest]
    | _ => []
    end /\
  filter isPluginUse (calls o) =
    match promoted with
    | Some true => [ParticipantUseSttTts]
    | _ => []
    end /\
  sttTtsPlugin (final o) =
    match promoted with
    | Some true => Some NewSttTtsPlugin
    | _ => sttTtsPlugin c
    end /\
  (List.length
     (filter (fun call => match call with
                          | BecomeSpeaker => true
                          | _ => false
                          end) (calls o)) <= 1)%nat.
Proof.
  cbn zeta.
  unfold joinsAsListener, promotion, joinSpace, bind, tryCatch, await,
    assign, logged, ret, invoke, this, waitForApproval.
  destruct c as [cs sid st le pl status sp act q opts].
  destruct env as [[ | []] [ | session] wenv [ | []]];
    destruct status; destruct sp as [[] | ];
    cbn -[waiting acceptedInTime];
    rewrite ?waiting_end; cbn -[acceptedInTime];
    try (destruct (acceptedInTime session wenv); cbn;
         unfold becomeSpeakerResult;
         try (destruct (wait_becomeSpeaker wenv) as [ | []]; cbn));
    repeat split; auto.
Qed.

(** ** Generating the configuration *)

Lemma generateSpaceConfig_run (env : ConfigEnv) (c : TwitterSpaceClient) :
  generateSpaceConfig env c =
    match topicsUsed env with
    | None => {| calls := [GenerateTopicsIfEmpty]; final := c;
                 completion := Thrown (CallFailed GenerateTopicsIfEmpty) |}
    | Some topics =>
        let chosenTopic :=
          Js.item topics
            (Js.floor (cfg_random env * inject_Z (Js.len topics))) in
        {| calls := match cfg_topics env with
                    | [] => [GenerateTopicsIfEmpty]
                    | _ :: _ => []
                    end;
           final := c;
           completion :=
             Normal {| record := enableRecording (decisionOptions c);
                       mode := "INTERACTIVE";
                       title := chosenTopic;
                       description :=
                         ("Discussion about "
                          ++ Js.nullish chosenTopic "undefined")%string;
                       languages := ["en"%string] |} |}
    end.
Proof.
  unfold generateSpaceConfig, topicsUsed.
  destruct (cfg_topics env) as [ | t ts] eqn:T; cbn [List.length Nat.eqb].
  - rewrite bind_await. destruct (cfg_generated env) as [ | gen];
      [reflexivity | ].
    cbn zeta. rewrite bind_this. reflexivity.
  - rewrite bind_ret. cbn zeta. rewrite bind_this. reflexivity.
Qed.

(** [Math.floor(r * n)] is an index of an array of [n > 0] elements
    when [0 <= r < 1]. *)
Lemma floor_of_a_fraction (r : Q) (n : Z) :
  (0 <= r)%Q -> (r < 1)%Q -> 0 < n ->
  0 <= Js.floor (r * inject_Z n) < n.
Proof.
  intros R0 R1 N. unfold Js.floor.
  assert (Pos : (0 < inject_Z n)%Q).
  { change 0%Q with (inject_Z 0). rewrite <- Zlt_Qlt. exact N. }
  split.
  - change 0 with (Qfloor (inject_Z 0)).
    apply Qfloor_resp_le. change (inject_Z 0) with 0%Q.
    apply Qmult_le_0_compat; [exact R0 | apply Qlt_le_weak; exact Pos].
  - rewrite Zlt_Qlt.
    apply Qle_lt_trans with (y := (r * inject_Z n)%Q);
      [apply Qfloor_le | ].
    assert (E : (inject_Z n == 1 * inject_Z n)%Q) by ring.
    rewrite E at 2.
    apply Qmult_lt_compat_r; assumption.
Qed.

(** X10: generateSpaceConfig asks for generated topics only when the
    character has none, throws only when that generation fails, and
    leaves the client alone.  With [Math.random()] in the interval
    [0, 1), the title is a member of the list it draws from: the index
    [Math.floor(Math.random() * topics.length)] falls inside the list
    whenever the list is not empty.  The description is
    "Discussion about " followed by the title, and the fixed fields are
    as written; only when the list drawn from is empty is the title
    undefined. *)
Theorem generateSpaceConfig_draws_a_listed_topic (env : ConfigEnv)
  (c : TwitterSpaceClient) :
  (0 <= cfg_random env)%Q ->
  (cfg_random env < 1)%Q ->
  let o := generateSpaceConfig env c in
  final o = c /\
  calls o = match cfg_topics env with
            | [] => [GenerateTopicsIfEmpty]
            | _ :: _ => []
            end /\
  match topicsUsed env with
  | None => completion o = Thrown (CallFailed GenerateTopicsIfEmpty)
  | Some topics =>
      exists config : SpaceConfig,
        completion o = Normal config /\
        record config = enableRecording (decisionOptions c) /\
        mode config = "INTERACTIVE"%string /\
        languages config = ["en"%string] /\
        match title config with
        | Some topic =>
            In topic topics /\
            description config = ("Discussion about " ++ topic)%string
        | None =>
            topics = [] /\
            description config = "Discussion about undefined"%string
        end
  end.
Proof.
  intros R0 R1. cbn zeta. rewrite generateSpaceConfig_run.
  destruct (topicsUsed env) as [topics | ] eqn:U; cbn zeta;
    cbn [calls final completion].
  - split; [reflexivity | ]. split; [reflexivity | ].
    eexists. split; [reflexivity | ]. cbn [record mode languages title
                                            description].
    split; [reflexivity | ]. split; [reflexivity | ].
    split; [reflexivity | ].
    destruct (Js.item topics _) as [topic | ] eqn:N.
    + split; [ | reflexivity ]. unfold Js.item in N.
      destruct (_ <? 0); [discriminate | ].
      now apply nth_error_In in N.
    + split; [ | reflexivity ].
      destruct topics as [ | t ts]; [reflexivity | ].
      exfalso.
      assert (L : 0 < Js.len (t :: ts)) by (unfold Js.len; cbn; lia).
      pose proof (floor_of_a_fraction R0 R1 L) as [B0 B1].
      unfold Js.item in N.
      destruct (Z.ltb_spec (Js.floor (cfg_random env
                                      * inject_Z (Js.len (t :: ts)))) 0)
        as [Neg | _]; [lia | ].
      apply nth_error_None in N. unfold Js.len in *. cbn [List.length] in *.
      lia.
  - split; [reflexivity | ]. split; [ | reflexivity ].
    unfold topicsUsed in U. destruct (cfg_topics env); [reflexivity | ].
    discriminate.
Qed.

(** X10 for a character with three topics and a draw of 0.7: the third
    topic is chosen. *)
Lemma generateSpaceConfig_draws_a_listed_topic_witness :
  let env := {| cfg_topics := ["AI"; "Rust"; "Chess"]%string;
                cfg_generated := Rejects;
                cfg_random := 7 # 10 |} in
  let c := newTwitterSpaceClient None in
  (0 <= cfg_random env)%Q /\
  (cfg_random env < 1)%Q /\
  final (generateSpaceConfig env c) = c /\
  calls (generateSpaceConfig env c) = [] /\
  (exists config : SpaceConfig,
     completion (generateSpaceConfig env c) = Normal config /\
     title config = Some "Chess"%string /\
     description config = "Discussion about Chess"%string).
Proof.
  cbn zeta.
  assert (R0 : (0 <= 7 # 10)%Q) by discriminate.
  assert (R1 : (7 # 10 < 1)%Q) by reflexivity.
  destruct (@generateSpaceConfig_draws_a_listed_topic
              {| cfg_topics := ["AI"; "Rust"; "Chess"]%string;
                 cfg_generated := Rejects;
                 cfg_random := 7 # 10 |}
              (newTwitterSpaceClient None) R0 R1) as [F [C _]].
  split; [exact R0 | ]. split; [exact R1 | ].
  split; [exact F | ]. split; [exact C | ].
  eexists. split; [vm_compute; reflexivity | ].
  split; reflexivity.
Defined.

(** ** The periodic routine *)

Lemma shouldLaunchSpace_cooling (now : Z) (c : TwitterSpaceClient) :
  shouldLaunchSpace now c =
    {| calls := []; final := c; completion := Normal (negb (cooling now c)) |}.
Proof.
  unfold shouldLaunchSpace, cooling. rewrite bind_this.
  destruct (lastSpaceEndedAt c) as [ended | ].
  - destruct (Js.truthy_number ended); cbn [andb].
    + destruct (now - ended <? _); rewrite bind_logged; reflexivity.
    + rewrite bind_logged; reflexivity.
  - rewrite bind_logged; reflexivity.
Qed.

Lemma cooling_tooSoon (now : Z) (c : TwitterSpaceClient) :
  cooling now c = true <-> tooSoon now c.
Proof.
  unfold cooling, tooSoon, Js.truthy_number. split.
  - destruct (lastSpaceEndedAt c) as [ended | ]; [ | discriminate ].
    intros H. apply andb_prop in H. destruct H as [N L].
    exists ended. apply negb_true_iff, Z.eqb_neq in N.
    apply Z.ltb_lt in L. auto.
  - intros [ended [E [N L]]]. rewrite E.
    apply andb_true_intro. split.
    + now apply negb_true_iff, Z.eqb_neq.
    + now apply Z.ltb_lt.
Qed.

Lemma manageCurrentSpace_returns (env : ManageEnv) (c : TwitterSpaceClient) :
  completion (manageCurrentSpace env c) = Normal tt.
Proof.
  destruct (manageCurrentSpace_run env c) as [t [act' [q' [_ [_ Run]]]]].
  rewrite Run. destruct (_ && _); [ | reflexivity ].
  rewrite stopSpace_run. destruct (nothingToStop _); reflexivity.
Qed.

(** The launch of the IDLE branch, lines 99-106. *)
Lemma launch_run (env : RoutineEnv) (c : TwitterSpaceClient) :
  (launch <- shouldLaunchSpace (routine_now env);;
   if launch : bool then
     config <- generateSpaceConfig (routine_config env);;
     startSpace config (routine_start env)
   else ret tt) c =
    if cooling (routine_now env) c then nothing c
    else
      match completion (generateSpaceConfig (routine_config env) c) with
      | Normal config =>
          prepend (calls (generateSpaceConfig (routine_config env) c))
            (startSpace config (routine_start env) c)
      | _ => {| calls := [GenerateTopicsIfEmpty]; final := c;
                completion := Thrown (CallFailed GenerateTopicsIfEmpty) |}
      end.
Proof.
  rewrite (@bind_prepend _ _ _ _ _ _ _ _
             (shouldLaunchSpace_cooling (routine_now env) c)), prepend_nil.
  destruct (cooling (routine_now env) c); cbn [negb]; [reflexivity | ].
  pose proof (generateSpaceConfig_run (routine_config env) c) as G.
  destruct (topicsUsed (routine_config env)) as [topics | ]; cbn zeta in G.
  - rewrite (@bind_prepend _ _ _ _ _ _ _ _ G), G. reflexivity.
  - unfold bind. rewrite G. reflexivity.
Qed.

Lemma startSpace_completes (config : SpaceConfig) (env : StartEnv)
  (c : TwitterSpaceClient) :
  completion (startSpace config env c) <> Pending /\
  (spaceStatus (final (startSpace config env c)) = HOSTING \/
   spaceStatus (final (startSpace config env c)) = IDLE) /\
  (completion (startSpace config env c) <> Normal tt ->
   spaceStatus (final (startSpace config env c)) = IDLE).
Proof.
  rewrite startSpace_run.
  destruct (start_initialize env) as [ | info].
  - repeat split; auto; discriminate.
  - cbn zeta. destruct (start_sendTweet env) as [ | []];
      cbn [completion final]; repeat split; auto; try discriminate.
    congruence.
Qed.

(** X11: one turn of the routine never throws, whatever fails in it.
    On a HOSTING client it is exactly a management tick; on a
    PARTICIPATING client, and on an IDLE one whose settings do not
    enable hosting, it makes no call and changes nothing; a turn that
    considers a launch never leaves the client PARTICIPATING. *)
Theorem routine_never_throws (env : RoutineEnv) (c : TwitterSpaceClient) :
  completion (routine env c) = Normal tt /\
  if SpaceActivity_eqb (spaceStatus c) HOSTING
  then routine env c = manageCurrentSpace (routine_manage env) c
  else if considersLaunch c
       then spaceStatus (final (routine env c)) <> PARTICIPATING
       else routine env c = nothing c.
Proof.
  unfold routine, considersLaunch.
  destruct (spaceStatus c) eqn:S; cbn [SpaceActivity_eqb andb].
  - assert (E : tryCatch
                  (c0 <- this;;
                   if SpaceActivity_eqb (spaceStatus c0) IDLE
                   then if enableSpaceHosting (decisionOptions c0)
                        then launch <- shouldLaunchSpace (routine_now env);;
                             if launch : bool
                             then config <- generateSpaceConfig
                                              (routine_config env);;
                                  startSpace config (routine_start env)
                             else ret tt
                        else ret tt
                   else if SpaceActivity_eqb (spaceStatus c0) HOSTING
                        then manageCurrentSpace (routine_manage env)
                        else ret tt)
                  (fun _ => logged) c =
                manageCurrentSpace (routine_manage env) c).
    { erewrite tryCatch_normal; rewrite bind_this, S; cbn [SpaceActivity_eqb];
        [reflexivity | apply manageCurrentSpace_returns]. }
    rewrite E. split; [apply manageCurrentSpace_returns | reflexivity].
  - unfold tryCatch. rewrite bind_this, S. cbn. split; reflexivity.
  - unfold tryCatch. rewrite bind_this, S. cbn [SpaceActivity_eqb].
    destruct (enableSpaceHosting (decisionOptions c)).
    2:{ cbn. split; reflexivity. }
    rewrite launch_run.
    destruct (cooling (routine_now env) c).
    { cbn. split; [reflexivity | congruence]. }
    destruct (completion (generateSpaceConfig (routine_config env) c))
      as [config | e | ].
    + destruct (startSpace_completes config (routine_start env) c)
        as [NP [St _]].
      unfold prepend.
      destruct (startSpace config (routine_start env) c) as [t c' [[] | e | ]];
        cbn in *; try congruence;
        (split; [reflexivity | destruct St; congruence]).
    + cbn. split; [reflexivity | congruence].
    + cbn. split; [reflexivity | congruence].
Qed.

Lemma tryCatch_logged_run (m : M unit) (c : TwitterSpaceClient) :
  completion (m c) <> Pending ->
  tryCatch m (fun _ => logged) c =
    {| calls := calls (m c); final := final (m c); completion := Normal tt |}.
Proof.
  unfold tryCatch, logged, ret.
  destruct (m c) as [t c' [[] | e | ]]; cbn; intros H;
    rewrite ?app_nil_r; congruence.
Qed.

Lemma tryCatch_then_timeout (m : M unit) (f : TwitterSpaceClient -> Z)
  (d : Z) (c : TwitterSpaceClient) :
  completion (m c) <> Pending ->
  tryCatch (m;; c' <- this;; ret (f c')) (fun _ => logged;; ret d) c =
    {| calls := calls (m c);
       final := final (m c);
       completion := Normal match completion (m c) with
                            | Normal _ => f (final (m c))
                            | _ => d
                            end |}.
Proof.
  unfold tryCatch, bind, this, logged, ret.
  destruct (m c) as [t c' [[] | e | ]]; cbn; intros H;
    rewrite ?app_nil_r; congruence.
Qed.

(** X12: on an IDLE client with hosting enabled and no cooldown running,
    once a configuration is generated the routine is one startSpace: the
    same calls and the same final client, except that a failure of
    startSpace is caught, so the routine returns normally and the client
    is HOSTING afterwards exactly when startSpace succeeded. *)
Theorem routine_launches (env : RoutineEnv) (config : SpaceConfig)
  (c : TwitterSpaceClient) :
  spaceStatus c = IDLE ->
  enableSpaceHosting (decisionOptions c) = true ->
  ~ tooSoon (routine_now env) c ->
  completion (generateSpaceConfig (routine_config env) c) = Normal config ->
  let o := routine env c in
  let s := startSpace config (routine_start env) c in
  completion o = Normal tt /\
  calls o = calls (generateSpaceConfig (routine_config env) c) ++ calls s /\
  final o = final s /\
  (spaceStatus (final o) = HOSTING <-> completion s = Normal tt).
Proof.
  intros S E T G. cbn zeta.
  assert (C : cooling (routine_now env) c = false).
  { destruct (cooling (routine_now env) c) eqn:C; [ | reflexivity ].
    apply cooling_tooSoon in C. contradiction. }
  destruct (startSpace_completes config (routine_start env) c)
    as [NP [St Fail]].
  unfold routine. rewrite tryCatch_logged_run;
    rewrite bind_this, S; cbn [SpaceActivity_eqb];
    rewrite E, launch_run, C, G; unfold prepend; cbn [completion];
    [ | exact NP ].
  cbn [calls final completion].
  repeat split.
  - intros H. destruct (completion (startSpace config (routine_start env) c))
      as [[] | e | ]; [reflexivity | | congruence].
    rewrite Fail in H; [discriminate | discriminate].
  - intros H. rewrite startSpace_run in *.
    destruct (start_initialize (routine_start env)); [discriminate | ].
    cbn zeta in *.
    destruct (start_sendTweet (routine_start env)) as [ | []];
      [discriminate | ]. destruct c; reflexivity.
Qed.

(** X12 on a new client whose settings enable hosting. *)
Lemma routine_launches_witness :
  let c := newTwitterSpaceClient (Some hostingEnabled) in
  let o := routine (turnAt 8) c in
  spaceStatus c = IDLE /\
  enableSpaceHosting (decisionOptions c) = true /\
  ~ tooSoon 8 c /\
  completion (generateSpaceConfig (routine_config (turnAt 8)) c)
  = Normal someConfig /\
  completion o = Normal tt /\
  spaceStatus (final o) = HOSTING /\
  startedAt (final o) = Some 8.
Proof.
  cbn zeta.
  assert (T : ~ tooSoon 8 (newTwitterSpaceClient (Some hostingEnabled))).
  { intros [ended [E _]]. discriminate. }
  assert (G : completion
                (generateSpaceConfig (routine_config (turnAt 8))
                   (newTwitterSpaceClient (Some hostingEnabled)))
              = Normal someConfig) by (vm_compute; reflexivity).
  destruct (@routine_launches (turnAt 8) someConfig
              (newTwitterSpaceClient (Some hostingEnabled))
              eq_refl eq_refl T G) as [N [_ [F _]]].
  split; [reflexivity | ]. split; [reflexivity | ].
  split; [exact T | ]. split; [exact G | ]. split; [exact N | ].
  rewrite F. split; vm_compute; reflexivity.
Defined.

(** X13: after a stopSpace that found a Space to stop, at a time other
    than 0, every turn of the routine that comes before
    [minIntervalBetweenSpacesMinutes] have passed makes no call and
    changes nothing: the client stays IDLE with the time of the stop
    recorded. *)
Theorem routine_waits_after_a_stop (stop : StopEnv) (env : RoutineEnv)
  (c : TwitterSpaceClient) :
  nothingToStop c = false ->
  stop_now stop <> 0 ->
  routine_now env - stop_now stop
  < minIntervalBetweenSpacesMinutesOf c * 60000 ->
  let c' := after (stopSpace stop) c in
  routine env c' = nothing c' /\
  spaceStatus c' = IDLE /\
  lastSpaceEndedAt c' = Some (stop_now stop).
Proof.
  intros N Z L. cbn zeta. unfold after. rewrite stopSpace_run, N.
  cbn [final].
  split; [ | split; reflexivity ].
  unfold routine, tryCatch. rewrite bind_this.
  change (spaceStatus (stopped (stop_now stop) c)) with IDLE.
  cbn [SpaceActivity_eqb].
  destruct (enableSpaceHosting (decisionOptions (stopped (stop_now stop) c)));
    [ | reflexivity ].
  rewrite launch_run.
  assert (C : cooling (routine_now env) (stopped (stop_now stop) c) = true).
  { apply cooling_tooSoon. exists (stop_now stop).
    repeat split; auto. }
  rewrite C. reflexivity.
Qed.

(** X13 on a hosted Space with hosting enabled, stopped at time 100 and
    visited again one minute later. *)
Lemma routine_waits_after_a_stop_witness :
  let c := clientStep (StartSpace someConfig (startsWell 1))
             (newTwitterSpaceClient (Some hostingEnabled)) in
  let c' := after (stopSpace (closeFailsAt 100)) c in
  nothingToStop c = false /\
  100 <> 0 /\
  60100 - 100 < minIntervalBetweenSpacesMinutesOf c * 60000 /\
  enableSpaceHosting (decisionOptions c') = true /\
  routine (turnAt 60100) c' = nothing c' /\
  spaceStatus c' = IDLE.
Proof.
  cbn zeta.
  assert (N : nothingToStop
                (clientStep (StartSpace someConfig (startsWell 1))
                   (newTwitterSpaceClient (Some hostingEnabled))) = false)
    by (vm_compute; reflexivity).
  assert (Z : stop_now (closeFailsAt 100) <> 0) by discriminate.
  assert (L : routine_now (turnAt 60100) - stop_now (closeFailsAt 100)
              < minIntervalBetweenSpacesMinutesOf
                  (clientStep (StartSpace someConfig (startsWell 1))
                     (newTwitterSpaceClient (Some hostingEnabled))) * 60000)
    by (vm_compute; reflexivity).
  destruct (@routine_waits_after_a_stop (closeFailsAt 100) (turnAt 60100) _
              N Z L) as [R [S _]].
  split; [exact N | ]. split; [exact Z | ]. split; [exact L | ].
  split; [vm_compute; reflexivity | ].
  split; [exact R | exact S].
Defined.

Lemma tryCatch_then_const (m : M unit) (v d : Z) (c : TwitterSpaceClient) :
  completion (m c) = Normal tt ->
  tryCatch (m;; ret v) (fun _ => logged;; ret d) c =
    {| calls := calls (m c); final := final (m c); completion := Normal v |}.
Proof.
  unfold tryCatch, bind, logged, ret.
  destruct (m c) as [t c' [[] | e | ]]; cbn; intros H;
    rewrite ?app_nil_r; congruence.
Qed.

Lemma tryCatch_this {A : Type} (f : TwitterSpaceClient -> M A)
  (h : Exn -> M A) (c : TwitterSpaceClient) :
  tryCatch (bind this f) h c = tryCatch (f c) h c.
Proof. unfold tryCatch. rewrite bind_this. reflexivity. Qed.

(** The launch of the IDLE branch ends, and a failed launch leaves the
    client IDLE. *)
Lemma launch_completes (env : RoutineEnv) (c : TwitterSpaceClient) :
  spaceStatus c = IDLE ->
  let l := (if enableSpaceHosting (decisionOptions c)
            then launch <- shouldLaunchSpace (routine_now env);;
                 if launch : bool
                 then config <- generateSpaceConfig (routine_config env);;
                      startSpace config (routine_start env)
                 else ret tt
            else ret tt) c in
  completion l <> Pending /\
  (completion l <> Normal tt -> spaceStatus (final l) = IDLE).
Proof.
  intros S. cbn zeta.
  destruct (enableSpaceHosting (decisionOptions c)).
  2:{ cbn. split; congruence. }
  rewrite launch_run.
  destruct (cooling (routine_now env) c).
  { cbn. split; congruence. }
  destruct (completion (generateSpaceConfig (routine_config env) c))
    as [config | e | ].
  - destruct (startSpace_completes config (routine_start env) c)
      as [NP [_ Fail]].
    unfold prepend. cbn [completion final]. split; assumption.
  - cbn. split; [discriminate | auto].
  - cbn. split; [discriminate | auto].
Qed.

(** X14: the routine re-arms itself after every turn, also after a
    failed one, making the same calls and leaving the same client as the
    turn alone.  The delay is 5 minutes when the client was IDLE before
    the turn and is IDLE after it, and 5 seconds otherwise: in
    particular 5 seconds right after a successful launch, and also after
    the tick that closed the Space. *)
Theorem routineThenTimeout_delay (env : RoutineEnv) (c : TwitterSpaceClient) :
  let o := routineThenTimeout env c in
  let r := routine env c in
  calls o = calls r /\
  final o = final r /\
  completion o =
    Normal (if SpaceActivity_eqb (spaceStatus c) IDLE
               && SpaceActivity_eqb (spaceStatus (final r)) IDLE
            then 300000
            else 5000).
Proof.
  cbn zeta. unfold routineThenTimeout, routine.
  rewrite !tryCatch_this.
  destruct (spaceStatus c) eqn:S; cbn [SpaceActivity_eqb andb].
  - rewrite tryCatch_then_const by apply manageCurrentSpace_returns.
    rewrite tryCatch_logged_run
      by (rewrite manageCurrentSpace_returns; discriminate).
    repeat split.
  - unfold tryCatch, bind, ret, logged. cbn. repeat split.
  - destruct (launch_completes env c S) as [NP Fail]. cbn zeta in *.
    rewrite tryCatch_then_timeout by exact NP.
    rewrite tryCatch_logged_run by exact NP.
    cbn [calls final completion].
    split; [reflexivity | split; [reflexivity | ]].
    match goal with
    | |- context [completion ?l] => set (launched := l) in *
    end.
    destruct (completion launched) as [[] | e | ] eqn:C.
    + destruct (spaceStatus (final launched)); reflexivity.
    + rewrite Fail by discriminate. reflexivity.
    + congruence.
Qed.

(** ** The management tick, further *)

(** X15: manageCurrentSpace never throws and never changes the
    settings.  Without a Space to manage it makes no call; when the room
    query fails or its answer has no participants, the query is its only
    call and the client is left as it was: nobody is evicted or admitted
    and the Space is not closed, however long it has been open.
    Otherwise the status is unchanged or IDLE. *)
Theorem manageCurrentSpace_needs_the_room (env : ManageEnv)
  (c : TwitterSpaceClient) :
  let o := manageCurrentSpace env c in
  completion o = Normal tt /\
  decisionOptions (final o) = decisionOptions c /\
  if hasSpaceToManage c && Js.defined (reportedParticipants env)
  then spaceStatus (final o) = spaceStatus c \/ spaceStatus (final o) = IDLE
  else final o = c /\
       calls o = if hasSpaceToManage c then [queryOf c] else [].
Proof.
  cbn zeta. split; [apply manageCurrentSpace_returns | ].
  split.
  { destruct (manageCurrentSpace_run env c) as [t [act' [q' [_ [_ Run]]]]].
    rewrite Run.
    destruct (reachesClosingStep env c && closingDue env c);
      [ | destruct c; reflexivity ].
    rewrite stopSpace_run. destruct (nothingToStop _); destruct c;
      reflexivity. }
  destruct (hasSpaceToManage c && Js.defined (reportedParticipants env))
    eqn:G.
  - destruct (manageCurrentSpace_run env c) as [t [act' [q' [_ [_ Run]]]]].
    rewrite Run.
    destruct (reachesClosingStep env c && closingDue env c);
      [ | left; destruct c; reflexivity ].
    rewrite stopSpace_run. destruct (nothingToStop _); cbn [prepend final];
      [left | right]; destruct c; reflexivity.
  - unfold hasSpaceToManage, queryOf, reportedParticipants in *.
    unfold manageCurrentSpace. rewrite bind_this.
    destruct (Js.truthy_opt Js.truthy_string (spaceId c));
      cbn [negb orb andb] in *; [ | split; reflexivity ].
    destruct (Js.defined (currentSpace c));
      cbn [negb orb andb] in *; [ | split; reflexivity ].
    destruct (manage_audioSpace env) as [ | [a | ]].
    + erewrite tryCatch_thrown; [ | rewrite bind_await; reflexivity ].
      split; reflexivity.
    + destruct (participants a) as [parts | ] eqn:P; [discriminate | ].
      erewrite tryCatch_thrown; [ | rewrite bind_await, P; reflexivity ].
      split; reflexivity.
    + erewrite tryCatch_thrown; [ | rewrite bind_await; reflexivity ].
      split; reflexivity.
Qed.

(** X16: a tick on a Space whose room answers with no more speakers than
    [maxSpeakers], that is not due for closing and whose approvals all
    succeed, first drops the speakers over their time and then fills the
    slots so freed from the head of the queue: the speakers afterwards
    are the recent ones followed by the newly admitted, the queue loses
    exactly those, and the status is unchanged. *)
Theorem tick_frees_and_refills (env : ManageEnv) (parts : Participants)
  (c : TwitterSpaceClient) :
  hasSpaceToManage c = true ->
  reportedParticipants env = Some parts ->
  lengthOrZero (speakers parts) <= maxSpeakersOf c ->
  closingDue env c = false ->
  allApproved (manage_admissions env) ->
  let o := manageCurrentSpace env c in
  let recent :=
    filter (fun s => manage_now env - startTime s
                     <=? speakerMaxDurationMsOf c) (activeSpeakers c) in
  let k := Nat.min (List.length (speakerQueue c))
             (Z.to_nat (maxSpeakersOf c - Js.len recent)) in
  completion o = Normal tt /\
  activeSpeakers (final o) =
    recent ++ admittedOf (manage_admissions env) (firstn k (speakerQueue c)) /\
  speakerQueue (final o) = skipn k (speakerQueue c) /\
  spaceStatus (final o) = spaceStatus c /\
  filter isApprove (calls o) = map approvalOf (firstn k (speakerQueue c)).
Proof.
  unfold hasSpaceToManage.
  intros G R Cap Due A. cbn zeta.
  apply andb_prop in G. destruct G as [G1 G2].
  assert (Hc : currentSpace c <> None)
    by (destruct (currentSpace c); [discriminate | discriminate]).
  unfold manageCurrentSpace. rewrite bind_this, G1, G2. cbn [negb orb].
  unfold closingDue in Due. rewrite R in Due.
  unfold reportedParticipants in R.
  destruct (manage_audioSpace env) as [ | [a | ]]; try discriminate.
  match goal with
  | |- context [tryCatch ?m ?h c] => set (body := m)
  end.
  set (recent := filter (fun s => manage_now env - startTime s
                                  <=? speakerMaxDurationMsOf c)
                   (activeSpeakers c)).
  set (k := Nat.min (List.length (speakerQueue c))
              (Z.to_nat (maxSpeakersOf c - Js.len recent))).
  assert (Body :
            body c =
              {| calls := queryOf c ::
                   evictionCalls true
                     (rev (filter (expired (speakerMaxDurationMsOf c)
                                     (manage_now env)) (activeSpeakers c)))
                   ++ drainCalls true (firstn k (speakerQueue c));
                 final := withAdmission
                            (recent ++ admittedOf (manage_admissions env)
                                         (firstn k (speakerQueue c)))
                            (skipn k (speakerQueue c)) c;
                 completion := Normal tt |}).
  { subst body. rewrite bind_await, R.
    rewrite (@bind_prepend _ _ _ _ _ _ _ _
               (evictExpiredSpeakers_exact (manage_now env)
                  (manage_evictions env) c)).
    fold recent.
    set (c1 := withAdmission recent (speakerQueue c) c).
    assert (Hc1 : currentSpace c1 <> None) by (destruct c; exact Hc).
    rewrite (@bind_prepend _ _ _ _ _ _ _ _
               (@drain_exact (manage_admissions env) c1 Hc1 A)).
    replace (speakerQueue c1) with (speakerQueue c)
      by (destruct c; reflexivity).
    replace (activeSpeakers c1) with recent by (destruct c; reflexivity).
    replace (freeSlots c1) with (Z.to_nat (maxSpeakersOf c - Js.len recent))
      by (destruct c; reflexivity).
    fold k. rewrite bind_this.
    replace (maxSpeakersOf (withAdmission _ _ c1)) with (maxSpeakersOf c)
      by (destruct c; reflexivity).
    destruct (Z.ltb_spec (maxSpeakersOf c) (lengthOrZero (speakers parts)));
      [lia | ].
    rewrite bind_ret, bind_this.
    replace (elapsedMinutesAt (manage_now env) (withAdmission _ _ c1))
      with (elapsedMinutesAt (manage_now env) c)
      by (destruct c; reflexivity).
    replace (typicalDurationMinutesOf (withAdmission _ _ c1))
      with (typicalDurationMinutesOf c) by (destruct c; reflexivity).
    rewrite Due. unfold prepend, ret, queryOf.
    cbn [calls final completion].
    destruct (currentSpace c); [ | congruence ].
    cbn [Js.defined]. rewrite app_nil_r.
    destruct c; reflexivity. }
  rewrite (@tryCatch_normal _ body _ c tt) by (rewrite Body; reflexivity).
  rewrite Body. cbn [calls final completion].
  split; [reflexivity | ].
  split; [destruct c; reflexivity | ].
  split; [destruct c; reflexivity | ].
  split; [destruct c; reflexivity | ].
  cbn [filter isApprove]. rewrite filter_app.
  rewrite filter_isApprove_drainCalls.
  assert (N : forall l, filter isApprove (evictionCalls true l) = []).
  { induction l as [ | s l IH]; cbn; [reflexivity | exact IH]. }
  rewrite N. reflexivity.
Qed.

(** X16 with [maxSpeakers] = 1: carol has spoken since time 1, alice and
    bob wait; five minutes later the tick replaces carol by alice. *)
Lemma tick_frees_and_refills_witness :
  let c := withAdmission (activeSpeakers carolSpeaks) [alice; bob]
             carolSpeaks in
  let env := tickAt 300000 carolInRoom [] in
  let o := manageCurrentSpace env c in
  hasSpaceToManage c = true /\
  reportedParticipants env
  = Some {| speakers := Some carolInRoom; listeners := Some [] |} /\
  lengthOrZero (Some carolInRoom) <= maxSpeakersOf c /\
  closingDue env c = false /\
  allApproved (manage_admissions env) /\
  activeSpeakers (final o) = [admitted alice 300000] /\
  speakerQueue (final o) = [bob] /\
  spaceStatus (final o) = HOSTING.
Proof.
  cbn zeta.
  set (c := withAdmission (activeSpeakers carolSpeaks) [alice; bob]
              carolSpeaks).
  assert (G : hasSpaceToManage c = true) by (vm_compute; reflexivity).
  assert (R : reportedParticipants (tickAt 300000 carolInRoom [])
              = Some {| speakers := Some carolInRoom;
                        listeners := Some [] |}) by reflexivity.
  assert (Cap : lengthOrZero
                  (speakers {| speakers := Some carolInRoom;
                               listeners := Some [] |})
                <= maxSpeakersOf c) by (vm_compute; discriminate).
  assert (Due : closingDue (tickAt 300000 carolInRoom []) c = false)
    by (vm_compute; reflexivity).
  assert (A : allApproved (manage_admissions (tickAt 300000 carolInRoom [])))
    by (intros n; reflexivity).
  destruct (@tick_frees_and_refills (tickAt 300000 carolInRoom []) _ c
              G R Cap Due A) as [_ [S [Q [St _]]]].
  split; [exact G | ]. split; [exact R | ]. split; [exact Cap | ].
  split; [exact Due | ]. split; [exact A | ].
  split; [rewrite S; vm_compute; reflexivity | ].
  split; [rewrite Q; vm_compute; reflexivity | ].
  rewrite St. vm_compute. reflexivity.
Defined.

(** ** After the stop *)

(** X17: once stopSpace has stopped a Space, the client ignores what the
    room still sends and what the loop still asks: a speaker request, a
    management tick and a second stop make no call and change nothing,
    and an idle timeout only speaks its filler. *)
Theorem stopped_client_ignores_the_room (stop : StopEnv)
  (c : TwitterSpaceClient) :
  nothingToStop c = false ->
  let c' := after (stopSpace stop) c in
  (forall req env, handleSpeakerRequest req env c' = nothing c') /\
  (forall env, manageCurrentSpace env c' = nothing c') /\
  (forall env, stopSpace env c' = nothing c') /\
  (forall env, onIdleTimeout env c' =
                 {| calls := [SpeakFiller IDLE_ENDING None];
                    final := c';
                    completion := Normal tt |}).
Proof.
  intros N. cbn zeta. unfold after. rewrite stopSpace_run, N. cbn [final].
  split; [ | split; [ | split]].
  - intros req env. rewrite handleSpeakerRequest_run. reflexivity.
  - intros env. unfold manageCurrentSpace. rewrite bind_this. reflexivity.
  - intros env. rewrite stopSpace_run. reflexivity.
  - intros env. unfold onIdleTimeout.
    rewrite bind_logged, bind_speakFiller, stopSpace_run. reflexivity.
Qed.

(** X17 on a hosted Space whose close fails. *)
Lemma stopped_client_ignores_the_room_witness :
  let c' := after (stopSpace (closeFailsAt 50)) (hostingSince 0) in
  nothingToStop (hostingSince 0) = false /\
  handleSpeakerRequest alice (requestInEmptyRoom 60) c' = nothing c' /\
  manageCurrentSpace (tickAt 3000000 [] []) c' = nothing c'.
Proof.
  cbn zeta.
  assert (N : nothingToStop (hostingSince 0) = false)
    by (vm_compute; reflexivity).
  destruct (@stopped_client_ignores_the_room (closeFailsAt 50)
              (hostingSince 0) N) as [H [M _]].
  split; [exact N | ].
  split; [apply H | apply M].
Defined.

(** ** The engine and the methods

    An invocation that runs alone in the engine, nothing else being
    resumed between its awaits, leaves the client as the method of [M]
    does. *)

Lemma engineAfter_app (evs evs' : list Event) (e : Engine) :
  engineAfter (evs ++ evs') e = engineAfter evs' (engineAfter evs e).
Proof. unfold engineAfter. apply fold_left_app. Qed.

Lemma engineStep_alone (p : Suspended) (s : Settled) (c : TwitterSpaceClient) :
  engineStep (AwaitSettles 0 s) (alone (c, Some p)) = alone (resume p s c).
Proof.
  cbn. destruct (resume p s c) as [c' p']. cbn. now rewrite app_nil_r.
Qed.

Lemma reaches_refl (P : Settled -> Prop) (seg : Segment) : reaches P seg seg.
Proof. exists []. split; [constructor | reflexivity]. Qed.

Lemma reaches_trans (P : Settled -> Prop) (seg1 seg2 seg3 : Segment) :
  reaches P seg1 seg2 -> reaches P seg2 seg3 -> reaches P seg1 seg3.
Proof.
  intros [a1 [P1 R1]] [a2 [P2 R2]]. exists (a1 ++ a2). split.
  - apply Forall_app. split; assumption.
  - rewrite map_app, engineAfter_app, R1. exact R2.
Qed.

Lemma reaches_step (P : Settled -> Prop) (s : Settled) (p : Suspended)
  (c : TwitterSpaceClient) (seg : Segment) :
  P s ->
  reaches P (resume p s c) seg ->
  reaches P (c, Some p) seg.
Proof.
  intros Ps [a [Pa R]]. exists (s :: a). split.
  - constructor; assumption.
  - cbn [map]. unfold engineAfter in *. cbn [fold_left].
    rewrite engineStep_alone. exact R.
Qed.

(** The eviction loop run alone gets to the queue drain with the
    speakers the method keeps. *)
Lemma evictFrom_reaches (P : Settled -> Prop) (s : Settled) (f : TickFrame)
  (n : nat) :
  P s ->
  forall (c : TwitterSpaceClient) (todo seen : list CurrentSpeakerState),
  activeSpeakers c = todo ++ seen ->
  List.length todo = n ->
  reaches P (evictFrom f n c)
    (drainStarts f
       (withAdmission
          (filter (fun x => negb (expired (tick_maxDur f) (tick_now f) x))
             todo ++ seen)
          (speakerQueue c) c)).
Proof.
  intros Ps. induction n as [ | i IH]; intros c todo seen Act Len.
  - destruct todo; [ | discriminate ]. cbn in *.
    rewrite <- Act, withAdmission_same. apply reaches_refl.
  - destruct (exists_last (l := todo)) as [todo' [x E]].
    { intros ->. discriminate. }
    subst todo. rewrite length_app in Len. cbn in Len.
    assert (Len' : List.length todo' = i) by lia. clear Len.
    rewrite <- app_assoc in Act. cbn in Act.
    subst i. cbn [evictFrom]. rewrite Act, nth_error_middle.
    change (tick_maxDur f <? tick_now f - startTime x)
      with (expired (tick_maxDur f) (tick_now f) x).
    rewrite !filter_app. cbn [filter].
    destruct (expired (tick_maxDur f) (tick_now f) x) eqn:X; cbn [negb].
    + apply (@reaches_step P s); [exact Ps | ]. cbn [resume].
      apply (@reaches_step P s); [exact Ps | ]. cbn [resume].
      rewrite Act, splice1_middle.
      pose proof (IH (set_activeSpeakers (todo' ++ seen) c) todo' seen
                    ltac:(destruct c; reflexivity) eq_refl) as R.
      rewrite app_nil_r.
      replace (withAdmission
                 (filter (fun x0 => negb (expired (tick_maxDur f)
                                            (tick_now f) x0)) todo' ++ seen)
                 (speakerQueue c) c)
        with (withAdmission
                (filter (fun x0 => negb (expired (tick_maxDur f)
                                           (tick_now f) x0)) todo' ++ seen)
                (speakerQueue (set_activeSpeakers (todo' ++ seen) c))
                (set_activeSpeakers (todo' ++ seen) c))
        by (destruct c; reflexivity).
      exact R.
    + pose proof (IH c todo' (x :: seen) Act eq_refl) as R.
      rewrite <- app_assoc. exact R.
Qed.

(** The queue drain run alone gets to the end of the loop with the
    client the method leaves. *)
Lemma drainTest_reaches (P : Settled -> Prop) (env : ManageEnv)
  (f : TickFrame) (ms : Z) (fuel : nat) :
  (forall adm now, P (tickSettles env adm now)) ->
  forall (adms : nat -> Admission) (c : TwitterSpaceClient),
  (List.length (speakerQueue c) <= fuel)%nat ->
  reaches P (drainTest f ms c)
    (after (acceptLoop fuel ms adms) c, Some (TickAwaitsDrain f)).
Proof.
  intros Ps. induction fuel as [ | fuel IH]; intros adms c L.
  - unfold drainTest, after.
    destruct (speakerQueue c); [ | cbn in L; lia].
    cbn. apply reaches_refl.
  - unfold after. rewrite acceptLoop_step. unfold drainTest.
    destruct (speakerQueue c) as [ | nextReq rest] eqn:Q.
    + change (0 <? Js.len (@nil SpeakerRequest)) with false.
      cbn [andb final]. apply reaches_refl.
    + change (0 <? Js.len (nextReq :: rest)) with true.
      cbn [andb].
      destruct (Js.len (activeSpeakers c) <? ms); cbn [final];
        [ | apply reaches_refl].
      cbn [prepend final].
      set (s := tickSettles env (adms 0%nat) (admittedAt (adms 0%nat))).
      apply (@reaches_step P s); [apply Ps | ]. cbn [resume].
      replace (currentSpace (set_speakerQueue rest c)) with (currentSpace c)
        by (destruct c; reflexivity).
      assert (L' : (List.length rest <= fuel)%nat) by (cbn in L; lia).
      destruct (currentSpace c) as [h | ] eqn:Sp; cbn [Js.defined negb].
      * apply (@reaches_step P s); [apply Ps | ]. cbn [resume].
        apply (@reaches_step P s); [apply Ps | ]. cbn [resume].
        pose proof (IH (next adms)
                      (approvalSettles nextReq s (set_speakerQueue rest c)))
          as R.
        unfold after in R.
        replace (withAdmission
                   (activeSpeakers c ++ admittedOf (always (adms 0%nat))
                                          [nextReq]) rest c)
          with (approvalSettles nextReq s (set_speakerQueue rest c)).
        -- apply R. unfold approvalSettles.
           destruct (settled_approval s); destruct c; cbn; exact L'.
        -- unfold approvalSettles, s, always. cbn.
           destruct (approveSpeaker (adms 0%nat)) as [ | []];
             destruct c; cbn; rewrite ?app_nil_r; reflexivity.
      * apply (@reaches_step P s); [apply Ps | ]. cbn [resume].
        pose proof (IH (next adms) (set_speakerQueue rest c)) as R.
        unfold after in R.
        replace (withAdmission (activeSpeakers c ++ []) rest c)
          with (set_speakerQueue rest c)
          by (destruct c; cbn; rewrite app_nil_r; reflexivity).
        apply R. destruct c; cbn; exact L'.
Qed.

(** The capacity trim run alone gets to the end of its loop with the
    client the method leaves. *)
Lemma kickFrom_reaches (P : Settled -> Prop) (s : Settled) (f : TickFrame)
  (extras : list RoomUser) :
  P s ->
  forall (answers : nat -> Answer unit) (c : TwitterSpaceClient),
  reaches P (kickFrom f extras c)
    (after (kickLoop extras answers) c, Some (TickAwaitsTrim f)).
Proof.
  intros Ps. induction extras as [ | sp more IH]; intros answers c.
  - apply reaches_refl.
  - unfold after. rewrite kickLoop_exact. cbn [final fold_left kickFrom].
    apply (@reaches_step P s); [exact Ps | ]. cbn [resume].
    pose proof (findIndex_splice1 (sameUser sp) (activeSpeakers c)) as E.
    unfold sameUser in E at 1.
    set (c' := match Js.findIndex _ (activeSpeakers c) with
               | Some idx => _
               | None => c
               end).
    assert (C' : c' = set_activeSpeakers
                        (removeFirst (sameUser sp) (activeSpeakers c)) c).
    { subst c'. rewrite <- E.
      destruct (Js.findIndex _ (activeSpeakers c)); [reflexivity | ].
      destruct c; reflexivity. }
    rewrite C'.
    pose proof (IH (next answers)
                  (set_activeSpeakers
                     (removeFirst (sameUser sp) (activeSpeakers c)) c)) as R.
    unfold after in R. rewrite kickLoop_exact in R. cbn [final] in R.
    replace (withAdmission
               (fold_left (fun act sp0 => removeFirst (sameUser sp0) act) more
                  (removeFirst (sameUser sp) (activeSpeakers c)))
               (speakerQueue c) c)
      with (withAdmission
              (fold_left (fun act sp0 => removeFirst (sameUser sp0) act) more
                 (activeSpeakers
                    (set_activeSpeakers
                       (removeFirst (sameUser sp) (activeSpeakers c)) c)))
              (speakerQueue
                 (set_activeSpeakers
                    (removeFirst (sameUser sp) (activeSpeakers c)) c))
              (set_activeSpeakers
                 (removeFirst (sameUser sp) (activeSpeakers c)) c))
      by (destruct c; reflexivity).
    exact R.
Qed.

Lemma stopSpaceEnds_stopped (now : Z) (c : TwitterSpaceClient) :
  stopSpaceEnds now c = stopped now c.
Proof. destruct c; reflexivity. Qed.

(** Step 4 of the tick run alone. *)
Lemma closingStarts_reaches (P : Settled -> Prop) (env : ManageEnv)
  (parts : Participants) (c0 c : TwitterSpaceClient) :
  (forall adm now, P (tickSettles env adm now)) ->
  reaches P (closingStarts (frameOf env parts c0) c)
    (closesOrStays env parts c, None).
Proof.
  intros Ps. unfold closingStarts, closesOrStays.
  cbn [frameOf tick_now tick_numSpeakers tick_totalListeners].
  destruct (closingCondition _ _ _ _); [ | apply reaches_refl].
  set (s := tickSettles env (manage_admissions env 0%nat)
              (stop_now (manage_stop env))).
  apply (@reaches_step P s); [apply Ps | ]. cbn [resume].
  unfold after. rewrite stopSpace_run. unfold stopSpaceStarts, nothingToStop.
  destruct (negb (Js.defined (currentSpace c))
            || SpaceActivity_eqb (spaceStatus c) IDLE); cbn [final].
  - apply reaches_refl.
  - apply (@reaches_step P s); [apply Ps | ]. cbn [resume].
    rewrite stopSpaceEnds_stopped. apply reaches_refl.
Qed.

(** What the tick leaves, stage by stage. *)
Lemma manageCurrentSpace_after (env : ManageEnv) (parts : Participants)
  (c : TwitterSpaceClient) :
  hasSpaceToManage c = true ->
  reportedParticipants env = Some parts ->
  let c1 := after (evictExpiredSpeakers (manage_now env)
                     (manage_evictions env)) c in
  let c2 := after (acceptSpeakersFromQueueIfNeeded (manage_admissions env))
              c1 in
  after (manageCurrentSpace env) c =
    if maxSpeakersOf c2 <? lengthOrZero (speakers parts)
    then if negb (Js.defined (currentSpace c2))
         then closesOrStays env parts c2
         else match speakers parts with
              | None => c2
              | Some l =>
                  closesOrStays env parts
                    (after (kickLoop (Js.slice_from (maxSpeakersOf c2) l)
                              (manage_kicks env)) c2)
              end
    else closesOrStays env parts c2.
Proof.
  intros H Rep. cbn zeta.
  unfold hasSpaceToManage in H. apply andb_prop in H. destruct H as [Hi Hc].
  unfold reportedParticipants in Rep.
  destruct (manage_audioSpace env) as [ | [a | ]] eqn:Ans; try discriminate.
  unfold after at 1. unfold manageCurrentSpace.
  rewrite bind_this, Hi, Hc. cbn [negb orb].
  rewrite final_tryCatch_logged, bind_await, Ans, Rep.
  cbn [prepend final].
  assert (C1 : completion (evictExpiredSpeakers (manage_now env)
                             (manage_evictions env) c) = Normal tt)
    by (rewrite evictExpiredSpeakers_exact; reflexivity).
  rewrite final_bind, C1.
  fold (after (evictExpiredSpeakers (manage_now env) (manage_evictions env))
          c).
  set (c1 := after (evictExpiredSpeakers (manage_now env)
                      (manage_evictions env)) c).
  assert (C2 : completion (acceptSpeakersFromQueueIfNeeded
                             (manage_admissions env) c1) = Normal tt).
  { destruct (acceptSpeakersFromQueueIfNeeded_run (manage_admissions env) c1)
      as [k [_ [Run _]]]. rewrite Run. reflexivity. }
  rewrite final_bind, C2.
  fold (after (acceptSpeakersFromQueueIfNeeded (manage_admissions env)) c1).
  set (c2 := after (acceptSpeakersFromQueueIfNeeded (manage_admissions env))
               c1).
  rewrite bind_this.
  assert (Tail : forall c3 : TwitterSpaceClient,
             final (bind this
                      (fun c4 =>
                         if closingCondition
                              (elapsedMinutesAt (manage_now env) c4)
                              (typicalDurationMinutesOf c4)
                              (lengthOrZero (speakers parts))
                              (lengthOrZero (listeners parts))
                         then bind logged
                                (fun _ => bind (speakFiller CLOSING (Some 4000))
                                            (fun _ => stopSpace (manage_stop env)))
                         else ret tt) c3)
             = closesOrStays env parts c3).
  { intros c3. rewrite bind_this. unfold closesOrStays.
    destruct (closingCondition _ _ _ _); [ | reflexivity].
    rewrite bind_logged, bind_speakFiller. reflexivity. }
  destruct (maxSpeakersOf c2 <? lengthOrZero (speakers parts)).
  - rewrite final_bind.
    assert (K : bind logged
                  (fun _ => kickExtraSpeakers (speakers parts)
                              (manage_kicks env)) c2
                = kickExtraSpeakers (speakers parts) (manage_kicks env) c2)
      by apply bind_logged.
    rewrite K. clear K.
    destruct (negb (Js.defined (currentSpace c2))) eqn:G.
    + assert (KE : kickExtraSpeakers (speakers parts) (manage_kicks env) c2
                   = {| calls := []; final := c2; completion := Normal tt |})
        by (unfold kickExtraSpeakers; rewrite bind_this, G; reflexivity).
      rewrite KE. cbn [completion final]. apply Tail.
    + destruct (speakers parts) as [l | ].
      * assert (KE : kickExtraSpeakers (Some l) (manage_kicks env) c2
                     = kickLoop (Js.slice_from (maxSpeakersOf c2) l)
                         (manage_kicks env) c2)
          by (unfold kickExtraSpeakers; rewrite bind_this, G; reflexivity).
        rewrite KE. unfold after at 1.
        assert (C3 : completion
                       (kickLoop (Js.slice_from (maxSpeakersOf c2) l)
                          (manage_kicks env) c2) = Normal tt)
          by (rewrite kickLoop_exact; reflexivity).
        rewrite C3. apply Tail.
      * assert (KE : kickExtraSpeakers None (manage_kicks env) c2
                     = throw TypeError c2)
          by (unfold kickExtraSpeakers; rewrite bind_this, G; reflexivity).
        rewrite KE. reflexivity.
  - rewrite bind_ret. apply Tail.
Qed.

Lemma manageCurrentSpace_idle (env : ManageEnv) (c : TwitterSpaceClient) :
  hasSpaceToManage c = false \/ reportedParticipants env = None ->
  after (manageCurrentSpace env) c = c.
Proof.
  intros H. unfold after, manageCurrentSpace. rewrite bind_this.
  unfold hasSpaceToManage in H.
  destruct (Js.truthy_opt Js.truthy_string (spaceId c));
    [ | reflexivity].
  destruct (Js.defined (currentSpace c)); [ | reflexivity].
  destruct H as [H | H]; [discriminate | ].
  cbn [negb orb]. rewrite final_tryCatch_logged, bind_await.
  unfold reportedParticipants in H.
  destruct (manage_audioSpace env) as [ | [a | ]]; try reflexivity.
  rewrite H. reflexivity.
Qed.

(** A tick run alone: from its call to its end, the engine leaves the
    client as [manageCurrentSpace] does. *)
Lemma tickStarts_reaches (env : ManageEnv) (c : TwitterSpaceClient) :
  reaches (fun s => settled_room s = manage_audioSpace env)
    (tickStarts c) (after (manageCurrentSpace env) c, None).
Proof.
  set (P := fun s => settled_room s = manage_audioSpace env).
  assert (Ps : forall adm now, P (tickSettles env adm now))
    by (intros adm now; reflexivity).
  unfold tickStarts.
  destruct (hasSpaceToManage c) eqn:H.
  2:{ rewrite manageCurrentSpace_idle by (left; exact H).
      unfold hasSpaceToManage in H.
      destruct (Js.truthy_opt Js.truthy_string (spaceId c));
        [ | apply reaches_refl].
      destruct (Js.defined (currentSpace c)); [discriminate | ].
      apply reaches_refl. }
  pose proof H as H'. unfold hasSpaceToManage in H'.
  apply andb_prop in H'. destruct H' as [Hi Hc]. rewrite Hi, Hc.
  cbn [negb orb].
  set (s0 := tickSettles env (manage_admissions env 0%nat) (manage_now env)).
  apply (@reaches_step P s0); [apply Ps | ].
  destruct (reportedParticipants env) as [parts | ] eqn:Rep.
  2:{ rewrite manageCurrentSpace_idle by (right; exact Rep).
      cbn [resume s0 tickSettles settled_room].
      unfold reportedParticipants in Rep.
      destruct (manage_audioSpace env) as [ | [a | ]];
        try apply reaches_refl.
      rewrite Rep. apply reaches_refl. }
  rewrite (manageCurrentSpace_after env c H Rep).
  assert (R0 : resume TickAwaitsRoom s0 c =
               evictFrom (frameOf env parts c)
                 (List.length (activeSpeakers c)) c).
  { cbn [resume s0 tickSettles settled_room settled_now].
    unfold reportedParticipants in Rep.
    destruct (manage_audioSpace env) as [ | [a | ]]; try discriminate.
    rewrite Rep. reflexivity. }
  rewrite R0. clear R0.
  set (f := frameOf env parts c).
  (* step 1 *)
  pose proof (@evictFrom_reaches P s0 f (List.length (activeSpeakers c))
                (Ps _ _) c (activeSpeakers c) []
                (eq_sym (app_nil_r _)) eq_refl) as R1.
  assert (E1 : withAdmission
                 (filter (fun x => negb (expired (tick_maxDur f)
                                           (tick_now f) x))
                    (activeSpeakers c) ++ [])
                 (speakerQueue c) c
               = after (evictExpiredSpeakers (manage_now env)
                          (manage_evictions env)) c).
  { unfold after, evictExpiredSpeakers. rewrite bind_this.
    rewrite (@evictLoop_filter (List.length (activeSpeakers c))
               (speakerMaxDurationMsOf c) (manage_now env)
               (manage_evictions env) c (activeSpeakers c) []
               (eq_sym (app_nil_r _)) eq_refl).
    reflexivity. }
  rewrite E1 in R1. clear E1.
  set (c1 := after (evictExpiredSpeakers (manage_now env)
                      (manage_evictions env)) c) in *.
  apply (reaches_trans R1). clear R1.
  (* step 2 *)
  unfold drainStarts.
  pose proof (@drainTest_reaches P env f (maxSpeakersOf c1)
                (List.length (speakerQueue c1)) Ps
                (manage_admissions env) c1 (Nat.le_refl _)) as R2.
  assert (E2 : after (acceptLoop (List.length (speakerQueue c1))
                        (maxSpeakersOf c1) (manage_admissions env)) c1
               = after (acceptSpeakersFromQueueIfNeeded
                          (manage_admissions env)) c1).
  { unfold after, acceptSpeakersFromQueueIfNeeded. now rewrite bind_this. }
  rewrite E2 in R2. clear E2.
  set (c2 := after (acceptSpeakersFromQueueIfNeeded (manage_admissions env))
               c1) in *.
  apply (reaches_trans R2). clear R2.
  (* step 3 *)
  apply (@reaches_step P s0); [apply Ps | ]. cbn [resume].
  unfold trimStarts.
  replace (tick_numSpeakers f) with (lengthOrZero (speakers parts))
    by reflexivity.
  replace (tick_speakers f) with (speakers parts) by reflexivity.
  destruct (maxSpeakersOf c2 <? lengthOrZero (speakers parts));
    [ | apply closingStarts_reaches; exact Ps].
  destruct (negb (Js.defined (currentSpace c2))).
  - apply (@reaches_step P s0); [apply Ps | ]. cbn [resume].
    apply closingStarts_reaches; exact Ps.
  - destruct (speakers parts) as [l | ]; [ | apply reaches_refl].
    apply (reaches_trans
             (@kickFrom_reaches P s0 f (Js.slice_from (maxSpeakersOf c2) l)
                (Ps _ _) (manage_kicks env) c2)).
    apply (@reaches_step P s0); [apply Ps | ]. cbn [resume].
    apply closingStarts_reaches; exact Ps.
Qed.

(** A management tick that runs alone in the engine, its awaits settled
    one after the other with the room answering as in [env], ends with
    nothing suspended and leaves the client exactly as
    [manageCurrentSpace] leaves it. *)
Lemma lone_tick (env : ManageEnv) (c : TwitterSpaceClient) :
  exists answers : list Settled,
    Forall (fun s => settled_room s = manage_audioSpace env) answers /\
    engineAfter (TickCalled :: map (AwaitSettles 0) answers) (idleEngine c)
    = idleEngine (after (manageCurrentSpace env) c).
Proof.
  destruct (tickStarts_reaches env c) as [answers [Pa R]].
  exists answers. split; [exact Pa | ].
  unfold engineAfter in *. cbn [fold_left engineStep].
  replace (called (tickStarts (client (idleEngine c))) (idleEngine c))
    with (alone (tickStarts c)).
  - exact R.
  - cbn [idleEngine client]. destruct (tickStarts c) as [c' p'].
    reflexivity.
Qed.

(** A speaker request handled alone in the engine, nothing else being
    resumed between its three awaits, ends with nothing suspended and
    leaves the client exactly as [handleSpeakerRequest] leaves it. *)
Lemma lone_request (req : SpeakerRequest) (env : RequestEnv)
  (c : TwitterSpaceClient) :
  let s := {| settled_room := request_audioSpace env;
              settled_approval := approveSpeaker (request_admission env);
              settled_initialize := Rejects;
              settled_sendTweet := Rejects;
              settled_textToSpeech := false;
              settled_transcription := false;
              settled_now := admittedAt (request_admission env) |} in
  engineAfter [SpeakerRequestEmitted req;
               AwaitSettles 0 s; AwaitSettles 0 s; AwaitSettles 0 s]
    (idleEngine c)
  = idleEngine (after (handleSpeakerRequest req env) c).
Proof.
  cbn zeta. unfold after, engineAfter. rewrite handleSpeakerRequest_run.
  cbn [fold_left]. unfold engineStep at 4. unfold requestStarts.
  cbn [idleEngine client].
  destruct (negb (Js.truthy_opt Js.truthy_string (spaceId c))
            || negb (Js.defined (currentSpace c))) eqn:G.
  - reflexivity.
  - apply orb_false_elim in G. destruct G as [_ G].
    cbn -[maxSpeakersOf Z.ltb janusSpeakersOf].
    destruct (request_audioSpace env) as [ | room].
    + reflexivity.
    + cbn -[maxSpeakersOf Z.ltb janusSpeakersOf].
      destruct (Js.len (janusSpeakersOf room) <? maxSpeakersOf c).
      * cbn -[maxSpeakersOf Z.ltb janusSpeakersOf]. rewrite G.
        cbn -[maxSpeakersOf Z.ltb janusSpeakersOf].
        unfold approvalSettles, always, idleEngine. cbn.
        destruct (approveSpeaker (request_admission env)) as [ | []];
          destruct c; cbn; rewrite ?app_nil_r; reflexivity.
      * destruct c; reflexivity.
Qed.

(** startSpace run alone in the engine, its three awaits settled as in
    [env], ends with nothing suspended and leaves the client exactly as
    [startSpace] leaves it, whether the room is opened or the opening
    fails. *)
Lemma lone_startSpace (config : SpaceConfig) (env : StartEnv)
  (c : TwitterSpaceClient) :
  let s := {| settled_room := Rejects;
              settled_approval := Rejects;
              settled_initialize := start_initialize env;
              settled_sendTweet := start_sendTweet env;
              settled_textToSpeech := start_textToSpeech env;
              settled_transcription := start_transcription env;
              settled_now := start_now env |} in
  engineAfter [StartSpaceCalled (start_now env);
               AwaitSettles 0 s; AwaitSettles 0 s; AwaitSettles 0 s]
    (idleEngine c)
  = idleEngine (after (startSpace config env) c).
Proof.
  cbn zeta. unfold after, engineAfter. rewrite startSpace_run.
  destruct env as [now [ | info] tts tr [ | []]]; cbn;
    try (destruct c; reflexivity);
    unfold startSpaceInitialized; cbn;
    destruct (tts && tr); destruct c; reflexivity.
Qed.

(** The [idleTimeout] handler run alone in the engine ends with nothing
    suspended and leaves the client exactly as the handler of lines
    261-271 leaves it. *)
Lemma lone_idleTimeout (env : StopEnv) (c : TwitterSpaceClient) :
  let s := {| settled_room := Rejects;
              settled_approval := Rejects;
              settled_initialize := Rejects;
              settled_sendTweet := Rejects;
              settled_textToSpeech := false;
              settled_transcription := false;
              settled_now := stop_now env |} in
  engineAfter [IdleTimeoutEmitted; AwaitSettles 0 s; AwaitSettles 0 s]
    (idleEngine c)
  = idleEngine (after (onIdleTimeout env) c).
Proof.
  cbn zeta. unfold after, engineAfter, onIdleTimeout.
  rewrite bind_logged, bind_speakFiller. cbn [prepend final].
  rewrite stopSpace_run. unfold nothingToStop.
  cbn -[SpaceActivity_eqb]. unfold stopSpaceStarts.
  destruct (negb (Js.defined (currentSpace c))
            || SpaceActivity_eqb (spaceStatus c) IDLE); cbn.
  - reflexivity.
  - rewrite stopSpaceEnds_stopped. reflexivity.
Qed.

(** ** The queue in every interleaving *)

Lemma drainTest_queue (f : TickFrame) (ms : Z) (c : TwitterSpaceClient) :
  queueMove (speakerQueue c) (speakerQueue (fst (drainTest f ms c))).
Proof.
  unfold drainTest. destruct (speakerQueue c) as [ | nextReq rest] eqn:Q.
  - cbn. rewrite Q. constructor.
  - destruct (_ <? _); cbn.
    + replace (speakerQueue (set_speakerQueue rest c)) with rest
        by (destruct c; reflexivity).
      now apply (queue_shifted (req := nextReq)).
    + rewrite Q. constructor.
Qed.

Lemma evictFrom_queue (f : TickFrame) (n : nat) (c : TwitterSpaceClient) :
  queueMove (speakerQueue c) (speakerQueue (fst (evictFrom f n c))).
Proof.
  induction n as [ | i IH]; cbn [evictFrom].
  - apply drainTest_queue.
  - destruct (nth_error (activeSpeakers c) i) as [speaker | ];
      [ | constructor].
    destruct (_ <? _); [constructor | exact IH].
Qed.

Lemma resume_queue (p : Suspended) (s : Settled) (c : TwitterSpaceClient) :
  queueMove (speakerQueue c) (speakerQueue (fst (resume p s c))).
Proof.
  destruct p as [req | req | req | | f i | f i | f | f | | f ms req
                 | f ms req | f ms | f sp more | | | | | ];
    cbn [resume].
  - destruct (settled_room s) as [ | audioSpace]; [constructor | ].
    destruct (_ <? _); cbn; [constructor | ].
    replace (speakerQueue (set_speakerQueue (speakerQueue c ++ [req]) c))
      with (speakerQueue c ++ [req]) by (destruct c; reflexivity).
    constructor.
  - destruct (negb _); constructor.
  - unfold approvalSettles.
    destruct (settled_approval s); cbn; destruct c; constructor.
  - destruct (settled_room s) as [ | [a | ]]; try constructor.
    destruct (participants a); [apply evictFrom_queue | constructor].
  - cbn. destruct c; constructor.
  - apply evictFrom_queue.
  - unfold trimStarts, closingStarts, kickFrom.
    destruct (_ <? _).
    + destruct (negb _); [constructor | ].
      destruct (tick_speakers f) as [l | ]; [ | constructor].
      destruct (Js.slice_from _ l); constructor.
    + destruct (closingCondition _ _ _ _); constructor.
  - unfold closingStarts.
    destruct (closingCondition _ _ _ _); constructor.
  - unfold stopSpaceStarts. destruct (_ || _); constructor.
  - destruct (negb _); constructor.
  - unfold approvalSettles.
    destruct (settled_approval s); cbn; destruct c; constructor.
  - apply drainTest_queue.
  - unfold kickFrom.
    destruct (Js.findIndex _ _); destruct more; cbn; destruct c; constructor.
  - unfold stopSpaceStarts. destruct (_ || _); constructor.
  - cbn. destruct c; constructor.
  - destruct (settled_initialize s); cbn.
    + destruct c; constructor.
    + unfold startSpaceInitialized. destruct (_ && _); destruct c;
        constructor.
  - destruct (settled_sendTweet s); cbn; destruct c; constructor.
  - constructor.
Qed.

(** X18: in every interleaving, one step of the engine leaves the
    pending queue as it is, appends one request at its tail, takes the
    request at its head, or empties it.  No step reorders the queue,
    takes a request from behind another, or inserts one anywhere but at
    the tail. *)
Theorem speakerQueue_moves_at_its_ends (ev : Event) (e : Engine) :
  queueMove (speakerQueue (client e))
    (speakerQueue (client (engineStep ev e))).
Proof.
  destruct ev as [req | | | now | i s]; cbn [engineStep].
  - unfold requestStarts. destruct (_ || _); constructor.
  - unfold tickStarts. destruct (_ || _); constructor.
  - constructor.
  - cbn. constructor.
  - destruct (nth_error (suspended e) i) as [p | ]; [ | constructor].
    pose proof (resume_queue p s (client e)) as Q.
    destruct (resume p s (client e)) as [c' p']. exact Q.
Qed.
